(** * Grid-bot trading system: a shallow embedding of the strategy engine

    The development embeds the parts of the TypeScript sources that the
    specification speaks about:

    - [GridGenerator]   (src/core/GridGenerator.ts)
    - [OrderAllocator]  (src/core/OrderAllocator.ts)
    - [RiskManager]     (src/risk-management/RiskManager.ts)
    - [Config]          (src/config/defaultConfig.ts, [validateConfig])
    - [ExecutionEngine] (src/execution/ExecutionEngine.ts)
    - [TradingBot]      (src/core/TradingBot.ts, [stop]; [StopLossEvent]
                         for [handleStopLossEvent])
    - [PerformanceMonitor] (src/monitoring/PerformanceMonitor.ts, without
                         its files)

    Numbers.  A JavaScript [number] is modelled by [JsNumber.number]: a
    rational, or one of the three special values [+Infinity], [-Infinity]
    and [NaN].  Arithmetic on finite values is exact (rounding to binary64
    and the sign of zero are not modelled); what the operators do with a
    zero divisor and with the special values follows ECMAScript, since
    several functions of the engine divide without a guard.  The theorems
    are therefore about what rounding leaves alone: the expression by
    which the code computes a value, comparisons, counts, exact zeros and
    the special values.  Where an identity holds of the rationals only
    (the capital an allocation commits, the last level of a grid), the
    arithmetic of the function is run on IEEE 754 binary64 in [Binary64],
    over the primitive floats, and the difference is shown there.

    Effects.  The execution engine and the bot talk to the exchange and
    catch what it throws: their methods are written in a state and error
    monad over the object, the state of the exchange and the lines given
    to the logger ([Effects]).  The generator, the allocator and the risk
    manager only log besides computing; their logger calls are left out.
    What needs the transcendental functions of [Math] beyond a parameter
    ([calculateHistoricalVolatility]), the file system or the timers (the
    trading cycle, the saving of the monitor, the dashboard and the API
    server) is not embedded. *)

From Stdlib Require Import QArith Qabs Lqa ZArith Lia.
From Stdlib Require Import Bool String List Permutation Sorted.
From Stdlib Require PrimFloat.
Import ListNotations.

Set Implicit Arguments.

(* ===================================================================== *)
(** * JavaScript numbers *)
(* ===================================================================== *)

Module JsNumber.

Inductive number : Type :=
| Fin (q : Q)
| PInf
| NInf
| NaN.

Definition neg (x : number) : number :=
  match x with
  | Fin a => Fin (- a)
  | PInf => NInf
  | NInf => PInf
  | NaN => NaN
  end.

Definition add (x y : number) : number :=
  match x, y with
  | NaN, _ | _, NaN => NaN
  | Fin a, Fin b => Fin (a + b)
  | PInf, NInf | NInf, PInf => NaN
  | PInf, _ | _, PInf => PInf
  | NInf, _ | _, NInf => NInf
  end.

Definition sub (x y : number) : number := add x (neg y).

(** An infinity multiplied by a finite value: the sign of the finite value
    decides, and [Infinity * 0] is [NaN]. *)
Definition scale_inf (i : number) (b : Q) : number :=
  match b ?= 0 with
  | Eq => NaN
  | Gt => i
  | Lt => neg i
  end.

Definition mul (x y : number) : number :=
  match x, y with
  | NaN, _ | _, NaN => NaN
  | Fin a, Fin b => Fin (a * b)
  | Fin a, i => scale_inf i a
  | i, Fin b => scale_inf i b
  | PInf, PInf | NInf, NInf => PInf
  | PInf, NInf | NInf, PInf => NInf
  end.

(** [x / y].  A finite value divided by zero is an infinity of the sign of
    the dividend, and [0 / 0] is [NaN]. *)
Definition div (x y : number) : number :=
  match x, y with
  | NaN, _ | _, NaN => NaN
  | Fin a, Fin b =>
      match b ?= 0 with
      | Eq => match a ?= 0 with
              | Eq => NaN
              | Gt => PInf
              | Lt => NInf
              end
      | _ => Fin (a / b)
      end
  | Fin _, _ => Fin 0
  | i, Fin b => match b ?= 0 with Lt => neg i | _ => i end
  | _, _ => NaN
  end.

(** [Math.abs] *)
Definition abs (x : number) : number :=
  match x with
  | Fin a => Fin (Qabs a)
  | PInf | NInf => PInf
  | NaN => NaN
  end.

(** The comparison underlying [<], [<=], [>], [>=] and [===]: undefined as
    soon as one side is [NaN]. *)
Definition compare (x y : number) : option comparison :=
  match x, y with
  | NaN, _ | _, NaN => None
  | Fin a, Fin b => Some (a ?= b)
  | PInf, PInf | NInf, NInf => Some Eq
  | NInf, _ | _, PInf => Some Lt
  | PInf, _ | _, NInf => Some Gt
  end.

Definition lt (x y : number) : bool :=
  match compare x y with Some Lt => true | _ => false end.
Definition gt (x y : number) : bool :=
  match compare x y with Some Gt => true | _ => false end.
Definition le (x y : number) : bool :=
  match compare x y with Some Lt | Some Eq => true | _ => false end.
Definition ge (x y : number) : bool :=
  match compare x y with Some Gt | Some Eq => true | _ => false end.
(** [x === y] and [x !== y] *)
Definition strict_eq (x y : number) : bool :=
  match compare x y with Some Eq => true | _ => false end.
Definition strict_ne (x y : number) : bool := negb (strict_eq x y).

(** [Math.min] of two arguments *)
Definition min (x y : number) : number :=
  match compare x y with
  | None => NaN
  | Some Gt => y
  | Some _ => x
  end.

(** Truthiness of a number: [0] and [NaN] are falsy. *)
Definition truthy (x : number) : bool :=
  match x with
  | Fin a => negb (Qeq_bool a 0)
  | NaN => false
  | _ => true
  end.

(** An integer ([array.length], a loop counter) seen as a number. *)
Definition of_Z (z : Z) : number := Fin (inject_Z z).
Definition of_nat (n : nat) : number := of_Z (Z.of_nat n).

(** [array.reduce((sum, v) => sum + v, 0)] *)
Definition sum (l : list number) : number := fold_left add l (Fin 0).

Definition finite (x : number) : Prop :=
  match x with Fin _ => True | _ => False end.

(** The mathematical value of a number is [q] *)
Definition is_value (x : number) (q : Q) : Prop :=
  match x with Fin a => a == q | _ => False end.

Declare Scope js_scope.
Delimit Scope js_scope with js.
Bind Scope js_scope with number.
Infix "+" := add : js_scope.
Infix "-" := sub : js_scope.
Infix "*" := mul : js_scope.
Infix "/" := div : js_scope.
Infix "<?" := lt : js_scope.
Infix "<=?" := le : js_scope.
Infix ">?" := gt (at level 70) : js_scope.
Infix ">=?" := ge (at level 70) : js_scope.
Infix "===" := strict_eq (at level 70) : js_scope.
Infix "!==" := strict_ne (at level 70) : js_scope.

End JsNumber.

Import JsNumber.
Local Open Scope js_scope.

(* ===================================================================== *)
(** * Shared types (src/types) *)
(* ===================================================================== *)

(** What a call that may [throw] yields: a value, or the thrown error
    (its message). *)
Inductive result (A : Type) : Type :=
| Ok (a : A)
| Throw (message : string).
Arguments Ok {A} a.
Arguments Throw {A} message.

(** The last constructor of the two method enumerations stands for a value
    outside the TypeScript enum, which the [switch] statements send to
    their [default] branch. *)
Inductive GridDistributionMethod : Type :=
| LINEAR | ARITHMETIC | GEOMETRIC | VOLATILITY_BASED | UNKNOWN_DISTRIBUTION.

Inductive OrderAllocationMethod : Type :=
| EQUAL | WEIGHTED | CUSTOM | UNKNOWN_ALLOCATION.

Inductive StopLossMethod : Type := HARD | SOFT.

Inductive OrderType : Type := LIMIT | CONDITIONAL.

Inductive Side : Type := buy | sell.

Inductive OrderStatus : Type := pending | filled | canceled.

Definition Side_eqb (a b : Side) : bool :=
  match a, b with
  | buy, buy | sell, sell => true
  | _, _ => false
  end.

Definition OrderStatus_eqb (a b : OrderStatus) : bool :=
  match a, b with
  | pending, pending | filled, filled | canceled, canceled => true
  | _, _ => false
  end.

Module InvestmentConfig.
Record t : Type := mk {
    totalInvestment : number;
    assetPair : string;
    leverage : number
  }.
End InvestmentConfig.

(** [numberOfGrids] is a count: it is kept an integer here. *)
Module GridConfig.
Record t : Type := mk {
    numberOfGrids : Z;
    upperBound : number;
    lowerBound : number;
    autoRange : bool;
    distributionMethod : GridDistributionMethod
  }.
End GridConfig.

Module OrderConfig.
Record t : Type := mk {
    allocationMethod : OrderAllocationMethod;
    customAllocationPattern : option (list number);
    orderType : OrderType
  }.
End OrderConfig.

Module BasicStopLossConfig.
Record t : Type := mk {
    enabled : bool;
    percentage : number;
    method : StopLossMethod
  }.
End BasicStopLossConfig.

Module DynamicStopLossConfig.
Record t : Type := mk {
    enabled : bool;
    initialRiskThreshold : number;
    expansionFactor : number;
    maximumExpansion : number
  }.
End DynamicStopLossConfig.

Module TrailingStopLossConfig.
Record t : Type := mk {
    enabled : bool;
    trailingDistance : number;
    activationThreshold : number;
    isDiscrete : bool
  }.
End TrailingStopLossConfig.

Module RiskManagementConfig.
Record t : Type := mk {
    basicStopLoss : BasicStopLossConfig.t;
    dynamicStopLoss : DynamicStopLossConfig.t;
    trailingStopLoss : TrailingStopLossConfig.t
  }.
End RiskManagementConfig.

(** [positionManagement] plays no part in validation and is left out. *)
Module TradingBotConfig.
Record t : Type := mk {
    investment : InvestmentConfig.t;
    grid : GridConfig.t;
    order : OrderConfig.t;
    riskManagement : RiskManagementConfig.t
  }.
End TradingBotConfig.

Module GridOrder.
Record t : Type := mk {
    id : string;
    price : number;
    size : number;
    type : OrderType;
    side : Side;
    status : OrderStatus;
    exchangeOrderId : option string
  }.
End GridOrder.

Module GridLevel.
Record t : Type := mk {
    price : number;
    buyOrder : option GridOrder.t;
    sellOrder : option GridOrder.t;
    isActive : bool
  }.

(** [{ ...level, isActive: b }] *)
Definition with_isActive (b : bool) (level : t) : t :=
    mk (price level) (buyOrder level) (sellOrder level) b.
End GridLevel.

Module TradingState.
Record t : Type := mk {
    currentPrice : number;
    gridLevels : list GridLevel.t;
    activeOrders : list GridOrder.t;
    filledOrders : list GridOrder.t;
    unrealizedPnL : number;
    realizedPnL : number;
    currentStopLossLevel : number
  }.
End TradingState.

Module PerformanceMetrics.
Record t : Type := mk {
    unrealizedPnL : number;
    realizedPnL : number;
    gridUtilizationPercentage : number;
    riskExposure : number;
    currentStopLossLevel : number;
    tradeCount : number;
    successRate : number
  }.
End PerformanceMetrics.

Module HistoricalTrade.
Record t : Type := mk {
    timestamp : number;
    price : number;
    size : number;
    side : Side;
    gridLevel : nat;
    profit : number
  }.
End HistoricalTrade.

(* ===================================================================== *)
(** * GridGenerator (src/core/GridGenerator.ts) *)
(* ===================================================================== *)

Module GridGenerator.
Import GridConfig.

(** [Math.pow] and [Math.exp] return irrational values in general; the
    geometric and the volatility-based grids take them as parameters. *)
Record MathLib : Type := {
  Math_pow : number -> number -> number;
  Math_exp : number -> number
}.

Record t : Type := mk {
  config : GridConfig.t;
  currentPrice : number;
  historicalVolatility : option number
}.

(** [!this.historicalVolatility]: the field is undefined, [0] or [NaN]. *)
Definition volatility_missing (hv : option number) : bool :=
  match hv with
  | None => true
  | Some v => negb (truthy v)
  end.

Definition volatility_value (hv : option number) : number :=
  match hv with
  | Some v => v
  | None => NaN
  end.

Definition with_bounds (upper lower : number) (c : GridConfig.t) : GridConfig.t :=
  GridConfig.mk (numberOfGrids c) upper lower (autoRange c) (distributionMethod c).

Definition calculateAutoRange (g : t) : t :=
  let cp := currentPrice g in
  if volatility_missing (historicalVolatility g) then
    mk (with_bounds (cp * Fin (11 # 10)) (cp * Fin (9 # 10)) (config g))
       cp (historicalVolatility g)
  else
    let hv := volatility_value (historicalVolatility g) in
    mk (with_bounds (cp * (Fin 1 + Fin 2 * hv)) (cp * (Fin 1 - Fin 2 * hv)) (config g))
       cp (historicalVolatility g).

Definition constructor (config : GridConfig.t) (currentPrice : number)
    (historicalVolatility : option number) : t :=
  let g := mk config currentPrice historicalVolatility in
  if autoRange config then calculateAutoRange g else g.

(** A freshly generated level: no order attached. *)
Definition new_level (g : t) (price : number) : GridLevel.t :=
  GridLevel.mk price None None (price !== currentPrice g).

(** The loop counter [i] runs over [0 .. numberOfGrids - 1]. *)
Definition indices (g : t) : list nat :=
  List.seq 0 (Z.to_nat (numberOfGrids (config g))).

Definition generateLinearGrid (g : t) : list GridLevel.t :=
  let upperBound := upperBound (config g) in
  let lowerBound := lowerBound (config g) in
  let step := (upperBound - lowerBound) / (of_Z (numberOfGrids (config g)) - Fin 1) in
  map (fun i => new_level g (lowerBound + step * of_nat i)) (indices g).

Fixpoint arithmetic_loop (g : t) (commonDifference currentLevel : number)
    (counters : list nat) : list GridLevel.t :=
  match counters with
  | [] => []
  | i :: counters' =>
      let nextStepSize := commonDifference * (of_nat i + Fin 1) in
      new_level g currentLevel
        :: arithmetic_loop g commonDifference (currentLevel + nextStepSize) counters'
  end.

Definition generateArithmeticGrid (g : t) : list GridLevel.t :=
  let n := of_Z (numberOfGrids (config g)) in
  let totalDistance := upperBound (config g) - lowerBound (config g) in
  let commonDifference := (Fin 2 * totalDistance) / (n * (n - Fin 1)) in
  arithmetic_loop g commonDifference (lowerBound (config g)) (indices g).

Definition generateGeometricGrid (M : MathLib) (g : t) : list GridLevel.t :=
  let n := of_Z (numberOfGrids (config g)) in
  let commonRatio :=
    Math_pow M (upperBound (config g) / lowerBound (config g)) (Fin 1 / (n - Fin 1)) in
  map (fun i => new_level g (lowerBound (config g) * Math_pow M commonRatio (of_nat i)))
      (indices g).

(** [gridLevels.sort((a, b) => a.price - b.price)], as a stable insertion
    sort: a level is put in front of the first one whose price exceeds its
    own. *)
Fixpoint insert_level (x : GridLevel.t) (l : list GridLevel.t) : list GridLevel.t :=
  match l with
  | [] => [x]
  | y :: l' =>
      if (GridLevel.price x - GridLevel.price y) <? Fin 0
      then x :: y :: l'
      else y :: insert_level x l'
  end.

Definition sort_by_price (l : list GridLevel.t) : list GridLevel.t :=
  fold_left (fun acc x => insert_level x acc) l [].

Definition volatility_price (M : MathLib) (g : t) (i : nat) : number :=
  let n := of_Z (numberOfGrids (config g)) in
  let upperBound := upperBound (config g) in
  let lowerBound := lowerBound (config g) in
  let midPoint := (upperBound + lowerBound) / Fin 2 in
  let range := upperBound - lowerBound in
  let normalizedI := (of_nat i / (n - Fin 1)) * Fin 4 - Fin 2 in
  let volatilityFactor := Math_exp M (neg (normalizedI * normalizedI) / Fin 2) in
  let spacingFactor :=
    Fin 1 - (volatilityFactor * volatility_value (historicalVolatility g)) in
  let position := of_nat i / (n - Fin 1) in
  if position <? Fin (1 # 2) then
    let normalizedPosition := position * Fin 2 in
    midPoint - (range / Fin 2) * (normalizedPosition * spacingFactor)
  else
    let normalizedPosition := (position - Fin (1 # 2)) * Fin 2 in
    midPoint + (range / Fin 2) * (normalizedPosition * spacingFactor).

Definition generateVolatilityBasedGrid (M : MathLib) (g : t) : list GridLevel.t :=
  if volatility_missing (historicalVolatility g) then generateLinearGrid g
  else
    sort_by_price (map (fun i => new_level g (volatility_price M g i)) (indices g)).

Definition generateGridLevels (M : MathLib) (g : t) : list GridLevel.t :=
  match distributionMethod (config g) with
  | LINEAR => generateLinearGrid g
  | ARITHMETIC => generateArithmeticGrid g
  | GEOMETRIC => generateGeometricGrid M g
  | VOLATILITY_BASED => generateVolatilityBasedGrid M g
  | UNKNOWN_DISTRIBUTION => generateLinearGrid g
  end.

(** The search loop of [updateGridLevels], from index 1 on. *)
Fixpoint closest_loop (newPrice : number) (closestLevel : GridLevel.t)
    (minDistance : number) (rest : list GridLevel.t) : GridLevel.t :=
  match rest with
  | [] => closestLevel
  | level :: rest' =>
      let distance := abs (newPrice - GridLevel.price level) in
      if distance <? minDistance
      then closest_loop newPrice level distance rest'
      else closest_loop newPrice closestLevel minDistance rest'
  end.

(** On an empty array [gridLevels[0]] is [undefined] and reading its
    [price] throws a [TypeError]; [this.currentPrice] is assigned before. *)
Definition updateGridLevels (g : t) (gridLevels : list GridLevel.t)
    (newPrice : number) : t * result (list GridLevel.t) :=
  let g' := mk (config g) newPrice (historicalVolatility g) in
  match gridLevels with
  | [] => (g', Throw "TypeError: Cannot read properties of undefined (reading 'price')")
  | first :: rest =>
      let closestLevel :=
        closest_loop newPrice first (abs (newPrice - GridLevel.price first)) rest in
      (g', Ok (map (fun level =>
                      GridLevel.with_isActive
                        (GridLevel.price level !== GridLevel.price closestLevel) level)
                   gridLevels))
  end.

End GridGenerator.

(* ===================================================================== *)
(** * OrderAllocator (src/core/OrderAllocator.ts) *)
(* ===================================================================== *)

Module OrderAllocator.
Import InvestmentConfig OrderConfig.

Record t : Type := mk {
  orderConfig : OrderConfig.t;
  investmentConfig : InvestmentConfig.t
}.

Record OrderSizes : Type := {
  buyOrderSizes : list number;
  sellOrderSizes : list number
}.

(** [array[i]] in an arithmetic expression: [undefined] out of range,
    which arithmetic turns into [NaN]. *)
Definition at_index (l : list number) (i : nat) : number := nth i l NaN.

(** [array.forEach((x, i) => ...)] collecting one value per element. *)
Definition mapi {A B : Type} (f : A -> nat -> B) (l : list A) : list B :=
  map (fun p => f (snd p) (fst p)) (combine (List.seq 0 (length l)) l).

Definition adjustedInvestment (a : t) : number :=
  totalInvestment (investmentConfig a) * leverage (investmentConfig a).

Definition calculateEqualAllocation (a : t) (gridLevels : list GridLevel.t) : OrderSizes :=
  let investmentPerLevel := adjustedInvestment a / of_nat (length gridLevels) in
  let sizes := map (fun level => investmentPerLevel / GridLevel.price level) gridLevels in
  {| buyOrderSizes := sizes; sellOrderSizes := sizes |}.

(** The triangular weight of level [i] among [n]. *)
Definition weight (n i : nat) : number :=
  let distFromCenter := abs ((of_nat i / (of_nat n - Fin 1)) - Fin (1 # 2)) * Fin 2 in
  Fin 1 - distFromCenter.

Definition calculateWeightedAllocation (a : t) (gridLevels : list GridLevel.t) : OrderSizes :=
  let n := length gridLevels in
  let weights := map (weight n) (List.seq 0 n) in
  let weightSum := sum weights in
  let normalizedWeights := map (fun w => w / weightSum) weights in
  let sizes :=
    mapi (fun level i =>
            let investmentForLevel := adjustedInvestment a * at_index normalizedWeights i in
            investmentForLevel / GridLevel.price level)
         gridLevels in
  {| buyOrderSizes := sizes; sellOrderSizes := sizes |}.

Definition calculateCustomAllocation (a : t) (gridLevels : list GridLevel.t) : OrderSizes :=
  match customAllocationPattern (orderConfig a) with
  | None => calculateEqualAllocation a gridLevels
  | Some pattern =>
      if negb (Nat.eqb (length pattern) (length gridLevels))
      then calculateEqualAllocation a gridLevels
      else
        let patternSum := sum pattern in
        let normalizedPattern := map (fun val => val / patternSum) pattern in
        let sizes :=
          mapi (fun level i =>
                  let investmentForLevel :=
                    adjustedInvestment a * at_index normalizedPattern i in
                  investmentForLevel / GridLevel.price level)
               gridLevels in
        {| buyOrderSizes := sizes; sellOrderSizes := sizes |}
  end.

Definition calculateOrderSizes (a : t) (gridLevels : list GridLevel.t) : OrderSizes :=
  match allocationMethod (orderConfig a) with
  | EQUAL => calculateEqualAllocation a gridLevels
  | WEIGHTED => calculateWeightedAllocation a gridLevels
  | CUSTOM => calculateCustomAllocation a gridLevels
  | UNKNOWN_ALLOCATION => calculateEqualAllocation a gridLevels
  end.

(** ** Orders for the levels *)

(** [uuidv4()]: a source of identifiers, over a state [U] of the
    generator. *)
Class IdSource (U : Type) : Type := {
  uuidv4 : U -> string * U
}.

Section Orders.
Context {U : Type} `{IdSource U}.

(** The order built for a level by [generateGridOrders]. *)
Definition grid_order (a : t) (id : string) (level : GridLevel.t) (size : number)
    (side : Side) : GridOrder.t :=
  GridOrder.mk id (GridLevel.price level) size (orderType (orderConfig a)) side pending None.

(** The callback of [gridLevels.map] in [generateGridOrders].  The sizes
    are as many as the levels, so that [sizes[index]] is always defined. *)
Definition order_level (a : t) (currentPrice : number)
    (buyOrderSizes sellOrderSizes : list number)
    (level : GridLevel.t) (index : nat) (u : U) : GridLevel.t * U :=
  if negb (GridLevel.isActive level) then (level, u)
  else
    let (buyOrder, u1) :=
      if GridLevel.price level <? currentPrice then
        let (id, u') := uuidv4 u in
        (Some (grid_order a id level (nth index buyOrderSizes NaN) buy), u')
      else (GridLevel.buyOrder level, u) in
    let (sellOrder, u2) :=
      if GridLevel.price level >? currentPrice then
        let (id, u') := uuidv4 u1 in
        (Some (grid_order a id level (nth index sellOrderSizes NaN) sell), u')
      else (GridLevel.sellOrder level, u1) in
    (GridLevel.mk (GridLevel.price level) buyOrder sellOrder (GridLevel.isActive level), u2).

(** [gridLevels.map((level, index) => ...)], the callback drawing
    identifiers as it goes. *)
Fixpoint order_levels (a : t) (currentPrice : number)
    (buyOrderSizes sellOrderSizes : list number)
    (gridLevels : list GridLevel.t) (index : nat) (u : U) : list GridLevel.t * U :=
  match gridLevels with
  | [] => ([], u)
  | level :: rest =>
      let (updatedLevel, u1) :=
        order_level a currentPrice buyOrderSizes sellOrderSizes level index u in
      let (updatedRest, u2) :=
        order_levels a currentPrice buyOrderSizes sellOrderSizes rest (S index) u1 in
      (updatedLevel :: updatedRest, u2)
  end.

Definition generateGridOrders (a : t) (gridLevels : list GridLevel.t)
    (currentPrice : number) (u : U) : list GridLevel.t * U :=
  let sizes := calculateOrderSizes a gridLevels in
  order_levels a currentPrice (buyOrderSizes sizes) (sellOrderSizes sizes) gridLevels 0 u.

Definition generateOppositeOrder (a : t) (filledOrder : GridOrder.t)
    (gridLevel : GridLevel.t) (u : U) : GridOrder.t * U :=
  let oppositeSide := match GridOrder.side filledOrder with buy => sell | sell => buy end in
  let (id, u') := uuidv4 u in
  (GridOrder.mk id (GridLevel.price gridLevel) (GridOrder.size filledOrder)
     (orderType (orderConfig a)) oppositeSide pending None, u').

End Orders.

End OrderAllocator.

(* ===================================================================== *)
(** * Array and Set idioms *)
(* ===================================================================== *)

Module JsArray.

(** [array.sort(cmp)], as a stable insertion sort: an element is put in
    front of the first one that [cmp] orders after it. *)
Fixpoint insert_by {A} (cmp : A -> A -> number) (x : A) (l : list A) : list A :=
  match l with
  | [] => [x]
  | y :: l' => if cmp x y <? Fin 0 then x :: y :: l' else y :: insert_by cmp x l'
  end.

Definition sort_by {A} (cmp : A -> A -> number) (l : list A) : list A :=
  fold_left (fun acc x => insert_by cmp x acc) l [].

(** [array.slice(-k)]: the last [k] elements, the whole array when it has
    fewer. *)
Definition slice_last {A} (k : nat) (l : list A) : list A :=
  skipn (length l - k) l.

(** The equality of [Set.prototype.has] on numbers (SameValueZero): that
    of [===], except that [NaN] equals [NaN]. *)
Definition same_value_zero (x y : number) : bool :=
  match x, y with
  | NaN, NaN => true
  | _, _ => x === y
  end.

(** [new Set(values).has(x)] *)
Definition set_has (values : list number) (x : number) : bool :=
  existsb (same_value_zero x) values.

(** [Math.ceil(n / 2)] for an array length [n] *)
Definition ceil_half (n : nat) : nat := Nat.div (n + 1) 2.

End JsArray.

(* ===================================================================== *)
(** * RiskManager (src/risk-management/RiskManager.ts) *)
(* ===================================================================== *)

Module RiskManager.
Import RiskManagementConfig.

(** [stopLossPrice] and [trailingStopPrice] are [number | null]. *)
Record t : Type := mk {
  config : RiskManagementConfig.t;
  initialPrice : number;
  stopLossPrice : option number;
  trailingStopPrice : option number;
  currentProfit : number
}.

Definition calculateBasicStopLossPrice (cfg : RiskManagementConfig.t)
    (currentPrice : number) : number :=
  currentPrice * (Fin 1 - BasicStopLossConfig.percentage (basicStopLoss cfg) / Fin 100).

Definition constructor (cfg : RiskManagementConfig.t) (initialPrice : number) : t :=
  mk cfg initialPrice
     (if BasicStopLossConfig.enabled (basicStopLoss cfg)
      then Some (calculateBasicStopLossPrice cfg initialPrice)
      else None)
     None (Fin 0).

Definition calculateDynamicStopLossPrice (cfg : RiskManagementConfig.t)
    (currentPrice currentProfit : number) : number :=
  if negb (DynamicStopLossConfig.enabled (dynamicStopLoss cfg))
  then calculateBasicStopLossPrice cfg currentPrice
  else
    let initialThreshold := DynamicStopLossConfig.initialRiskThreshold (dynamicStopLoss cfg) in
    let expansionFactor := DynamicStopLossConfig.expansionFactor (dynamicStopLoss cfg) in
    let maxExpansion := DynamicStopLossConfig.maximumExpansion (dynamicStopLoss cfg) in
    let profitExpansion := min (currentProfit * expansionFactor) maxExpansion in
    let dynamicStopLossPercentage := initialThreshold + profitExpansion in
    currentPrice * (Fin 1 - dynamicStopLossPercentage / Fin 100).

(** The quantity [updateTrailingStopLoss] compares with the activation
    threshold: the gain of the current price over the initial price, in
    percent. *)
Definition profitPercentage (r : t) (currentPrice : number) : number :=
  ((currentPrice / initialPrice r) - Fin 1) * Fin 100.

Definition updateTrailingStopLoss (currentPrice : number) (r : t) : t :=
  let activationThreshold :=
    TrailingStopLossConfig.activationThreshold (trailingStopLoss (config r)) in
  let trailingDistance :=
    TrailingStopLossConfig.trailingDistance (trailingStopLoss (config r)) in
  let trailing :=
    if profitPercentage r currentPrice >=? activationThreshold then
      let newTrailingStop := currentPrice * (Fin 1 - trailingDistance / Fin 100) in
      match trailingStopPrice r with
      | None => Some newTrailingStop
      | Some old => if newTrailingStop >? old then Some newTrailingStop else Some old
      end
    else trailingStopPrice r in
  let stop :=
    match trailing with
    | Some ts =>
        match stopLossPrice r with
        | None => Some ts
        | Some sl => if ts >? sl then Some ts else Some sl
        end
    | None => stopLossPrice r
    end in
  mk (config r) (initialPrice r) stop trailing (currentProfit r).

Definition with_stopLossPrice (p : option number) (r : t) : t :=
  mk (config r) (initialPrice r) p (trailingStopPrice r) (currentProfit r).

Definition updateStopLoss (r : t) (tradingState : TradingState.t) : option number * t :=
  let currentPrice := TradingState.currentPrice tradingState in
  let r0 :=
    mk (config r) (initialPrice r) (stopLossPrice r) (trailingStopPrice r)
       (TradingState.unrealizedPnL tradingState + TradingState.realizedPnL tradingState) in
  let r1 :=
    if BasicStopLossConfig.enabled (basicStopLoss (config r0))
    then with_stopLossPrice (Some (calculateBasicStopLossPrice (config r0) currentPrice)) r0
    else r0 in
  let r2 :=
    if DynamicStopLossConfig.enabled (dynamicStopLoss (config r1))
    then with_stopLossPrice
           (Some (calculateDynamicStopLossPrice (config r1) currentPrice (currentProfit r1))) r1
    else r1 in
  let r3 :=
    if TrailingStopLossConfig.enabled (trailingStopLoss (config r2))
    then updateTrailingStopLoss currentPrice r2
    else r2 in
  (stopLossPrice r3, r3).

Definition isStopLossTriggered (r : t) (currentPrice : number) : bool :=
  match stopLossPrice r with
  | None => false
  | Some sl => currentPrice <=? sl
  end.

(** ** Executing the stop loss *)

Record StopLossResult : Type := {
  updatedGridLevels : list GridLevel.t;
  closedOrders : list GridOrder.t
}.

(** [{ ...level, isActive: false, buyOrder: undefined, sellOrder: undefined }] *)
Definition close_level (level : GridLevel.t) : GridLevel.t :=
  GridLevel.mk (GridLevel.price level) None None false.

Definition executeHardStopLoss (tradingState : TradingState.t) : StopLossResult :=
  {| updatedGridLevels := map close_level (TradingState.gridLevels tradingState);
     closedOrders := TradingState.activeOrders tradingState |}.

(** [Math.abs(level.price - currentPrice)] *)
Definition away (currentPrice : number) (level : GridLevel.t) : number :=
  abs (GridLevel.price level - currentPrice).

(** The comparator of the sort: furthest first. *)
Definition furthest_first (currentPrice : number) (a b : GridLevel.t) : number :=
  let distA := away currentPrice a in
  let distB := away currentPrice b in
  distB - distA.

(** [levelIdsToClose]: the prices of the furthest half of the levels. *)
Definition levelIdsToClose (tradingState : TradingState.t) : list number :=
  let currentPrice := TradingState.currentPrice tradingState in
  let sortedLevels :=
    JsArray.sort_by (furthest_first currentPrice) (TradingState.gridLevels tradingState) in
  let closureCount := JsArray.ceil_half (length sortedLevels) in
  let levelsToClose := firstn closureCount sortedLevels in
  map GridLevel.price levelsToClose.

(** [o?.id === id] *)
Definition order_is (id : string) (o : option GridOrder.t) : bool :=
  match o with
  | Some x => String.eqb (GridOrder.id x) id
  | None => false
  end.

Definition executeSoftStopLoss (tradingState : TradingState.t) : StopLossResult :=
  let ids := levelIdsToClose tradingState in
  {| updatedGridLevels :=
       map (fun level =>
              if JsArray.set_has ids (GridLevel.price level)
              then close_level level
              else level)
           (TradingState.gridLevels tradingState);
     closedOrders :=
       filter (fun order =>
                 match find (fun level =>
                               order_is (GridOrder.id order) (GridLevel.buyOrder level)
                               || order_is (GridOrder.id order) (GridLevel.sellOrder level))
                            (TradingState.gridLevels tradingState) with
                 | Some gridLevel => JsArray.set_has ids (GridLevel.price gridLevel)
                 | None => false
                 end)
              (TradingState.activeOrders tradingState) |}.

Definition executeStopLoss (r : t) (tradingState : TradingState.t) : StopLossResult :=
  match BasicStopLossConfig.method (basicStopLoss (config r)) with
  | HARD => executeHardStopLoss tradingState
  | SOFT => executeSoftStopLoss tradingState
  end.

(** ** Reversal detection *)

Definition calculateAverage (values : list number) : number :=
  if Nat.eqb (length values) 0 then Fin 0
  else sum values / of_nat (length values).

(** [array[i]], compared or subtracted: [undefined] out of range behaves
    as [NaN] there. *)
Definition sample (l : list number) (i : nat) : number := nth i l NaN.

Definition detectReversal (priceHistory : list number) : bool :=
  if Nat.ltb (length priceHistory) 10 then false
  else
    let shortTermAvg := calculateAverage (JsArray.slice_last 5 priceHistory) in
    let mediumTermAvg := calculateAverage (JsArray.slice_last 10 priceHistory) in
    let recentPrices := JsArray.slice_last 3 priceHistory in
    let momentum :=
      sample recentPrices (length recentPrices - 1) - sample recentPrices 0 in
    let shortTermHigher := shortTermAvg >? mediumTermAvg in
    let significantMomentum := abs momentum >? (mediumTermAvg * Fin (1 # 50)) in
    let currentPrice := sample priceHistory (length priceHistory - 1) in
    let priorPrice := sample priceHistory (length priceHistory - 2) in
    let priceDirectionChanged :=
      ((currentPrice >? priorPrice) && (momentum <? Fin 0))
      || ((currentPrice <? priorPrice) && (momentum >? Fin 0)) in
    shortTermHigher && significantMomentum && priceDirectionChanged.

End RiskManager.

(* ===================================================================== *)
(** * Configuration (src/config/defaultConfig.ts) *)
(* ===================================================================== *)

Module Config.
Import TradingBotConfig RiskManagementConfig.

(** [if (cond) { throw new Error(message); }] followed by the rest of the
    function. *)
Definition throw_if (cond : bool) (message : string) (rest : result unit) : result unit :=
  if cond then Throw message else rest.

Notation "'throw_when' c 'saying' m ';;' k" := (throw_if c m k)
  (at level 10, c at level 99, m at level 0, k at level 200).

(** [!pattern || pattern.length === 0] *)
Definition pattern_missing (p : option (list number)) : bool :=
  match p with
  | None => true
  | Some l => Nat.eqb (length l) 0
  end.

Definition pattern_length (p : option (list number)) : Z :=
  match p with
  | None => 0
  | Some l => Z.of_nat (length l)
  end.

Definition is_custom (m : OrderAllocationMethod) : bool :=
  match m with CUSTOM => true | _ => false end.

Definition validateConfig (config : TradingBotConfig.t) : result unit :=
  let g := grid config in
  let basic := basicStopLoss (riskManagement config) in
  let dynamic := dynamicStopLoss (riskManagement config) in
  let trailing := trailingStopLoss (riskManagement config) in
  throw_when (GridConfig.numberOfGrids g <? 5)%Z
    saying "Number of grids must be at least 5" ;;
  throw_when (GridConfig.numberOfGrids g >? 200)%Z
    saying "Number of grids cannot exceed 200" ;;
  throw_when InvestmentConfig.leverage (investment config) <? Fin 1
    saying "Leverage must be at least 1x" ;;
  throw_when InvestmentConfig.leverage (investment config) >? Fin 100
    saying "Leverage cannot exceed 100x" ;;
  throw_when negb (GridConfig.autoRange g)
             && (GridConfig.upperBound g <=? GridConfig.lowerBound g)
    saying "Upper bound must be greater than lower bound" ;;
  throw_when negb (GridConfig.autoRange g) && (GridConfig.lowerBound g <=? Fin 0)
    saying "Lower bound must be greater than 0" ;;
  throw_when is_custom (OrderConfig.allocationMethod (order config))
             && pattern_missing (OrderConfig.customAllocationPattern (order config))
    saying "Custom allocation method requires a customAllocationPattern" ;;
  throw_when is_custom (OrderConfig.allocationMethod (order config))
             && negb (Z.eqb (pattern_length (OrderConfig.customAllocationPattern (order config)))
                            (GridConfig.numberOfGrids g))
    saying "Custom allocation pattern length must match the number of grids" ;;
  throw_when BasicStopLossConfig.enabled basic
             && (BasicStopLossConfig.percentage basic <=? Fin 0)
    saying "Stop loss percentage must be greater than 0" ;;
  throw_when DynamicStopLossConfig.enabled dynamic
             && (DynamicStopLossConfig.initialRiskThreshold dynamic <=? Fin 0)
    saying "Initial risk threshold must be greater than 0" ;;
  throw_when DynamicStopLossConfig.enabled dynamic
             && (DynamicStopLossConfig.expansionFactor dynamic <=? Fin 0)
    saying "Expansion factor must be greater than 0" ;;
  throw_when DynamicStopLossConfig.enabled dynamic
             && (DynamicStopLossConfig.maximumExpansion dynamic <=? Fin 0)
    saying "Maximum expansion must be greater than 0" ;;
  throw_when TrailingStopLossConfig.enabled trailing
             && (TrailingStopLossConfig.trailingDistance trailing <=? Fin 0)
    saying "Trailing distance must be greater than 0" ;;
  throw_when TrailingStopLossConfig.enabled trailing
             && (TrailingStopLossConfig.activationThreshold trailing <? Fin 0)
    saying "Activation threshold must be greater than or equal to 0" ;;
  Ok tt.

(** The messages of the checks that come before the stop-loss checks. *)
Definition structural_errors : list string :=
  [ "Number of grids must be at least 5";
    "Number of grids cannot exceed 200";
    "Leverage must be at least 1x";
    "Leverage cannot exceed 100x";
    "Upper bound must be greater than lower bound";
    "Lower bound must be greater than 0";
    "Custom allocation method requires a customAllocationPattern";
    "Custom allocation pattern length must match the number of grids" ]%string.

(** [defaultConfig], without its [positionManagement] part. *)
Definition defaultConfig : TradingBotConfig.t :=
  TradingBotConfig.mk
    (InvestmentConfig.mk (Fin 10000) "BTC/USD" (Fin 1))
    (GridConfig.mk 20 (Fin 0) (Fin 0) true LINEAR)
    (OrderConfig.mk EQUAL None LIMIT)
    (RiskManagementConfig.mk
       (BasicStopLossConfig.mk true (Fin 5) HARD)
       (DynamicStopLossConfig.mk true (Fin 3) (Fin (1 # 2)) (Fin 10))
       (TrailingStopLossConfig.mk true (Fin 2) (Fin 1) false)).

End Config.

(* ===================================================================== *)
(** * Effects: the exchange, the logger and exceptions *)
(* ===================================================================== *)

Module Effects.

Inductive LogLevel : Type := info | warn | error.

(** A line written by [logger]: its level and the text of the source, the
    interpolated values left as they are written there. *)
Record LogEntry : Type := { level : LogLevel; text : string }.

Record OrderRequest : Type := {
  req_price : number;
  req_size : number;
  req_side : Side;
  req_type : OrderType
}.

(** The [ExchangeConnector] as the engine sees it, over a state [X] of the
    outside world: every call may throw and may change that state.
    [Date_now] is the clock. *)
Class ExchangeConnector (X : Type) : Type := {
  getCurrentPrice : X -> result number * X;
  placeOrder : OrderRequest -> X -> result string * X;
  getOrderStatus : string -> X -> result OrderStatus * X;
  cancelOrder : string -> X -> result unit * X;
  Date_now : X -> number * X
}.

(** What lies outside the objects of the program. *)
Record World (X : Type) : Type := mkWorld {
  exchange : X;
  logged : list LogEntry
}.

(** A method of an object of state [S]: it runs in a world, returns or
    throws, and leaves both the object and the world changed.  What was
    assigned before a [throw] stays assigned. *)
Definition M (X S A : Type) : Type := S -> World X -> result A * S * World X.

Section Monad.
Context {X S : Type}.

Definition ret {A} (a : A) : M X S A := fun s w => (Ok a, s, w).

Definition bind {A B} (m : M X S A) (k : A -> M X S B) : M X S B :=
  fun s w =>
    match m s w with
    | (Ok a, s', w') => k a s' w'
    | (Throw e, s', w') => (Throw e, s', w')
    end.

Definition throw {A} (e : string) : M X S A := fun s w => (Throw e, s, w).

(** [try { body } catch (error) { handler }] *)
Definition try_catch {A} (body : M X S A) (handler : string -> M X S A) : M X S A :=
  fun s w =>
    match body s w with
    | (Ok a, s', w') => (Ok a, s', w')
    | (Throw e, s', w') => handler e s' w'
    end.

Definition get : M X S S := fun s w => (Ok s, s, w).
Definition modify (f : S -> S) : M X S unit := fun s w => (Ok tt, f s, w).

Definition logger (l : LogLevel) (msg : string) : M X S unit :=
  fun s w => (Ok tt, s, mkWorld (exchange w) (logged w ++ [{| level := l; text := msg |}])).

(** A call of the exchange connector. *)
Definition call {A} (f : X -> result A * X) : M X S A :=
  fun s w => let (r, x') := f (exchange w) in (r, s, mkWorld x' (logged w)).

Definition now `{ExchangeConnector X} : M X S number :=
  call (fun x => let (t, x') := Date_now x in (Ok t, x')).

End Monad.

Notation "x <- m ;; k" := (bind m (fun x => k))
  (at level 61, m at next level, right associativity).
Notation "m ;; k" := (bind m (fun _ => k))
  (at level 61, right associativity).

(** [for (const x of xs) { body }] *)
Fixpoint for_of {X S A} (xs : list A) (body : A -> M X S unit) : M X S unit :=
  match xs with
  | [] => ret tt
  | x :: xs' => body x ;; for_of xs' body
  end.

(** A loop whose body appends to a local array: the array it has built. *)
Fixpoint for_collect {X S A B} (xs : list A) (body : A -> M X S (list B))
    : M X S (list B) :=
  match xs with
  | [] => ret []
  | x :: xs' =>
      ys <- body x ;;
      rest <- for_collect xs' body ;;
      ret (ys ++ rest)
  end.

End Effects.

(* ===================================================================== *)
(** * ExecutionEngine (src/execution/ExecutionEngine.ts) *)
(* ===================================================================== *)

Module ExecutionEngine.
Import Effects.

Record t : Type := mk {
  tradingState : TradingState.t;
  historicalTrades : list HistoricalTrade.t;
  priceHistory : list number;
  latestPerformanceMetrics : PerformanceMetrics.t
}.

Definition constructor (initialState : TradingState.t) : t :=
  mk initialState [] []
     (PerformanceMetrics.mk (Fin 0) (Fin 0) (Fin 0) (Fin 0) (Fin 0) (Fin 0) (Fin 0)).

(** ** Assignments to the fields *)

Definition with_tradingState (f : TradingState.t -> TradingState.t) (e : t) : t :=
  mk (f (tradingState e)) (historicalTrades e) (priceHistory e) (latestPerformanceMetrics e).

Definition set_currentPrice (p : number) (s : TradingState.t) : TradingState.t :=
  TradingState.mk p (TradingState.gridLevels s) (TradingState.activeOrders s)
    (TradingState.filledOrders s) (TradingState.unrealizedPnL s)
    (TradingState.realizedPnL s) (TradingState.currentStopLossLevel s).

Definition set_gridLevels (l : list GridLevel.t) (s : TradingState.t) : TradingState.t :=
  TradingState.mk (TradingState.currentPrice s) l (TradingState.activeOrders s)
    (TradingState.filledOrders s) (TradingState.unrealizedPnL s)
    (TradingState.realizedPnL s) (TradingState.currentStopLossLevel s).

Definition set_activeOrders (l : list GridOrder.t) (s : TradingState.t) : TradingState.t :=
  TradingState.mk (TradingState.currentPrice s) (TradingState.gridLevels s) l
    (TradingState.filledOrders s) (TradingState.unrealizedPnL s)
    (TradingState.realizedPnL s) (TradingState.currentStopLossLevel s).

Definition set_filledOrders (l : list GridOrder.t) (s : TradingState.t) : TradingState.t :=
  TradingState.mk (TradingState.currentPrice s) (TradingState.gridLevels s)
    (TradingState.activeOrders s) l (TradingState.unrealizedPnL s)
    (TradingState.realizedPnL s) (TradingState.currentStopLossLevel s).

Definition set_unrealizedPnL (v : number) (s : TradingState.t) : TradingState.t :=
  TradingState.mk (TradingState.currentPrice s) (TradingState.gridLevels s)
    (TradingState.activeOrders s) (TradingState.filledOrders s) v
    (TradingState.realizedPnL s) (TradingState.currentStopLossLevel s).

Definition set_realizedPnL (v : number) (s : TradingState.t) : TradingState.t :=
  TradingState.mk (TradingState.currentPrice s) (TradingState.gridLevels s)
    (TradingState.activeOrders s) (TradingState.filledOrders s)
    (TradingState.unrealizedPnL s) v (TradingState.currentStopLossLevel s).

Definition push_price (p : number) (e : t) : t :=
  mk (tradingState e) (historicalTrades e) (priceHistory e ++ [p]) (latestPerformanceMetrics e).

Definition push_trade (tr : HistoricalTrade.t) (e : t) : t :=
  mk (tradingState e) (historicalTrades e ++ [tr]) (priceHistory e) (latestPerformanceMetrics e).

Definition set_metrics (m : PerformanceMetrics.t) (e : t) : t :=
  mk (tradingState e) (historicalTrades e) (priceHistory e) m.

(** ** Helpers for the array and optional-field idioms *)

(** [order.exchangeOrderId] used as a condition: the identifier when it is
    defined and not the empty string. *)
Definition exchange_id (order : GridOrder.t) : option string :=
  match GridOrder.exchangeOrderId order with
  | Some s => if String.eqb s "" then None else Some s
  | None => None
  end.

(** [o && o.status === 'pending'] *)
Definition pending_order (o : option GridOrder.t) : option GridOrder.t :=
  match o with
  | Some x => if OrderStatus_eqb (GridOrder.status x) pending then Some x else None
  | None => None
  end.

(** [o?.id === id] *)
Definition has_id (id : string) (o : option GridOrder.t) : bool :=
  match o with
  | Some x => String.eqb (GridOrder.id x) id
  | None => false
  end.

(** [orders.some(o => o.id === order.id)] *)
Definition some_id (orders : list GridOrder.t) (order : GridOrder.t) : bool :=
  existsb (fun o => String.eqb (GridOrder.id o) (GridOrder.id order)) orders.

(** [gridLevels.findIndex(level => level.buyOrder?.id === id ||
    level.sellOrder?.id === id)], with the level found. *)
Fixpoint find_level (id : string) (i : nat) (levels : list GridLevel.t)
    : option (nat * GridLevel.t) :=
  match levels with
  | [] => None
  | level :: rest =>
      if has_id id (GridLevel.buyOrder level) || has_id id (GridLevel.sellOrder level)
      then Some (i, level)
      else find_level id (S i) rest
  end.

(** [array[i] = v] for [i] inside the array *)
Fixpoint update_at {A} (i : nat) (v : A) (l : list A) : list A :=
  match l, i with
  | [], _ => []
  | _ :: rest, O => v :: rest
  | x :: rest, S i' => x :: update_at i' v rest
  end.

(** [array[array.length - 1]] *)
Definition last_of {A} (l : list A) : option A := nth_error l (length l - 1).

(** [filledOrders.filter(o => o.price === order.price && o.side !== order.side)] *)
Definition oppositeOrders (ledger : list GridOrder.t) (order : GridOrder.t)
    : list GridOrder.t :=
  filter (fun o => (GridOrder.price o === GridOrder.price order)
                   && negb (Side_eqb (GridOrder.side o) (GridOrder.side order)))
         ledger.

Definition oppositeSide (s : Side) : Side :=
  match s with buy => sell | sell => buy end.

(** ** Pure parts *)

(** The body of the loop of [calculateRealizedPnL] for one filled order,
    [acc] being [newRealizedPnL]. *)
Definition realized_step (ledger : list GridOrder.t) (acc : number)
    (filledOrder : GridOrder.t) : number :=
  match last_of (oppositeOrders ledger filledOrder) with
  | None => acc
  | Some oppositeOrder =>
      match GridOrder.side filledOrder, GridOrder.side oppositeOrder with
      | sell, buy =>
          acc + (GridOrder.price filledOrder - GridOrder.price oppositeOrder)
                * GridOrder.size filledOrder
      | buy, sell =>
          acc + (GridOrder.price oppositeOrder - GridOrder.price filledOrder)
                * GridOrder.size filledOrder
      | _, _ => acc
      end
  end.

Definition calculateRealizedPnL (filledOrders : list GridOrder.t) (e : t) : t :=
  let ledger := TradingState.filledOrders (tradingState e) in
  let newRealizedPnL := fold_left (realized_step ledger) filledOrders (Fin 0) in
  with_tradingState
    (fun s => set_realizedPnL (TradingState.realizedPnL s + newRealizedPnL) s) e.

(** The [profit] that [recordTrade] computes. *)
Definition trade_profit (ledger : list GridOrder.t) (order : GridOrder.t) : number :=
  match last_of (oppositeOrders ledger order) with
  | None => Fin 0
  | Some oppositeOrder =>
      match GridOrder.side order with
      | sell => (GridOrder.price order - GridOrder.price oppositeOrder) * GridOrder.size order
      | buy => (GridOrder.price oppositeOrder - GridOrder.price order) * GridOrder.size order
      end
  end.

Definition unrealized_step (currentPrice : number) (acc : number) (order : GridOrder.t)
    : number :=
  if negb (OrderStatus_eqb (GridOrder.status order) pending) then acc
  else
    match GridOrder.side order with
    | buy => acc + (currentPrice - GridOrder.price order) * GridOrder.size order
    | sell => acc + (GridOrder.price order - currentPrice) * GridOrder.size order
    end.

Definition calculateUnrealizedPnL (e : t) : t :=
  let s := tradingState e in
  with_tradingState
    (set_unrealizedPnL
       (fold_left (unrealized_step (TradingState.currentPrice s))
                  (TradingState.activeOrders s) (Fin 0))) e.

Definition updatePerformanceMetrics (e0 : t) : t :=
  let e := calculateUnrealizedPnL e0 in
  let s := tradingState e in
  let activeGrids := length (filter GridLevel.isActive (TradingState.gridLevels s)) in
  let totalGrids := length (TradingState.gridLevels s) in
  let gridUtilization := (of_nat activeGrids / of_nat totalGrids) * Fin 100 in
  let totalInvested :=
    fold_left (fun sum order => sum + GridOrder.price order * GridOrder.size order)
              (TradingState.activeOrders s) (Fin 0) in
  let totalTrades := length (historicalTrades e) in
  let profitableTrades :=
    length (filter (fun trade => HistoricalTrade.profit trade >? Fin 0) (historicalTrades e)) in
  let successRate :=
    if Nat.ltb 0 totalTrades
    then (of_nat profitableTrades / of_nat totalTrades) * Fin 100
    else Fin 0 in
  set_metrics
    (PerformanceMetrics.mk (TradingState.unrealizedPnL s) (TradingState.realizedPnL s)
       gridUtilization totalInvested (TradingState.currentStopLossLevel s)
       (of_nat totalTrades) successRate) e.

(** ** Methods that talk to the exchange *)

Section Methods.
Context {X : Type} `{ExchangeConnector X}.

Definition placeOrder (order : GridOrder.t) : M X t GridOrder.t :=
  try_catch
    (exchangeOrderId <-
       call (Effects.placeOrder
               {| req_price := GridOrder.price order;
                  req_size := GridOrder.size order;
                  req_side := GridOrder.side order;
                  req_type := GridOrder.type order |}) ;;
     logger info "Placed ${order.side} order of ${order.size} at price ${order.price}" ;;
     ret (GridOrder.mk (GridOrder.id order) (GridOrder.price order) (GridOrder.size order)
            (GridOrder.type order) (GridOrder.side order) pending (Some exchangeOrderId)))
    (fun error =>
       logger Effects.error "Failed to place ${order.side} order at price ${order.price}" ;;
       throw error).

(** [if (o && o.status === 'pending') { placedOrders.push(await this.placeOrder(o)); }]:
    what is pushed. *)
Definition place_if_pending (o : option GridOrder.t) : M X t (list GridOrder.t) :=
  match pending_order o with
  | Some order => placed <- placeOrder order ;; ret [placed]
  | None => ret []
  end.

(** The body of the loop of [placeGridOrders] for one level: the orders it
    pushes on [placedOrders].  A buy order placed before the sell order
    fails stays pushed. *)
Definition place_level (level : GridLevel.t) : M X t (list GridOrder.t) :=
  if negb (GridLevel.isActive level) then ret []
  else
    try_catch
      (placedBuy <- place_if_pending (GridLevel.buyOrder level) ;;
       try_catch
         (placedSell <- place_if_pending (GridLevel.sellOrder level) ;;
          ret (placedBuy ++ placedSell))
         (fun error =>
            logger Effects.error "Failed to place orders for grid level ${level.price}" ;;
            ret placedBuy))
      (fun error =>
         logger Effects.error "Failed to place orders for grid level ${level.price}" ;;
         ret []).

Definition placeGridOrders : M X t unit :=
  e <- get ;;
  placedOrders <- for_collect (TradingState.gridLevels (tradingState e)) place_level ;;
  modify (with_tradingState (fun s =>
    set_activeOrders
      (filter (fun order => negb (some_id placedOrders order)) (TradingState.activeOrders s)
       ++ placedOrders) s)) ;;
  logger info "Placed ${placedOrders.length} grid orders".

Definition initialize : M X t unit :=
  try_catch
    (logger info "Initializing execution engine" ;;
     currentPrice <- call getCurrentPrice ;;
     modify (with_tradingState (set_currentPrice currentPrice)) ;;
     modify (push_price currentPrice) ;;
     placeGridOrders ;;
     modify updatePerformanceMetrics ;;
     logger info "Execution engine initialized successfully")
    (fun error =>
       logger Effects.error "Failed to initialize execution engine" ;;
       throw error).

Definition with_status (st : OrderStatus) (o : GridOrder.t) : GridOrder.t :=
  GridOrder.mk (GridOrder.id o) (GridOrder.price o) (GridOrder.size o) (GridOrder.type o)
    (GridOrder.side o) st (GridOrder.exchangeOrderId o).

(** The body of the loop of [checkOrderFills]: what it pushes on
    [filledOrders]. *)
Definition check_fill (order : GridOrder.t) : M X t (list GridOrder.t) :=
  match exchange_id order with
  | None => ret []
  | Some exchangeOrderId =>
      try_catch
        (orderStatus <- call (getOrderStatus exchangeOrderId) ;;
         if OrderStatus_eqb orderStatus filled then
           logger info "Order filled: ${order.side} ${order.size} at price ${order.price}" ;;
           ret [with_status filled order]
         else ret [])
        (fun error =>
           logger Effects.error "Failed to check status for order ${order.id}" ;;
           ret [])
  end.

Definition checkOrderFills : M X t (list GridOrder.t) :=
  e <- get ;;
  for_collect (TradingState.activeOrders (tradingState e)) check_fill.

Definition recordTrade (order : GridOrder.t) (gridLevelIndex : nat) : M X t unit :=
  e <- get ;;
  let profit := trade_profit (TradingState.filledOrders (tradingState e)) order in
  timestamp <- now ;;
  modify (push_trade
            (HistoricalTrade.mk timestamp (GridOrder.price order) (GridOrder.size order)
               (GridOrder.side order) gridLevelIndex profit)).

(** The body of the second loop of [processFilledOrders]: what it pushes
    on [newOrders]. *)
Definition replace_filled (filledOrder : GridOrder.t) : M X t (list GridOrder.t) :=
  e <- get ;;
  match find_level (GridOrder.id filledOrder) 0 (TradingState.gridLevels (tradingState e)) with
  | None => ret []
  | Some (gridLevelIndex, gridLevel) =>
      try_catch
        (let side' := oppositeSide (GridOrder.side filledOrder) in
         let newOrder :=
           GridOrder.mk (GridOrder.id filledOrder ++ "-opposite")%string
             (GridLevel.price gridLevel) (GridOrder.size filledOrder)
             (GridOrder.type filledOrder) side' pending None in
         placedOrder <- placeOrder newOrder ;;
         let updatedGridLevel :=
           match side' with
           | buy => GridLevel.mk (GridLevel.price gridLevel) (Some placedOrder) None
                      (GridLevel.isActive gridLevel)
           | sell => GridLevel.mk (GridLevel.price gridLevel) None (Some placedOrder)
                       (GridLevel.isActive gridLevel)
           end in
         modify (with_tradingState (fun s =>
           set_gridLevels
             (update_at gridLevelIndex updatedGridLevel (TradingState.gridLevels s)) s)) ;;
         recordTrade filledOrder gridLevelIndex ;;
         ret [placedOrder])
        (fun error =>
           logger Effects.error
             "Failed to place opposite order for filled order ${filledOrder.id}" ;;
           ret [])
  end.

Definition processFilledOrders (filledOrders : list GridOrder.t) : M X t unit :=
  modify (with_tradingState (fun s =>
    set_activeOrders
      (filter (fun order => negb (some_id filledOrders order)) (TradingState.activeOrders s))
      s)) ;;
  modify (with_tradingState (fun s =>
    set_filledOrders (TradingState.filledOrders s ++ filledOrders) s)) ;;
  modify (calculateRealizedPnL filledOrders) ;;
  newOrders <- for_collect filledOrders replace_filled ;;
  modify (with_tradingState (fun s =>
    set_activeOrders (TradingState.activeOrders s ++ newOrders) s)) ;;
  logger info
    "Processed ${filledOrders.length} filled orders, placed ${newOrders.length} new orders".

Definition updateMarketData : M X t unit :=
  try_catch
    (currentPrice <- call getCurrentPrice ;;
     modify (with_tradingState (set_currentPrice currentPrice)) ;;
     modify (push_price currentPrice) ;;
     filledOrders <- checkOrderFills ;;
     (if Nat.ltb 0 (length filledOrders) then processFilledOrders filledOrders else ret tt) ;;
     modify updatePerformanceMetrics ;;
     logger info
       "Updated market data: current price ${currentPrice}, ${filledOrders.length} orders filled")
    (fun error => logger Effects.error "Failed to update market data").

(** The body of the loop of [cancelAllOrders]. *)
Definition cancel_one (order : GridOrder.t) : M X t unit :=
  match exchange_id order with
  | Some exchangeOrderId =>
      call (cancelOrder exchangeOrderId) ;;
      logger info "Canceled order ${order.id}"
  | None => ret tt
  end.

Definition cancelAllOrders : M X t unit :=
  try_catch
    (e <- get ;;
     for_of (TradingState.activeOrders (tradingState e)) cancel_one ;;
     modify (with_tradingState (set_activeOrders [])) ;;
     logger info "All orders canceled successfully")
    (fun error =>
       logger Effects.error "Failed to cancel all orders" ;;
       throw error).

End Methods.

Definition getTradingState (e : t) : TradingState.t := tradingState e.
Definition getHistoricalTrades (e : t) : list HistoricalTrade.t := historicalTrades e.

End ExecutionEngine.

(* ===================================================================== *)
(** * TradingBot (src/core/TradingBot.ts): shutdown *)
(* ===================================================================== *)

Module TradingBot.
Import Effects.

(** [executionEngine] is assigned by [initialize] only: it is undefined on
    a bot that was started without being initialized.  [intervalId] is the
    handle of the recurring timer. *)
Record t : Type := mk {
  executionEngine : option ExecutionEngine.t;
  tradingState : TradingState.t;
  isRunning : bool;
  intervalId : option nat
}.

Section Methods.
Context {X : Type} `{ExchangeConnector X}.

(** [await this.executionEngine.method()] *)
Definition on_engine {A} (m : M X ExecutionEngine.t A) : M X t A :=
  fun b w =>
    match executionEngine b with
    | None =>
        (Throw "TypeError: Cannot read properties of undefined", b, w)
    | Some e =>
        match m e w with
        | (r, e', w') =>
            (r, mk (Some e') (tradingState b) (isRunning b) (intervalId b), w')
        end
    end.

Definition clear_interval (b : t) : t :=
  mk (executionEngine b) (tradingState b) (isRunning b) None.

Definition set_isRunning (v : bool) (b : t) : t :=
  mk (executionEngine b) (tradingState b) v (intervalId b).

Definition stop : M X t unit :=
  b <- get ;;
  if negb (isRunning b) then logger warn "Trading bot is not running"
  else
    logger info "Stopping trading bot" ;;
    (match intervalId b with
     | Some _ => modify clear_interval
     | None => ret tt
     end) ;;
    try_catch
      (on_engine ExecutionEngine.cancelAllOrders ;;
       logger info "All orders canceled")
      (fun error => logger Effects.error "Failed to cancel orders") ;;
    modify (set_isRunning false) ;;
    logger info "Trading bot stopped".

End Methods.
End TradingBot.

(* ===================================================================== *)
(** * Vocabulary of the statements *)
(* ===================================================================== *)

(** The values of a list of finite numbers. *)
Definition values (l : list number) : list Q :=
  map (fun x => match x with Fin a => a | _ => 0%Q end) l.


Module ConfigSpec.
Import Config TradingBotConfig RiskManagementConfig.

(** An enabled stop-loss variant carries a field that its check rejects. *)
Definition stop_loss_rejected (c : TradingBotConfig.t) : Prop :=
  let basic := basicStopLoss (riskManagement c) in
  let dynamic := dynamicStopLoss (riskManagement c) in
  let trailing := trailingStopLoss (riskManagement c) in
  (BasicStopLossConfig.enabled basic = true
   /\ (BasicStopLossConfig.percentage basic <=? Fin 0) = true)
  \/ (DynamicStopLossConfig.enabled dynamic = true
      /\ ((DynamicStopLossConfig.initialRiskThreshold dynamic <=? Fin 0) = true
          \/ (DynamicStopLossConfig.expansionFactor dynamic <=? Fin 0) = true
          \/ (DynamicStopLossConfig.maximumExpansion dynamic <=? Fin 0) = true))
  \/ (TrailingStopLossConfig.enabled trailing = true
      /\ ((TrailingStopLossConfig.trailingDistance trailing <=? Fin 0) = true
          \/ (TrailingStopLossConfig.activationThreshold trailing <? Fin 0) = true)).

(** The fields of every enabled stop-loss variant are strictly positive,
    the activation threshold of the trailing stop being allowed to be
    zero. *)
Definition stop_loss_accepted (c : TradingBotConfig.t) : Prop :=
  let basic := basicStopLoss (riskManagement c) in
  let dynamic := dynamicStopLoss (riskManagement c) in
  let trailing := trailingStopLoss (riskManagement c) in
  (BasicStopLossConfig.enabled basic = true ->
   (BasicStopLossConfig.percentage basic >? Fin 0) = true)
  /\ (DynamicStopLossConfig.enabled dynamic = true ->
      (DynamicStopLossConfig.initialRiskThreshold dynamic >? Fin 0) = true
      /\ (DynamicStopLossConfig.expansionFactor dynamic >? Fin 0) = true
      /\ (DynamicStopLossConfig.maximumExpansion dynamic >? Fin 0) = true)
  /\ (TrailingStopLossConfig.enabled trailing = true ->
      (TrailingStopLossConfig.trailingDistance trailing >? Fin 0) = true
      /\ (TrailingStopLossConfig.activationThreshold trailing >=? Fin 0) = true).

(** The configuration [c] with the activation threshold of the trailing
    stop set to [v]. *)
Definition with_activationThreshold (v : number) (c : TradingBotConfig.t)
    : TradingBotConfig.t :=
  let r := riskManagement c in
  let tr := trailingStopLoss r in
  TradingBotConfig.mk (investment c) (grid c) (order c)
    (RiskManagementConfig.mk (basicStopLoss r) (dynamicStopLoss r)
       (TrailingStopLossConfig.mk (TrailingStopLossConfig.enabled tr)
          (TrailingStopLossConfig.trailingDistance tr) v
          (TrailingStopLossConfig.isDiscrete tr))).

End ConfigSpec.

Module RiskSpec.
Import RiskManager.

(** The risk settings of [defaultConfig]: trailing stop enabled, trailing
    distance 2, activation threshold 1. *)
Definition defaultRisk : RiskManagementConfig.t :=
  TradingBotConfig.riskManagement Config.defaultConfig.

(** A trading state without levels or orders at the given price and
    unrealized P&L. *)
Definition state_at (currentPrice unrealizedPnL : number) : TradingState.t :=
  TradingState.mk currentPrice [] [] [] unrealizedPnL (Fin 0) (Fin 0).

Definition trailing_enabled (r : t) : bool :=
  TrailingStopLossConfig.enabled (RiskManagementConfig.trailingStopLoss (config r)).

Definition activationThreshold (r : t) : number :=
  TrailingStopLossConfig.activationThreshold
    (RiskManagementConfig.trailingStopLoss (config r)).

(** The manager after one [updateStopLoss] per trading state, in order. *)
Definition updates (r : t) (states : list TradingState.t) : t :=
  fold_left (fun r' ts => snd (updateStopLoss r' ts)) states r.

(** [b] is [a] or strictly above it. *)
Definition unchanged_or_raised (a b : number) : Prop :=
  b = a \/ (b >? a) = true.

End RiskSpec.

Module GridSpec.
Import GridGenerator.

(** The grids below are linear: [Math.pow] and [Math.exp] are never
    called, and any library will do. *)
Definition no_math : MathLib :=
  {| Math_pow := fun _ _ => NaN; Math_exp := fun _ => NaN |}.

(** Five linear levels between 90 and 110 (the scenario of the
    specification). *)
Definition five_levels : GridConfig.t :=
  GridConfig.mk 5 (Fin 110) (Fin 90) false LINEAR.

Definition five_levels_config : TradingBotConfig.t :=
  TradingBotConfig.mk
    (TradingBotConfig.investment Config.defaultConfig)
    five_levels
    (TradingBotConfig.order Config.defaultConfig)
    (TradingBotConfig.riskManagement Config.defaultConfig).

Definition level_at (price : Q) : GridLevel.t :=
  GridLevel.mk (Fin price) None None true.

(** [|newPrice - level.price|] *)
Definition distance (newPrice : number) (level : GridLevel.t) : number :=
  abs (newPrice - GridLevel.price level).

Definition finite_price (level : GridLevel.t) : Prop :=
  finite (GridLevel.price level).

(** No two levels of the list have the same price. *)
Definition distinct_prices (levels : list GridLevel.t) : Prop :=
  ForallOrdPairs (fun a b => (GridLevel.price a === GridLevel.price b) = false) levels.

(** What [new_level] guarantees of every level it builds. *)
Definition flagged (g : t) (level : GridLevel.t) : Prop :=
  GridLevel.isActive level = (GridLevel.price level !== currentPrice g).

(** The number of levels of [levels'] on which [isActive] is [false]. *)
Definition inactive_count (levels' : list GridLevel.t) : nat :=
  length (filter (fun level => negb (GridLevel.isActive level)) levels').

End GridSpec.

Module AllocationSpec.
Import OrderAllocator.

(** The level has a finite, non-zero price [p]. *)
Definition nonzero_price (level : GridLevel.t) : Prop :=
  exists p, GridLevel.price level = Fin p /\ ~ p == 0.

(** The level has a finite, strictly positive price. *)
Definition positive_price (level : GridLevel.t) : Prop :=
  exists p, GridLevel.price level = Fin p /\ (0 < p)%Q.

(** An entry of a custom pattern that is a finite number, not negative;
    strictly positive. *)
Definition nonnegative_entry (v : number) : Prop :=
  exists q, v = Fin q /\ (0 <= q)%Q.

Definition positive_entry (v : number) : Prop :=
  exists q, v = Fin q /\ (0 < q)%Q.

(** An allocator investing [total] at leverage [lev] with the given
    method and custom pattern. *)
Definition allocator (method : OrderAllocationMethod) (pattern : option (list number))
    (total lev : Q) : t :=
  mk (OrderConfig.mk method pattern LIMIT)
     (InvestmentConfig.mk (Fin total) "BTC/USD" (Fin lev)).

(** The capital a list of order sizes commits: the sum over the levels of
    [size * price]. *)
Definition allocatedCapital (sizes : list number) (gridLevels : list GridLevel.t) : number :=
  sum (map (fun p => fst p * GridLevel.price (snd p)) (combine sizes gridLevels)).

(** The value of the triangular weight of level [i] among [n]. *)
Definition weight_value (n i : nat) : Q :=
  1 + - (Qabs (inject_Z (Z.of_nat i) / (inject_Z (Z.of_nat n) + - 1) + - (1 # 2)) * 2).

End AllocationSpec.

Module EngineSpec.
Import Effects ExecutionEngine.

(** The object and the world a method leaves behind, and what it
    returned. *)
Definition state_after {X S A} (m : M X S A) (s : S) (w : World X) : S :=
  snd (fst (m s w)).
Definition world_after {X S A} (m : M X S A) (s : S) (w : World X) : World X :=
  snd (m s w).
Definition outcome {X S A} (m : M X S A) (s : S) (w : World X) : result A :=
  fst (fst (m s w)).

Definition finite_order (o : GridOrder.t) : Prop :=
  finite (GridOrder.price o) /\ finite (GridOrder.size o).

Definition finite_attached (o : option GridOrder.t) : Prop :=
  match o with
  | Some x => finite_order x
  | None => True
  end.

Definition finite_level (level : GridLevel.t) : Prop :=
  finite (GridLevel.price level)
  /\ finite_attached (GridLevel.buyOrder level)
  /\ finite_attached (GridLevel.sellOrder level).

(** Every price and size held by the trading state is a finite number. *)
Definition finite_state (s : TradingState.t) : Prop :=
  Forall finite_level (TradingState.gridLevels s)
  /\ Forall finite_order (TradingState.activeOrders s)
  /\ Forall finite_order (TradingState.filledOrders s).

Definition zero_profit (trade : HistoricalTrade.t) : Prop :=
  is_value (HistoricalTrade.profit trade) 0.

(** The invariant of the engine: no realized P&L, no trade with a profit,
    finite prices and sizes. *)
Definition no_realized_profit (e : t) : Prop :=
  is_value (TradingState.realizedPnL (tradingState e)) 0
  /\ Forall zero_profit (historicalTrades e)
  /\ finite_state (tradingState e).

(** A method keeps the property [I] of the object, whether it returns or
    throws, and what it returns satisfies [Q]. *)
Definition keeps {X S A} (I : S -> Prop) (Q : A -> Prop) (m : M X S A) : Prop :=
  forall s w, I s ->
    match m s w with
    | (Ok a, s', _) => I s' /\ Q a
    | (Throw _, s', _) => I s'
    end.

Definition anything {A} (_ : A) : Prop := True.

Section Reachable.
Context {X : Type} `{ExchangeConnector X}.

(** The engine states a bot can get to: the engine is created on a
    trading state whose realized P&L is zero (as [TradingBot] creates it)
    and whose prices and sizes are finite, and its public methods are
    called in any order, in any world; [processFilledOrders], which
    [updateMarketData] calls, may also be run on its own on any orders of
    finite price and size. *)
Inductive reachable : t -> Prop :=
| reach_constructor (initialState : TradingState.t) :
    is_value (TradingState.realizedPnL initialState) 0 ->
    finite_state initialState ->
    reachable (constructor initialState)
| reach_initialize (e : t) (w : World X) :
    reachable e -> reachable (state_after initialize e w)
| reach_updateMarketData (e : t) (w : World X) :
    reachable e -> reachable (state_after updateMarketData e w)
| reach_cancelAllOrders (e : t) (w : World X) :
    reachable e -> reachable (state_after cancelAllOrders e w)
| reach_processFilledOrders (e : t) (w : World X) (filledOrders : list GridOrder.t) :
    Forall finite_order filledOrders ->
    reachable e -> reachable (state_after (processFilledOrders filledOrders) e w).

(** The orders of the list that carry an exchange identifier are
    cancelled one after the other, each call succeeding, which takes the
    exchange from [x] to [x']. *)
Inductive cancelled : list GridOrder.t -> X -> X -> Prop :=
| cancelled_nil (x : X) : cancelled [] x x
| cancelled_skip (o : GridOrder.t) (l : list GridOrder.t) (x x' : X) :
    exchange_id o = None -> cancelled l x x' -> cancelled (o :: l) x x'
| cancelled_cons (o : GridOrder.t) (l : list GridOrder.t) (id : string) (x x1 x' : X) :
    exchange_id o = Some id ->
    cancelOrder id x = (Ok tt, x1) ->
    cancelled l x1 x' ->
    cancelled (o :: l) x x'.

(** The cancellation of [orders] stops at the first call that throws:
    the orders before it are cancelled, the call for [failing] throws
    [err] and leaves the exchange in [x'], the orders after it are not
    attempted. *)
Definition stopped_at_failure (orders : list GridOrder.t) (x x' : X) (err : string) : Prop :=
  exists done failing remaining id x1,
    orders = done ++ failing :: remaining
    /\ cancelled done x x1
    /\ exchange_id failing = Some id
    /\ cancelOrder id x1 = (Throw err, x').

(** The logger was told that the cancellation failed. *)
Definition cancel_error_logged (w : World X) : Prop :=
  In {| level := error; text := "Failed to cancel all orders" |} (logged w).

End Reachable.

(** ** A sample exchange *)

(** An exchange that records the identifiers it is asked to cancel and
    rejects the cancellation of ["ex-1"]; it reports every order as
    filled. *)
Definition recording_exchange : ExchangeConnector (list string) :=
  {| getCurrentPrice := fun x => (Ok (Fin 100), x);
     Effects.placeOrder := fun _ x => (Ok "ex-9"%string, x);
     getOrderStatus := fun _ x => (Ok filled, x);
     cancelOrder := fun id x =>
       (if String.eqb id "ex-1" then Throw "order not found" else Ok tt, x ++ [id]);
     Date_now := fun x => (Fin 0, x) |}.

Definition sample_order (id : string) (side : Side) (status : OrderStatus)
    (exchangeOrderId : option string) : GridOrder.t :=
  GridOrder.mk id (Fin 100) (Fin 2) LIMIT side status exchangeOrderId.

Definition first_order : GridOrder.t := sample_order "o1" sell pending (Some "ex-1"%string).
Definition second_order : GridOrder.t := sample_order "o2" sell pending (Some "ex-2"%string).

(** A grid of one level at 100 carrying a sell order, the buy order of the
    same level having been filled before. *)
Definition sample_state : TradingState.t :=
  TradingState.mk (Fin 100)
    [GridLevel.mk (Fin 100) None (Some first_order) true]
    [first_order; second_order]
    [sample_order "o0" buy filled (Some "ex-0"%string)]
    (Fin 0) (Fin 0) (Fin 0).

Definition sample_engine : t := constructor sample_state.

Definition empty_world : World (list string) := mkWorld [] [].

Definition sample_bot : TradingBot.t :=
  TradingBot.mk (Some sample_engine) sample_state true (Some 1%nat).

End EngineSpec.

Module VolatilitySpec.
Import GridGenerator.

(** Five volatility-based levels between 90 and 110 at a current price of
    100, for a historical volatility of one tenth. *)
Definition five_volatility_levels : GridGenerator.t :=
  constructor (GridConfig.mk 5 (Fin 110) (Fin 90) false VOLATILITY_BASED)
    (Fin 100) (Some (Fin (1 # 10))).

(** A library with rational values: on finite arguments [exp] is
    replaced by [1 / (1 + |x|)], which like it is positive and decreases
    on the negative numbers that the volatility-based grid passes to it;
    on the special values it is [Math.exp]. *)
Definition rational_math : MathLib :=
  {| Math_pow := fun _ _ => Fin 1;
     Math_exp := fun x => match x with
                          | Fin a => Fin (1 / (1 + Qabs a))
                          | PInf => PInf
                          | NInf => Fin 0
                          | NaN => NaN
                          end |}.

(** [Math.exp] returns a finite number on the arguments the
    volatility-based grid passes to it, which lie between [-2] and [0]. *)
Definition exp_finite_on_curve (M : MathLib) : Prop :=
  forall a : Q, (- (2) <= a <= 0)%Q -> finite (Math_exp M (Fin a)).

(** The levels [generateVolatilityBasedGrid] pushes before it sorts
    them. *)
Definition unsorted_levels (M : MathLib) (g : GridGenerator.t) : list GridLevel.t :=
  map (fun i => new_level g (volatility_price M g i)) (indices g).

End VolatilitySpec.

(* ===================================================================== *)
(** * Further vocabulary *)
(* ===================================================================== *)

Module GridShapeSpec.
Import GridGenerator.


(** The step of a linear grid of [n] levels between [l] and [u]. *)
Definition linear_step (l u : Q) (n : Z) : Q := (u + - l) / (inject_Z n + - 1).




(** A grid of twenty levels whose range is derived from the price. *)
Definition auto_range : GridConfig.t :=
  GridConfig.mk 20 (Fin 0) (Fin 0) true LINEAR.

(** The bounds a generator works with. *)
Definition bounds (g : t) : number * number :=
  (GridConfig.lowerBound (config g), GridConfig.upperBound (config g)).

End GridShapeSpec.

Module OrdersSpec.
Import OrderAllocator.

(** Identifiers ["id-0"], ["id-1"], ... drawn from a counter. *)
Definition counting_ids : IdSource nat :=
  {| uuidv4 := fun n => (("id-" ++ String (Ascii.ascii_of_nat (48 + n)) "")%string, S n) |}.

(** What a level generated at the current price [currentPrice] carries
    once its orders are generated: nothing when its price is the current
    price, one pending buy order at its own price when it lies below, one
    pending sell order at its own price when it lies above. *)
Definition one_sided (currentPrice : number) (level : GridLevel.t) : Prop :=
  match GridLevel.buyOrder level, GridLevel.sellOrder level with
  | None, None => (GridLevel.price level === currentPrice) = true
  | Some o, None =>
      (GridLevel.price level <? currentPrice) = true
      /\ GridOrder.side o = buy
      /\ GridOrder.price o = GridLevel.price level
      /\ GridOrder.status o = pending
  | None, Some o =>
      (GridLevel.price level >? currentPrice) = true
      /\ GridOrder.side o = sell
      /\ GridOrder.price o = GridLevel.price level
      /\ GridOrder.status o = pending
  | Some _, Some _ => False
  end.

(** The level is as [new_level] builds it. *)
Definition fresh_level (g : GridGenerator.t) (level : GridLevel.t) : Prop :=
  exists price, level = GridGenerator.new_level g price.

End OrdersSpec.

Module ConservationSpec.

(** The value of the price of a level, when it is finite. *)
Definition price_value (level : GridLevel.t) : Q :=
  match GridLevel.price level with
  | Fin p => p
  | _ => 0
  end.

End ConservationSpec.

Module StopLossSpec.
Import RiskManager.

(** A level of the list that [updated] leaves as it is, or closes: no
    level is moved, re-priced or activated. *)
Definition kept_or_closed (old new : GridLevel.t) : Prop :=
  new = old \/ new = close_level old.

(** A trading state at [currentPrice] with the given levels and active
    orders. *)
Definition state_with (currentPrice : Q) (levels : list GridLevel.t)
    (orders : list GridOrder.t) : TradingState.t :=
  TradingState.mk (Fin currentPrice) levels orders [] (Fin 0) (Fin 0) (Fin 0).

(** Risk settings with only the basic stop loss enabled, at [pct] percent. *)
Definition basic_only (pct : Q) (method : StopLossMethod) : RiskManagementConfig.t :=
  RiskManagementConfig.mk
    (BasicStopLossConfig.mk true (Fin pct) method)
    (DynamicStopLossConfig.mk false (Fin 3) (Fin (1 # 2)) (Fin 10))
    (TrailingStopLossConfig.mk false (Fin 2) (Fin 1) false).


(** Five levels around a current price of 100, without orders. *)
Definition soft_state : TradingState.t :=
  state_with 100 (map GridSpec.level_at [90; 95; 100; 105; 110]%Q) [].

(** Ten samples ending on a dip followed by a partial recovery. *)
Definition reversal_history : list number :=
  map Fin [100; 100; 100; 100; 100; 110; 110; 120; 110; 115]%Q.

End StopLossSpec.


Module EngineFrameSpec.
Import Effects ExecutionEngine EngineSpec.

(** A method returns, from every object satisfying [I] and in every
    world: it does not throw, the object it leaves satisfies [I] and what
    it returns satisfies [Q]. *)
Definition returns {X S A} (I : S -> Prop) (Q : A -> Prop) (m : M X S A) : Prop :=
  forall s w, I s ->
    exists a s' w', m s w = (Ok a, s', w') /\ I s' /\ Q a.

(** [l'] is [l] with elements pushed at its end. *)
Definition extends {A} (l l' : list A) : Prop := exists pushed, l' = l ++ pushed.

(** The engine [e] has the levels of [e0], at the same prices and with
    the same flags, and its three histories are those of [e0] with
    elements pushed at their end. *)
Definition grown_from (e0 e : t) : Prop :=
  map GridLevel.price (TradingState.gridLevels (tradingState e))
  = map GridLevel.price (TradingState.gridLevels (tradingState e0))
  /\ map GridLevel.isActive (TradingState.gridLevels (tradingState e))
     = map GridLevel.isActive (TradingState.gridLevels (tradingState e0))
  /\ extends (TradingState.filledOrders (tradingState e0))
             (TradingState.filledOrders (tradingState e))
  /\ extends (historicalTrades e0) (historicalTrades e)
  /\ extends (priceHistory e0) (priceHistory e).

(** An exchange that is out of reach: every call throws. *)
Definition unreachable_exchange : ExchangeConnector unit :=
  {| getCurrentPrice := fun x => (Throw "timeout"%string, x);
     Effects.placeOrder := fun _ x => (Throw "timeout"%string, x);
     getOrderStatus := fun _ x => (Throw "timeout"%string, x);
     cancelOrder := fun _ x => (Throw "timeout"%string, x);
     Date_now := fun x => (Fin 0, x) |}.

Definition silent_world : World unit := mkWorld tt [].

(** A pending order at [price] of size [size]. *)
Definition pending_at (side : Side) (price size : Q) : GridOrder.t :=
  GridOrder.mk "o" (Fin price) (Fin size) LIMIT side pending None.

(** A pending buy order is at or below [c], a pending sell order at or
    above it, and the size of a pending order is not negative; orders
    that are not pending are not constrained. *)
Definition on_its_side (c : Q) (order : GridOrder.t) : Prop :=
  GridOrder.status order = pending ->
  exists price size,
    GridOrder.price order = Fin price /\ GridOrder.size order = Fin size
    /\ (0 <= size)%Q
    /\ match GridOrder.side order with
       | buy => (price <= c)%Q
       | sell => (c <= price)%Q
       end.

End EngineFrameSpec.

(** * The stop-loss handler of the bot *)

(** [TradingBot.handleStopLossEvent], a method on the [tradingState] of
    the bot; the risk manager, which it only reads, is a parameter, and the
    exchange is the connector of the bot. *)
Module StopLossEvent.
Import Effects RiskManager.
Import ExecutionEngine(set_gridLevels, set_activeOrders, some_id, exchange_id).

Section Methods.
Context {X : Type} `{ExchangeConnector X}.

(** [this.riskManager.executeStopLoss(this.tradingState)], with the lines
    it logs. *)
Definition run_executeStopLoss (riskManager : RiskManager.t)
    (tradingState : TradingState.t) : M X TradingState.t StopLossResult :=
  logger warn "Executing ${method} stop loss at price ${currentPrice}" ;;
  match BasicStopLossConfig.method
          (RiskManagementConfig.basicStopLoss (config riskManager)) with
  | HARD =>
      logger warn "Hard stop loss executed: closed ${closedOrders.length} orders" ;;
      ret (executeStopLoss riskManager tradingState)
  | SOFT =>
      logger warn
        "Soft stop loss executed: closed ${closedOrders.length} orders from ${closureCount} grid levels" ;;
      ret (executeStopLoss riskManager tradingState)
  end.

(** The body of the loop that cancels the closed orders on the
    exchange. *)
Definition cancel_closed (order : GridOrder.t) : M X TradingState.t unit :=
  match exchange_id order with
  | Some exchangeOrderId => call (cancelOrder exchangeOrderId)
  | None => ret tt
  end.

Definition handleStopLossEvent (riskManager : RiskManager.t) : M X TradingState.t unit :=
  try_catch
    (tradingState <- get ;;
     result <- run_executeStopLoss riskManager tradingState ;;
     modify (set_gridLevels (updatedGridLevels result)) ;;
     modify (fun s =>
               set_activeOrders
                 (filter (fun order => negb (some_id (closedOrders result) order))
                         (TradingState.activeOrders s)) s) ;;
     for_of (closedOrders result) cancel_closed ;;
     logger warn "Stop loss executed: ${closedOrders.length} orders closed")
    (fun error => logger Effects.error "Failed to handle stop loss event").

End Methods.

End StopLossEvent.

Module StopLossEventSpec.
Import Effects RiskManager.

(** The level is closed: inactive and without orders. *)
Definition closed_level (level : GridLevel.t) : Prop :=
  GridLevel.isActive level = false
  /\ GridLevel.buyOrder level = None
  /\ GridLevel.sellOrder level = None.

(** The sample state of the engine, with a hard stop loss of 5 percent. *)
Definition hard_manager : RiskManager.t :=
  RiskManager.constructor (StopLossSpec.basic_only 5 HARD) (Fin 100).

End StopLossEventSpec.

(** * The performance monitor *)

(** A [Map] keyed by numbers, as the list of its entries in insertion
    order; keys are compared as [Map] compares them (SameValueZero). *)
Module JsMap.

Definition t (V : Type) : Type := list (number * V).

(** [map.get(k)] *)
Definition get {V} (k : number) (m : t V) : option V :=
  match find (fun entry => JsArray.same_value_zero (fst entry) k) m with
  | Some entry => Some (snd entry)
  | None => None
  end.

(** [map.set(k, v)]: the value of an existing key is replaced where the
    key stands, a new key is added at the end. *)
Fixpoint set {V} (k : number) (v : V) (m : t V) : t V :=
  match m with
  | [] => [(k, v)]
  | (k', v') :: rest =>
      if JsArray.same_value_zero k' k then (k', v) :: rest
      else (k', v') :: set k v rest
  end.

End JsMap.

(** [PerformanceMonitor], without its files: the histories it keeps and
    the reports it derives from them.  [maxHistoryLength] is a
    non-negative integer, as its default [1000] is. *)
Module PerformanceMonitor.

(** [{ ...metrics, timestamp: Date.now() }] *)
Record TimestampedMetrics : Type := {
  metrics : PerformanceMetrics.t;
  timestamp : number
}.

Record t : Type := mk {
  metricsHistory : list TimestampedMetrics;
  historicalTrades : list HistoricalTrade.t;
  maxHistoryLength : nat
}.

(** [now] is the value of [Date.now()]. *)
Definition updateMetrics (now : number) (metrics : PerformanceMetrics.t) (pm : t) : t :=
  let pushed := metricsHistory pm ++ [{| metrics := metrics; timestamp := now |}] in
  mk (if Nat.ltb (maxHistoryLength pm) (length pushed) then tl pushed else pushed)
     (historicalTrades pm) (maxHistoryLength pm).

Definition updateTrades (trades : list HistoricalTrade.t) (pm : t) : t :=
  let all := historicalTrades pm ++ trades in
  mk (metricsHistory pm)
     (if Nat.ltb (maxHistoryLength pm) (length all)
      then skipn (length all - maxHistoryLength pm) all
      else all)
     (maxHistoryLength pm).

Definition getHistoricalTrades (pm : t) : list HistoricalTrade.t := historicalTrades pm.

(** ** The profitability heatmap *)

Record HeatmapEntry : Type := {
  price : number;
  tradeCount : nat;
  profit : number;
  profitPerTrade : number
}.

(** [{ count, profit }] *)
Definition LevelData : Type := (nat * number)%type.

Definition profitabilityMap (pm : t) (tradingState : TradingState.t) : JsMap.t LevelData :=
  let initial :=
    fold_left (fun m level => JsMap.set (GridLevel.price level) (0%nat, Fin 0) m)
              (TradingState.gridLevels tradingState) [] in
  fold_left
    (fun m trade =>
       let price := HistoricalTrade.price trade in
       let currentData :=
         match JsMap.get price m with
         | Some data => data
         | None => (0%nat, Fin 0)
         end in
       JsMap.set price
         (S (fst currentData), snd currentData + HistoricalTrade.profit trade) m)
    (historicalTrades pm) initial.

Definition heatmap_entry (entry : number * LevelData) : HeatmapEntry :=
  let (price, data) := entry in
  {| price := price;
     tradeCount := fst data;
     profit := snd data;
     profitPerTrade :=
       if Nat.ltb 0 (fst data) then snd data / of_nat (fst data) else Fin 0 |}.

Definition generateProfitabilityHeatmap (pm : t) (tradingState : TradingState.t)
    : list HeatmapEntry :=
  JsArray.sort_by (fun a b => price a - price b)
    (map heatmap_entry (profitabilityMap pm tradingState)).

(** ** Trade frequency *)

(** [totalTrades] is missing from the object returned for an empty
    history. *)
Record TradeFrequencyStats : Type := {
  tradesPerHour : number;
  tradesPerDay : number;
  averageTimeBetweenTrades : number;
  totalTrades : option nat
}.

(** [sortedTrades[i].timestamp] *)
Definition stamp (sortedTrades : list HistoricalTrade.t) (i : nat) : number :=
  nth i (map HistoricalTrade.timestamp sortedTrades) NaN.

Definition calculateTradeFrequencyStats (pm : t) : TradeFrequencyStats :=
  if Nat.eqb (length (historicalTrades pm)) 0 then
    {| tradesPerHour := Fin 0; tradesPerDay := Fin 0;
       averageTimeBetweenTrades := Fin 0; totalTrades := None |}
  else
    let sortedTrades :=
      JsArray.sort_by
        (fun a b => HistoricalTrade.timestamp a - HistoricalTrade.timestamp b)
        (historicalTrades pm) in
    let startTime := stamp sortedTrades 0 in
    let endTime := stamp sortedTrades (length sortedTrades - 1) in
    let timeRangeHours := (endTime - startTime) / (Fin 1000 * Fin 60 * Fin 60) in
    let timeRangeDays := timeRangeHours / Fin 24 in
    let tradesPerHour :=
      if timeRangeHours >? Fin 0 then of_nat (length sortedTrades) / timeRangeHours
      else Fin 0 in
    let tradesPerDay :=
      if timeRangeDays >? Fin 0 then of_nat (length sortedTrades) / timeRangeDays
      else Fin 0 in
    let totalTimeBetween :=
      fold_left (fun total i => total + (stamp sortedTrades i - stamp sortedTrades (i - 1)))
                (List.seq 1 (length sortedTrades - 1)) (Fin 0) in
    let averageTimeBetweenTrades :=
      if Nat.ltb 1 (length sortedTrades)
      then totalTimeBetween / of_nat (length sortedTrades - 1)
      else Fin 0 in
    {| tradesPerHour := tradesPerHour; tradesPerDay := tradesPerDay;
       averageTimeBetweenTrades := averageTimeBetweenTrades;
       totalTrades := Some (length sortedTrades) |}.

(** ** The stop-loss report *)

Record StopLossReport : Type := {
  stopLossTradeCount : nat;
  regularTradeCount : nat;
  stopLossTotalLoss : number;
  regularTradesTotalProfit : number;
  netPnL : number;
  effectivenessRatio : number
}.

(** [trades.reduce((sum, trade) => sum + trade.profit, 0)] *)
Definition total_profit (trades : list HistoricalTrade.t) : number :=
  fold_left (fun sum trade => sum + HistoricalTrade.profit trade) trades (Fin 0).

Definition generateStopLossReport (pm : t) : StopLossReport :=
  let stopLossTrades :=
    filter (fun trade => HistoricalTrade.profit trade <? Fin 0) (historicalTrades pm) in
  let stopLossTotalLoss := total_profit stopLossTrades in
  let regularTrades :=
    filter (fun trade => HistoricalTrade.profit trade >=? Fin 0) (historicalTrades pm) in
  let regularTradesTotalProfit := total_profit regularTrades in
  let netPnL := regularTradesTotalProfit + stopLossTotalLoss in
  let effectivenessRatio :=
    if stopLossTotalLoss !== Fin 0
    then abs (regularTradesTotalProfit / stopLossTotalLoss)
    else Fin 0 in
  {| stopLossTradeCount := length stopLossTrades;
     regularTradeCount := length regularTrades;
     stopLossTotalLoss := stopLossTotalLoss;
     regularTradesTotalProfit := regularTradesTotalProfit;
     netPnL := netPnL;
     effectivenessRatio := effectivenessRatio |}.

End PerformanceMonitor.

Module MonitorSpec.
Import PerformanceMonitor.

(** A trade at [price] with the given profit, recorded at [time]. *)
Definition trade_at (time price profit : Q) : HistoricalTrade.t :=
  HistoricalTrade.mk (Fin time) (Fin price) (Fin 1) sell 0 (Fin profit).

(** A monitor holding the given trades, with room for [max] entries. *)
Definition monitor_of (trades : list HistoricalTrade.t) (max : nat) : t :=
  mk [] trades max.

(** Three trades, the second one at a loss, recorded out of order. *)
Definition three_trades : list HistoricalTrade.t :=
  [trade_at 7200000 100 5; trade_at 0 95 (-3); trade_at 3600000 100 4].

Definition finite_profit (trade : HistoricalTrade.t) : Prop :=
  finite (HistoricalTrade.profit trade).

Definition profit_value (trade : HistoricalTrade.t) : Q :=
  match HistoricalTrade.profit trade with
  | Fin p => p
  | _ => 0
  end.



(** The sum of a list of rationals. *)
Definition Qsum (l : list Q) : Q := fold_right Qplus 0 l.

(** The number of trades that the entries of a heatmap count. *)
Definition counted (heatmap : list HeatmapEntry) : nat :=
  fold_right Nat.add 0%nat (map tradeCount heatmap).

(** The number of trades that the entries of a map count. *)
Definition map_count (m : JsMap.t LevelData) : nat :=
  fold_right Nat.add 0%nat (map (fun e => fst (snd e)) m).

(** The map has the key [k]. *)
Definition has_key (m : JsMap.t LevelData) (k : number) : Prop :=
  exists entry, In entry m /\ JsArray.same_value_zero (fst entry) k = true.

(** The heatmap has an entry for the price [p]. *)
Definition has_entry (heatmap : list HeatmapEntry) (p : number) : Prop :=
  exists entry, In entry heatmap /\ JsArray.same_value_zero (price entry) p = true.

End MonitorSpec.

Module PlacementSpec.
Import Effects ExecutionEngine.

(** [order] is the copy that [placeOrder] returns of a pending order
    attached to an active level of [levels]: the same order, with the
    identifier the exchange gave it. *)
Definition placed_from (levels : list GridLevel.t) (order : GridOrder.t) : Prop :=
  exists level source exchangeOrderId,
    In level levels
    /\ GridLevel.isActive level = true
    /\ (GridLevel.buyOrder level = Some source \/ GridLevel.sellOrder level = Some source)
    /\ GridOrder.status source = pending
    /\ order = GridOrder.mk (GridOrder.id source) (GridOrder.price source)
                 (GridOrder.size source) (GridOrder.type source) (GridOrder.side source)
                 pending (Some exchangeOrderId).

(** The engine [e] has the levels [levels], and each of its active orders
    was active in [old] or is placed from these levels. *)
Definition places_from (levels : list GridLevel.t) (old : list GridOrder.t) (e : t) : Prop :=
  TradingState.gridLevels (tradingState e) = levels
  /\ Forall (fun order => In order old \/ placed_from levels order)
            (TradingState.activeOrders (tradingState e)).

(** The sample state with its level closed, as a stop loss leaves it. *)
Definition closed_engine : t :=
  constructor
    (TradingState.mk (Fin 100)
       [GridLevel.mk (Fin 100) None (Some EngineSpec.first_order) false]
       [] [] (Fin 0) (Fin 0) (Fin 0)).

End PlacementSpec.

Module ReplacementSpec.
Import Effects ExecutionEngine.

(** [order] is the order the engine places for one of [filledOrders]: on
    the other side, of the same size and type, pending, accepted by the
    exchange, named after the filled order, and at one of [prices]. *)
Definition replacement (filledOrders : list GridOrder.t) (prices : list number)
    (order : GridOrder.t) : Prop :=
  exists filledOrder exchangeOrderId,
    In filledOrder filledOrders
    /\ GridOrder.id order = (GridOrder.id filledOrder ++ "-opposite")%string
    /\ GridOrder.side order = oppositeSide (GridOrder.side filledOrder)
    /\ GridOrder.size order = GridOrder.size filledOrder
    /\ GridOrder.type order = GridOrder.type filledOrder
    /\ GridOrder.status order = pending
    /\ GridOrder.exchangeOrderId order = Some exchangeOrderId
    /\ In (GridOrder.price order) prices.

(** The engine [e] while the loop of [processFilledOrders] runs from the
    engine [e1], [newOrders] being what the loop has pushed so far. *)
Definition replacing (filledOrders : list GridOrder.t) (e1 e : t)
    (newOrders : list GridOrder.t) : Prop :=
  map GridLevel.price (TradingState.gridLevels (tradingState e))
  = map GridLevel.price (TradingState.gridLevels (tradingState e1))
  /\ TradingState.activeOrders (tradingState e) = TradingState.activeOrders (tradingState e1)
  /\ TradingState.filledOrders (tradingState e) = TradingState.filledOrders (tradingState e1)
  /\ length (historicalTrades e) = (length (historicalTrades e1) + length newOrders)%nat
  /\ Forall (replacement filledOrders
               (map GridLevel.price (TradingState.gridLevels (tradingState e1))))
            newOrders.

End ReplacementSpec.

Module NoRuleSpec.

(** Risk settings with every stop-loss rule disabled. *)
Definition no_rules : RiskManagementConfig.t :=
  RiskManagementConfig.mk
    (BasicStopLossConfig.mk false (Fin 5) HARD)
    (DynamicStopLossConfig.mk false (Fin 3) (Fin (1 # 2)) (Fin 10))
    (TrailingStopLossConfig.mk false (Fin 2) (Fin 1) false).

(** No stop-loss rule of the manager is enabled. *)
Definition all_disabled (cfg : RiskManagementConfig.t) : Prop :=
  BasicStopLossConfig.enabled (RiskManagementConfig.basicStopLoss cfg) = false
  /\ DynamicStopLossConfig.enabled (RiskManagementConfig.dynamicStopLoss cfg) = false
  /\ TrailingStopLossConfig.enabled (RiskManagementConfig.trailingStopLoss cfg) = false.

End NoRuleSpec.

(* ===================================================================== *)
(** * The arithmetic of the allocator and of the generator on binary64 *)
(* ===================================================================== *)

(** The expressions of [OrderAllocator] and [GridGenerator], operation by
    operation and in the order of the source, on IEEE 754 binary64 numbers
    (the primitive floats, which round to nearest, ties to even, as
    ECMAScript does).  Only the prices of the levels and the sizes of
    the orders are computed. *)
Module Binary64.
Import PrimFloat.
Local Open Scope float_scope.

(** A loop counter or [array.length] as a float (exact below [2^53]). *)
Fixpoint of_nat (n : nat) : float :=
  match n with
  | O => 0
  | S n' => of_nat n' + 1
  end.

(** [array.reduce((sum, v) => sum + v, 0)] *)
Definition sum (l : list float) : float := fold_left add l 0.

Definition at_index (l : list float) (i : nat) : float := nth i l nan.

Definition mapi {A B : Type} (f : A -> nat -> B) (l : list A) : list B :=
  map (fun p => f (snd p) (fst p)) (combine (List.seq 0 (length l)) l).

(** The order sizes of [calculateEqualAllocation] for levels at the given
    prices. *)
Definition calculateEqualAllocation (totalInvestment leverage : float)
    (prices : list float) : list float :=
  let adjustedInvestment := totalInvestment * leverage in
  let investmentPerLevel := adjustedInvestment / of_nat (length prices) in
  map (fun price => investmentPerLevel / price) prices.

(** The order sizes of [calculateCustomAllocation] for a pattern of the
    length of the grid. *)
Definition calculateCustomAllocation (totalInvestment leverage : float)
    (customAllocationPattern prices : list float) : list float :=
  let adjustedInvestment := totalInvestment * leverage in
  let patternSum := sum customAllocationPattern in
  let normalizedPattern := map (fun val => val / patternSum) customAllocationPattern in
  mapi (fun price i =>
          let investmentForLevel := adjustedInvestment * at_index normalizedPattern i in
          investmentForLevel / price)
       prices.

(** The capital a list of order sizes commits: the sum over the levels of
    [size * price]. *)
Definition allocatedCapital (sizes prices : list float) : float :=
  sum (map (fun p => fst p * snd p) (combine sizes prices)).

(** The prices of [generateLinearGrid]. *)
Definition generateLinearGrid (numberOfGrids : nat) (upperBound lowerBound : float)
    : list float :=
  let step := (upperBound - lowerBound) / (of_nat numberOfGrids - 1) in
  map (fun i => lowerBound + step * of_nat i) (List.seq 0 numberOfGrids).

Fixpoint arithmetic_loop (commonDifference currentLevel : float) (counters : list nat)
    : list float :=
  match counters with
  | [] => []
  | i :: counters' =>
      let nextStepSize := commonDifference * (of_nat i + 1) in
      currentLevel :: arithmetic_loop commonDifference (currentLevel + nextStepSize) counters'
  end.

(** The prices of [generateArithmeticGrid]. *)
Definition generateArithmeticGrid (numberOfGrids : nat) (upperBound lowerBound : float)
    : list float :=
  let n := of_nat numberOfGrids in
  let totalDistance := upperBound - lowerBound in
  let commonDifference := (2 * totalDistance) / (n * (n - 1)) in
  arithmetic_loop commonDifference lowerBound (List.seq 0 numberOfGrids).


Definition five_prices : list float := [90; 95; 100; 105; 110].

(** A pattern whose entries add up to 1, but not in the order and the
    precision in which [reduce] adds them. *)
Definition cancelling_pattern : list float :=
  [10000000000000000; 1; -10000000000000000; 0; 0].

End Binary64.

(* ===================================================================== *)
(** * The engine as the bot creates it *)
(* ===================================================================== *)

Module BotSpec.
Import Effects ExecutionEngine EngineSpec.

(** Five linear levels between 90 and 110, and the custom allocation on a
    pattern of five zeros: a configuration that [validateConfig] accepts. *)
Definition zero_pattern_config : TradingBotConfig.t :=
  TradingBotConfig.mk
    (InvestmentConfig.mk (Fin 10000) "BTC/USD" (Fin 1))
    GridSpec.five_levels
    (OrderConfig.mk CUSTOM (Some [Fin 0; Fin 0; Fin 0; Fin 0; Fin 0]) LIMIT)
    (TradingBotConfig.riskManagement Config.defaultConfig).

(** The trading state on which [TradingBot.initialize] creates the engine
    when the exchange reports the price [currentPrice] and the volatility
    [historicalVolatility]: the levels of the generator with the orders
    of the allocator, no order placed or filled yet, no P&L. *)
Definition initial_state (M : GridGenerator.MathLib) (config : TradingBotConfig.t)
    (currentPrice : number) (historicalVolatility : option number) : TradingState.t :=
  let gridGenerator :=
    GridGenerator.constructor (TradingBotConfig.grid config) currentPrice
      historicalVolatility in
  let gridLevels := GridGenerator.generateGridLevels M gridGenerator in
  let orderAllocator :=
    OrderAllocator.mk (TradingBotConfig.order config) (TradingBotConfig.investment config) in
  let gridLevelsWithOrders :=
    fst (@OrderAllocator.generateGridOrders _ OrdersSpec.counting_ids
           orderAllocator gridLevels currentPrice 0%nat) in
  TradingState.mk currentPrice gridLevelsWithOrders [] [] (Fin 0) (Fin 0) (Fin 0).

(** A method run on the engine and the world the previous one left. *)
Definition then_run {A} (m : M (list string) t A) (p : t * World (list string))
    : t * World (list string) :=
  (state_after m (fst p) (snd p), world_after m (fst p) (snd p)).

(** The engine of that bot at the price 100, after [initialize] and two
    market updates against the sample exchange, which reports every order
    as filled. *)
Definition after_two_updates : t :=
  fst (then_run (@updateMarketData _ recording_exchange)
         (then_run (@updateMarketData _ recording_exchange)
            (then_run (@initialize _ recording_exchange)
               (constructor (initial_state GridSpec.no_math zero_pattern_config (Fin 100) None),
                empty_world)))).

End BotSpec.

Module ZeroPriceSpec.

(** A pattern of sum 4. *)
Definition uneven_pattern : list number := [Fin 0; Fin 1; Fin 1; Fin 1; Fin 1].

(** Five linear levels on a range derived from the price, and the custom
    allocation on that pattern: a configuration that [validateConfig]
    accepts. *)
Definition half_volatility_config : TradingBotConfig.t :=
  TradingBotConfig.mk
    (InvestmentConfig.mk (Fin 1000) "BTC/USD" (Fin 1))
    (GridConfig.mk 5 (Fin 0) (Fin 0) true LINEAR)
    (OrderConfig.mk CUSTOM (Some uneven_pattern) LIMIT)
    (TradingBotConfig.riskManagement Config.defaultConfig).

(** The levels generated at the price 100 when the exchange reports a
    volatility of one half: the lower bound is [100 * (1 - 2 * 0.5) = 0]. *)
Definition half_volatility_levels : list GridLevel.t :=
  GridGenerator.generateGridLevels GridSpec.no_math
    (GridGenerator.constructor (TradingBotConfig.grid half_volatility_config)
       (Fin 100) (Some (Fin (1 # 2)))).

Definition half_volatility_allocator : OrderAllocator.t :=
  OrderAllocator.mk (TradingBotConfig.order half_volatility_config)
    (TradingBotConfig.investment half_volatility_config).

End ZeroPriceSpec.
(* ===================================================================== *)
(** * Facts about JavaScript numbers *)
(* ===================================================================== *)

Section NumberFacts.

Lemma compare_Fin (a b : Q) : compare (Fin a) (Fin b) = Some (a ?= b).
Proof. reflexivity. Qed.

Lemma gt_true_le_false (x y : number) : (x >? y) = true -> (x <=? y) = false.
Proof. unfold gt, le. destruct (compare x y) as [[]|]; congruence. Qed.

Lemma ge_true_lt_false (x y : number) : (x >=? y) = true -> (x <? y) = false.
Proof. unfold ge, lt. destruct (compare x y) as [[]|]; congruence. Qed.

Lemma gt_Fin (a b : Q) : (Fin a >? Fin b) = true <-> (b < a)%Q.
Proof.
  unfold gt. rewrite compare_Fin. rewrite Qgt_alt.
  destruct (a ?= b); split; congruence.
Qed.

Lemma lt_Fin (a b : Q) : (Fin a <? Fin b) = true <-> (a < b)%Q.
Proof.
  unfold lt. rewrite compare_Fin. rewrite Qlt_alt.
  destruct (a ?= b); split; congruence.
Qed.

Lemma lt_Fin_false (a b : Q) : (Fin a <? Fin b) = false <-> (b <= a)%Q.
Proof.
  split; intro H.
  - destruct (Qlt_le_dec a b) as [L | L]; [ | exact L ].
    apply lt_Fin in L. congruence.
  - destruct (Fin a <? Fin b) eqn:E; [ | reflexivity ].
    apply lt_Fin in E. lra.
Qed.

Lemma le_Fin (a b : Q) : (Fin a <=? Fin b) = true <-> (a <= b)%Q.
Proof.
  unfold le. rewrite compare_Fin. rewrite Qle_alt.
  destruct (a ?= b); split; congruence.
Qed.

Lemma strict_eq_Fin (a b : Q) : (Fin a === Fin b) = true <-> a == b.
Proof.
  unfold strict_eq. rewrite compare_Fin. rewrite Qeq_alt.
  destruct (a ?= b); split; congruence.
Qed.

Lemma strict_ne_Fin_false (a b : Q) : (Fin a !== Fin b) = false <-> a == b.
Proof.
  unfold strict_ne. rewrite negb_false_iff. apply strict_eq_Fin.
Qed.

Lemma strict_ne_Fin_true (a b : Q) : (Fin a !== Fin b) = true <-> ~ a == b.
Proof.
  unfold strict_ne. rewrite negb_true_iff. rewrite <- strict_eq_Fin.
  destruct (Fin a === Fin b); split; congruence.
Qed.

(** [>] is transitive, the special values included. *)
Lemma gt_trans (x y z : number) :
  (x >? y) = true -> (y >? z) = true -> (x >? z) = true.
Proof.
  destruct x as [a| | |], y as [b| | |], z as [c| | |];
    try (cbn; congruence); try reflexivity.
  rewrite !gt_Fin. lra.
Qed.

Lemma Qcompare_Eq_zero (a : Q) : (a ?= 0) = Eq <-> a == 0.
Proof. symmetry. apply Qeq_alt. Qed.

(** Division of finite values by a non-zero finite value is finite. *)
Lemma div_Fin_nonzero (a b : Q) : ~ b == 0 -> Fin a / Fin b = Fin (a / b).
Proof.
  intro Hb. cbn. destruct (b ?= 0) eqn:E; try reflexivity.
  apply Qcompare_Eq_zero in E. contradiction.
Qed.

(** The running sum of [reduce] over finite values. *)
Lemma fold_add_Fin (l : list Q) (acc : Q) :
  fold_left add (map Fin l) (Fin acc) = Fin (fold_left Qplus l acc).
Proof.
  revert acc. induction l as [| x l IH]; intro acc; [ reflexivity | ].
  cbn [map fold_left]. cbn [add]. apply IH.
Qed.

Lemma fold_Qplus_shift (l : list Q) (acc : Q) :
  fold_left Qplus l acc == acc + fold_left Qplus l 0.
Proof.
  revert acc. induction l as [| x l IH]; intro acc; cbn [fold_left].
  - lra.
  - rewrite (IH (acc + x)%Q), (IH (0 + x)%Q). lra.
Qed.

Lemma fold_Qplus_nonneg (l : list Q) :
  Forall (fun x => 0 <= x)%Q l -> (0 <= fold_left Qplus l 0)%Q.
Proof.
  induction 1 as [| x l Hx _ IH]; cbn [fold_left]; [ lra | ].
  rewrite fold_Qplus_shift. lra.
Qed.

End NumberFacts.

Lemma map_Fin_values (l : list number) : Forall finite l -> map Fin (values l) = l.
Proof.
  induction 1 as [| x l Hx _ IH]; [ reflexivity | ].
  cbn. destruct x; try contradiction. unfold values in IH. now rewrite IH.
Qed.

(* ===================================================================== *)
(** * Configuration validation *)
(* ===================================================================== *)

Section ValidateConfig.
Import Config TradingBotConfig RiskManagementConfig ConfigSpec.

(** Walk down the chain of checks: a check that fires ends the function,
    and [fired] deals with it. *)
Ltac next_check fired :=
  match goal with
  | |- context [throw_if ?c _ _] =>
      let E := fresh "E" in
      destruct c eqn:E; cbn [throw_if]; [ fired E | ]
  end.

Ltac rejected_by H :=
  repeat match type of H with
         | _ /\ _ => let H1 := fresh in destruct H as [H1 H]; try rewrite H1 in *
         | _ \/ _ => destruct H as [H | H]
         end;
  try rewrite H in *; cbn in *; try discriminate.

(** A stop-loss check cannot fire on fields that are positive. *)
Ltac cannot_fire Hb Hd Ht E :=
  let En := fresh "En" in
  let Ev := fresh "Ev" in
  exfalso; apply andb_prop in E; destruct E as [En Ev];
  first [ apply Hb in En | apply Hd in En | apply Ht in En ];
  repeat match goal with H : _ /\ _ |- _ => destruct H end;
  repeat match goal with
         | G : (_ >? _) = true |- _ => apply gt_true_le_false in G
         | G : (_ >=? _) = true |- _ => apply ge_true_lt_false in G
         end;
  congruence.

(** C8, as the source has it.  Whenever an enabled stop-loss variant has a
    percentage, threshold, factor or distance [<= 0], or the trailing stop
    an activation threshold [< 0], [validateConfig] throws; and when the
    fields of the enabled variants are strictly positive (the activation
    threshold at least zero), [validateConfig] returns normally unless one
    of the checks on the grid, the leverage, the bounds or the custom
    pattern throws first. *)
Theorem validateConfig_stop_loss (c : TradingBotConfig.t) :
  (stop_loss_rejected c -> exists message, validateConfig c = Throw message)
  /\ (stop_loss_accepted c ->
      validateConfig c = Ok tt
      \/ exists message, In message structural_errors /\ validateConfig c = Throw message).
Proof.
  split.
  - intro H. unfold validateConfig. cbv zeta.
    repeat next_check ltac:(fun _ => eexists; reflexivity).
    exfalso. unfold stop_loss_rejected in H. cbv zeta in H.
    destruct H as [H | [H | H]].
    + rejected_by H.
    + destruct H as [H1 H]. rewrite H1 in *. destruct H as [H | [H | H]]; rejected_by H.
    + destruct H as [H1 H]. rewrite H1 in *. destruct H as [H | H]; rejected_by H.
  - intros (Hb & Hd & Ht). unfold validateConfig. cbv zeta.
    do 8 next_check
      ltac:(fun _ => right; eexists; split; [ | reflexivity ]; cbn; tauto).
    repeat next_check ltac:(cannot_fire Hb Hd Ht).
    left. reflexivity.
Qed.

End ValidateConfig.

Section ValidateConfigExamples.
Import Config TradingBotConfig RiskManagementConfig ConfigSpec.

(** C8 as stated fails: with the trailing stop enabled and an activation
    threshold of [0] (which is [<= 0]) the default configuration is
    accepted. *)
Lemma validateConfig_accepts_zero_activation_threshold :
  let c := with_activationThreshold (Fin 0) defaultConfig in
  TrailingStopLossConfig.enabled (trailingStopLoss (riskManagement c)) = true
  /\ (TrailingStopLossConfig.activationThreshold (trailingStopLoss (riskManagement c))
      <=? Fin 0) = true
  /\ validateConfig c = Ok tt.
Proof. repeat split. Qed.

Lemma validateConfig_stop_loss_witness :
  (exists message,
      validateConfig (with_activationThreshold (Fin (-1)) defaultConfig) = Throw message)
  /\ (validateConfig defaultConfig = Ok tt
      \/ exists message,
           In message structural_errors /\ validateConfig defaultConfig = Throw message).
Proof.
  split.
  - apply (proj1 (validateConfig_stop_loss _)).
    right; right. split; [ reflexivity | right; reflexivity ].
  - apply (proj2 (validateConfig_stop_loss _)).
    repeat split; reflexivity.
Defined.

End ValidateConfigExamples.

(* ===================================================================== *)
(** * Risk manager: the trailing stop *)
(* ===================================================================== *)

Section TrailingStop.
Import RiskManager RiskSpec.

(** The steps of [updateStopLoss] before the trailing stop touch neither
    the configuration, the initial price nor the trailing stop price. *)
Lemma updateStopLoss_trailing (r : t) (ts : TradingState.t) :
  trailing_enabled r = true ->
  trailingStopPrice (snd (updateStopLoss r ts))
  = let currentPrice := TradingState.currentPrice ts in
    if profitPercentage r currentPrice >=? activationThreshold r then
      let newTrailingStop :=
        currentPrice
        * (Fin 1 - TrailingStopLossConfig.trailingDistance
                     (RiskManagementConfig.trailingStopLoss (config r)) / Fin 100) in
      match trailingStopPrice r with
      | None => Some newTrailingStop
      | Some old => if newTrailingStop >? old then Some newTrailingStop else Some old
      end
    else trailingStopPrice r.
Proof.
  unfold trailing_enabled, activationThreshold, updateStopLoss. intro En.
  destruct (BasicStopLossConfig.enabled _), (DynamicStopLossConfig.enabled _);
    cbn [with_stopLossPrice config snd]; rewrite En; reflexivity.
Qed.

Lemma updateStopLoss_trailing_disabled (r : t) (ts : TradingState.t) :
  trailing_enabled r = false ->
  trailingStopPrice (snd (updateStopLoss r ts)) = trailingStopPrice r.
Proof.
  unfold trailing_enabled, updateStopLoss. intro En.
  destruct (BasicStopLossConfig.enabled _), (DynamicStopLossConfig.enabled _);
    cbn [with_stopLossPrice config snd]; rewrite En; reflexivity.
Qed.

Lemma updateStopLoss_config (r : t) (ts : TradingState.t) :
  config (snd (updateStopLoss r ts)) = config r.
Proof.
  unfold updateStopLoss.
  destruct (BasicStopLossConfig.enabled _), (DynamicStopLossConfig.enabled _);
    cbn [with_stopLossPrice config snd];
    destruct (TrailingStopLossConfig.enabled _); reflexivity.
Qed.

(** C3 as stated fails in both directions.  A manager created at price 100
    with the default risk settings (activation threshold 1): an unrealized
    P&L of 50 at price 100 leaves the trailing stop unset, and an
    unrealized P&L of 0 at price 110 sets it. *)
Lemma trailing_activation_ignores_unrealizedPnL :
  let r := constructor defaultRisk (Fin 100) in
  let high_pnl := state_at (Fin 100) (Fin 50) in
  let no_pnl := state_at (Fin 110) (Fin 0) in
  trailing_enabled r = true
  /\ (TradingState.unrealizedPnL high_pnl >=? activationThreshold r) = true
  /\ trailingStopPrice (snd (updateStopLoss r high_pnl)) = None
  /\ (TradingState.unrealizedPnL no_pnl <? activationThreshold r) = true
  /\ trailingStopPrice r = None
  /\ exists stop, trailingStopPrice (snd (updateStopLoss r no_pnl)) = Some stop
                  /\ is_value stop (539 # 5).
Proof.
  repeat split. eexists. split; [ reflexivity | reflexivity ].
Qed.

(** C3, as the source has it.  With the trailing stop enabled,
    [updateStopLoss] compares the gain of the current price over the
    initial price, in percent, with the activation threshold: when the gain
    reaches the threshold the trailing stop price is set after the call,
    and when it does not the trailing stop price is left as it was, unset
    if it was unset. *)
Theorem trailing_stop_activation (r : t) (ts : TradingState.t) :
  trailing_enabled r = true ->
  let gain := profitPercentage r (TradingState.currentPrice ts) in
  let r' := snd (updateStopLoss r ts) in
  ((gain >=? activationThreshold r) = true -> trailingStopPrice r' <> None)
  /\ ((gain >=? activationThreshold r) = false ->
      trailingStopPrice r' = trailingStopPrice r).
Proof.
  intros En gain r'. subst r'. rewrite (updateStopLoss_trailing _ _ En). cbv zeta.
  fold gain. split; intro G; rewrite G.
  - destruct (trailingStopPrice r) as [old |]; [ | discriminate ].
    destruct (_ >? old); discriminate.
  - reflexivity.
Qed.

Lemma trailing_stop_activation_witness :
  let r := constructor defaultRisk (Fin 100) in
  trailingStopPrice (snd (updateStopLoss r (state_at (Fin 110) (Fin 0)))) <> None
  /\ trailingStopPrice (snd (updateStopLoss r (state_at (Fin 100) (Fin 50)))) = None.
Proof.
  pose (r := constructor defaultRisk (Fin 100)).
  split.
  - apply (proj1 (trailing_stop_activation r (state_at (Fin 110) (Fin 0)) eq_refl)).
    reflexivity.
  - apply (proj2 (trailing_stop_activation r (state_at (Fin 100) (Fin 50)) eq_refl)).
    reflexivity.
Defined.

(** One call of [updateStopLoss] on an activated trailing stop. *)
Lemma updateStopLoss_ratchet (r : t) (ts : TradingState.t) (old : number) :
  trailingStopPrice r = Some old ->
  exists new, trailingStopPrice (snd (updateStopLoss r ts)) = Some new
              /\ unchanged_or_raised old new.
Proof.
  intro Hold. destruct (trailing_enabled r) eqn:En.
  - rewrite (updateStopLoss_trailing _ _ En). cbv zeta. rewrite Hold.
    destruct (_ >=? _).
    + destruct (_ >? old) eqn:G.
      * eexists. split; [ reflexivity | right; exact G ].
      * exists old. split; [ reflexivity | left; reflexivity ].
    + exists old. split; [ reflexivity | left; reflexivity ].
  - rewrite (updateStopLoss_trailing_disabled _ _ En).
    exists old. split; [ exact Hold | left; reflexivity ].
Qed.

Lemma unchanged_or_raised_trans (a b c : number) :
  unchanged_or_raised a b -> unchanged_or_raised b c -> unchanged_or_raised a c.
Proof.
  intros [-> | G1] [-> | G2].
  - left; reflexivity.
  - right; exact G2.
  - right; exact G1.
  - right. exact (gt_trans _ _ _ G2 G1).
Qed.

Lemma updates_snoc (r : t) (states : list TradingState.t) (ts : TradingState.t) :
  updates r (states ++ [ts]) = snd (updateStopLoss (updates r states) ts).
Proof. unfold updates. rewrite fold_left_app. reflexivity. Qed.

Lemma updates_ratchet (states : list TradingState.t) (r : t) (old : number) :
  trailingStopPrice r = Some old ->
  exists new, trailingStopPrice (updates r states) = Some new
              /\ unchanged_or_raised old new.
Proof.
  revert r old. induction states as [| ts states IH]; intros r old Hold.
  - exists old. split; [ exact Hold | left; reflexivity ].
  - destruct (updateStopLoss_ratchet r ts Hold) as (mid & Hmid & Hrm).
    destruct (IH _ _ Hmid) as (new & Hnew & Hmn).
    exists new. split; [ exact Hnew | ].
    exact (unchanged_or_raised_trans Hrm Hmn).
Qed.

(** C6.  Once the trailing stop price is set, it stays set over any
    sequence of [updateStopLoss] calls, whatever the trading states: it
    never falls below the value it had, and every single call of the
    sequence leaves it as it is or replaces it by a strictly greater
    value. *)
Theorem trailing_stop_monotone
    (r : t) (states : list TradingState.t) (ts : TradingState.t) (start : number) :
  trailingStopPrice r = Some start ->
  exists before after,
    trailingStopPrice (updates r states) = Some before
    /\ trailingStopPrice (updates r (states ++ [ts])) = Some after
    /\ unchanged_or_raised start before
    /\ unchanged_or_raised before after.
Proof.
  intro Hstart.
  destruct (updates_ratchet states r Hstart) as (before & Hb & Hsb).
  destruct (updateStopLoss_ratchet (updates r states) ts Hb) as (after & Ha & Hba).
  exists before, after. rewrite updates_snoc. auto.
Qed.

End TrailingStop.

Lemma trailing_stop_monotone_witness :
  let r := RiskManager.mk RiskSpec.defaultRisk (Fin 100) None (Some (Fin 98)) (Fin 0) in
  let states := [RiskSpec.state_at (Fin 110) (Fin 0)] in
  let ts := RiskSpec.state_at (Fin 105) (Fin 0) in
  exists before after,
    RiskManager.trailingStopPrice (RiskSpec.updates r states) = Some before
    /\ RiskManager.trailingStopPrice (RiskSpec.updates r (states ++ [ts])) = Some after
    /\ RiskSpec.unchanged_or_raised (Fin 98) before
    /\ RiskSpec.unchanged_or_raised before after.
Proof.
  cbv zeta. apply trailing_stop_monotone. reflexivity.
Defined.

(* ===================================================================== *)
(** * Grid generation and the closest-level pass *)
(* ===================================================================== *)

Section GridLevels.
Import GridGenerator GridSpec.

Lemma new_levels_flagged (g : t) (f : nat -> number) (counters : list nat) :
  Forall (flagged g) (map (fun i => new_level g (f i)) counters).
Proof.
  induction counters as [| i counters IH]; constructor; [ reflexivity | exact IH ].
Qed.

Lemma arithmetic_loop_flagged (g : t) (d : number) (counters : list nat) :
  forall cur, Forall (flagged g) (arithmetic_loop g d cur counters).
Proof.
  induction counters as [| i counters IH]; intro cur; cbn [arithmetic_loop];
    constructor; [ reflexivity | apply IH ].
Qed.

Lemma insert_level_flagged (g : t) (x : GridLevel.t) (l : list GridLevel.t) :
  flagged g x -> Forall (flagged g) l -> Forall (flagged g) (insert_level x l).
Proof.
  intros Hx Hl. induction Hl as [| y l Hy Hl IH]; cbn [insert_level].
  - constructor; [ exact Hx | constructor ].
  - destruct (_ <? _); repeat constructor; assumption.
Qed.

Lemma sort_by_price_flagged (g : t) (l : list GridLevel.t) :
  Forall (flagged g) l -> Forall (flagged g) (sort_by_price l).
Proof.
  unfold sort_by_price.
  assert (G : forall acc, Forall (flagged g) acc -> Forall (flagged g) l ->
                          Forall (flagged g) (fold_left (fun a x => insert_level x a) l acc)).
  { induction l as [| x l IH]; intros acc Hacc Hl; cbn [fold_left]; [ exact Hacc | ].
    inversion Hl; subst. apply IH; [ apply insert_level_flagged | ]; assumption. }
  intro Hl. apply G; [ constructor | exact Hl ].
Qed.

(** C7, as the source has it.  Whatever the configuration, the current
    price and the distribution method, a level returned by
    [generateGridLevels] is inactive exactly when its price is strictly
    equal to the current price; a level whose price differs from the
    current price is active, the nearest one included. *)
Theorem generateGridLevels_inactive_iff_at_current_price (M : MathLib) (g : t) :
  Forall (fun level =>
            GridLevel.isActive level = (GridLevel.price level !== currentPrice g))
         (generateGridLevels M g).
Proof.
  change (Forall (flagged g) (generateGridLevels M g)).
  unfold generateGridLevels.
  assert (L : Forall (flagged g) (generateLinearGrid g))
    by apply new_levels_flagged.
  destruct (GridConfig.distributionMethod (config g)); try exact L.
  - apply arithmetic_loop_flagged.
  - apply new_levels_flagged.
  - unfold generateVolatilityBasedGrid.
    destruct (volatility_missing _); [ exact L | ].
    apply sort_by_price_flagged, new_levels_flagged.
Qed.

(** The scenario of the specification: five linear levels between 90 and
    110 at a current price of 100 are 90, 95, 100, 105 and 110, and the
    level at 100 is the inactive one. *)
Example five_levels_at_100 :
  let levels := generateGridLevels no_math (constructor five_levels (Fin 100) None) in
  Forall2 is_value (map GridLevel.price levels) [90; 95; 100; 105; 110]%Q
  /\ map GridLevel.isActive levels = [true; true; false; true; true].
Proof.
  split; [ | reflexivity ].
  repeat constructor; reflexivity.
Qed.

(** C7 as stated fails: the same valid grid generated at a current price
    of 101 has no inactive level at all, although the level at 100 is the
    nearest one; the closest-level pass [updateGridLevels] is what marks
    it. *)
Lemma generateGridLevels_all_active_off_grid :
  let g := constructor five_levels (Fin 101) None in
  let levels := generateGridLevels no_math g in
  Config.validateConfig five_levels_config = Ok tt
  /\ Forall2 is_value (map GridLevel.price levels) [90; 95; 100; 105; 110]%Q
  /\ map GridLevel.isActive levels = [true; true; true; true; true]
  /\ exists levels',
       snd (updateGridLevels g levels (Fin 101)) = Ok levels'
       /\ map GridLevel.isActive levels' = [true; true; false; true; true].
Proof.
  cbv zeta. split; [ reflexivity | ].
  split; [ repeat constructor; reflexivity | ].
  split; [ reflexivity | ].
  eexists. split; reflexivity.
Qed.

(** ** [updateGridLevels] *)

Lemma strict_eq_sym (x y : number) : (x === y) = (y === x).
Proof.
  destruct x as [a| | |], y as [b| | |]; try reflexivity.
  unfold strict_eq. rewrite !compare_Fin. rewrite <- (Qcompare_antisym a b).
  destruct (a ?= b); reflexivity.
Qed.

Lemma strict_ne_refl_finite (x : number) : finite x -> (x !== x) = false.
Proof.
  destruct x; try contradiction. intros _. apply strict_ne_Fin_false. reflexivity.
Qed.

Lemma distance_Fin (p a : Q) (level : GridLevel.t) :
  GridLevel.price level = Fin a -> distance (Fin p) level = Fin (Qabs (p + - a)).
Proof. unfold distance. intros ->. reflexivity. Qed.

(** The search loop returns one of the levels it was given, and none of
    them is nearer to the price. *)
Lemma closest_loop_spec (p : Q) (rest : list GridLevel.t) :
  Forall finite_price rest ->
  forall closest, finite_price closest ->
  let found := closest_loop (Fin p) closest (distance (Fin p) closest) rest in
  In found (closest :: rest)
  /\ finite_price found
  /\ (distance (Fin p) found <=? distance (Fin p) closest) = true
  /\ Forall (fun level => (distance (Fin p) found <=? distance (Fin p) level) = true) rest.
Proof.
  induction 1 as [| level rest Hl Hrest IH]; intros closest Hc; cbn [closest_loop].
  - unfold finite_price in Hc. destruct (GridLevel.price closest) as [c| | |] eqn:Ec;
      try contradiction.
    repeat split; [ left; reflexivity | unfold finite_price; now rewrite Ec | | constructor ].
    rewrite (distance_Fin p closest Ec). apply le_Fin. lra.
  - fold (distance (Fin p) level).
    pose proof Hl as Hl'. pose proof Hc as Hc'. unfold finite_price in Hl', Hc'.
    destruct (GridLevel.price level) as [a| | |] eqn:Ea; try contradiction.
    destruct (GridLevel.price closest) as [c| | |] eqn:Ec; try contradiction.
    destruct (distance (Fin p) level <? distance (Fin p) closest) eqn:Cmp.
    + destruct (IH level Hl) as (Hin & Hfin & Hle & Hall).
      split; [ destruct Hin as [<- | Hin]; [ right; left; reflexivity | right; right; exact Hin ] | ].
      split; [ exact Hfin | ].
      pose proof Hfin as Hf'. unfold finite_price in Hf'.
      destruct (GridLevel.price (closest_loop _ _ _ _)) as [f| | |] eqn:Ef; try contradiction.
      rewrite (distance_Fin p _ Ef), (distance_Fin p _ Ea) in Hle.
      rewrite (distance_Fin p _ Ea), (distance_Fin p _ Ec) in Cmp.
      apply le_Fin in Hle. apply lt_Fin in Cmp.
      split; [ rewrite (distance_Fin p _ Ef), (distance_Fin p _ Ec); apply le_Fin; lra | ].
      constructor; [ | exact Hall ].
      rewrite (distance_Fin p _ Ef), (distance_Fin p _ Ea). apply le_Fin. lra.
    + destruct (IH closest Hc) as (Hin & Hfin & Hle & Hall).
      split; [ destruct Hin as [<- | Hin]; [ left; reflexivity | right; right; exact Hin ] | ].
      split; [ exact Hfin | ].
      split; [ exact Hle | ].
      constructor; [ | exact Hall ].
      pose proof Hfin as Hf'. unfold finite_price in Hf'.
      destruct (GridLevel.price (closest_loop _ _ _ _)) as [f| | |] eqn:Ef; try contradiction.
      rewrite (distance_Fin p _ Ef), (distance_Fin p _ Ec) in Hle.
      rewrite (distance_Fin p _ Ea), (distance_Fin p _ Ec) in Cmp.
      apply le_Fin in Hle. apply lt_Fin_false in Cmp.
      rewrite (distance_Fin p _ Ef), (distance_Fin p _ Ea). apply le_Fin. lra.
Qed.

Lemma distinct_prices_split (before after : list GridLevel.t) (c : GridLevel.t) :
  distinct_prices (before ++ c :: after) ->
  Forall (fun level => (GridLevel.price level !== GridLevel.price c) = true) before
  /\ Forall (fun level => (GridLevel.price level !== GridLevel.price c) = true) after.
Proof.
  unfold distinct_prices. induction before as [| b before IH]; cbn [app]; intro D.
  - inversion D as [| ? ? Hc _]; subst. split; [ constructor | ].
    eapply Forall_impl; [ | exact Hc ]. cbn. intros a Ha.
    unfold strict_ne. now rewrite strict_eq_sym, Ha.
  - inversion D as [| ? ? Hb D']; subst. destruct (IH D') as [IHb IHa].
    split; [ | exact IHa ]. constructor; [ | exact IHb ].
    rewrite Forall_forall in Hb. unfold strict_ne.
    rewrite (Hb c); [ reflexivity | ]. apply in_or_app. right. left. reflexivity.
Qed.

Lemma map_flag_active (c : number) (l : list GridLevel.t) :
  Forall (fun level => (GridLevel.price level !== c) = true) l ->
  map (fun level => GridLevel.with_isActive (GridLevel.price level !== c) level) l
  = map (GridLevel.with_isActive true) l.
Proof.
  induction 1 as [| x l Hx _ IH]; [ reflexivity | ].
  cbn [map]. now rewrite Hx, IH.
Qed.

(** C4, on lists of levels with pairwise distinct prices.  For a
    non-empty list of levels with finite, pairwise distinct prices and a
    finite price, [updateGridLevels] returns the list with one level
    marked inactive and every other level marked active, prices and
    attached orders untouched; no level is nearer to the supplied price
    than the inactive one. *)
Theorem updateGridLevels_marks_closest
    (g : t) (levels : list GridLevel.t) (newPrice : number) :
  levels <> [] ->
  finite newPrice ->
  Forall finite_price levels ->
  distinct_prices levels ->
  exists before closest after,
    levels = before ++ closest :: after
    /\ snd (updateGridLevels g levels newPrice)
       = Ok (map (GridLevel.with_isActive true) before
             ++ GridLevel.with_isActive false closest
             :: map (GridLevel.with_isActive true) after)
    /\ Forall (fun level =>
                 (distance newPrice closest <=? distance newPrice level) = true) levels.
Proof.
  intros Hne Hp Hfin Hdist.
  destruct levels as [| first rest]; [ contradiction | ].
  destruct newPrice as [p| | |]; try contradiction.
  inversion Hfin as [| ? ? Hfirst Hrest]; subst.
  destruct (closest_loop_spec p Hrest first Hfirst) as (Hin & Hf & Hle & Hall).
  cbv zeta in Hin, Hf, Hle, Hall.
  set (found := closest_loop (Fin p) first (distance (Fin p) first) rest) in *.
  destruct (in_split _ _ Hin) as (before & after & Hsplit).
  exists before, found, after. split; [ exact Hsplit | ].
  split.
  - unfold updateGridLevels. cbn [snd]. fold (distance (Fin p) first). fold found.
    rewrite Hsplit in Hdist |- *.
    destruct (distinct_prices_split _ _ _ Hdist) as [Hb Ha].
    rewrite map_app. cbn [map].
    rewrite (@map_flag_active _ _ Hb), (@map_flag_active _ _ Ha).
    rewrite (strict_ne_refl_finite _ Hf). reflexivity.
  - constructor; assumption.
Qed.

End GridLevels.

Section GridLevelsExamples.
Import GridGenerator GridSpec.

(** C4 as stated fails: levels are told apart by their price, so two
    levels at the price nearest to the supplied price are both marked
    inactive. *)
Lemma updateGridLevels_marks_equal_prices :
  let g := constructor five_levels (Fin 100) None in
  exists levels',
    snd (updateGridLevels g [level_at 90; level_at 100; level_at 100] (Fin 101)) = Ok levels'
    /\ map GridLevel.isActive levels' = [true; false; false]
    /\ inactive_count levels' = 2%nat.
Proof. eexists. repeat split. Qed.

Lemma updateGridLevels_marks_closest_witness :
  let g := constructor five_levels (Fin 100) None in
  let levels := [level_at 90; level_at 100; level_at 110] in
  exists before closest after,
    levels = before ++ closest :: after
    /\ snd (updateGridLevels g levels (Fin 101))
       = Ok (map (GridLevel.with_isActive true) before
             ++ GridLevel.with_isActive false closest
             :: map (GridLevel.with_isActive true) after)
    /\ Forall (fun level =>
                 (distance (Fin 101) closest <=? distance (Fin 101) level) = true) levels.
Proof.
  cbv zeta. apply updateGridLevels_marks_closest.
  - discriminate.
  - exact I.
  - repeat constructor.
  - repeat constructor.
Defined.

End GridLevelsExamples.

(* ===================================================================== *)
(** * Order allocation *)
(* ===================================================================== *)

Section Allocation.
Import OrderAllocator AllocationSpec.

(** ** Indexed traversal *)

Lemma mapi_from_nth_error {A B} (f : A -> nat -> B) (l : list A) :
  forall s i,
    nth_error (map (fun p => f (snd p) (fst p)) (combine (List.seq s (length l)) l)) i
    = option_map (fun x => f x (s + i)%nat) (nth_error l i).
Proof.
  induction l as [| x l IH]; intros s i.
  - destruct i; reflexivity.
  - destruct i as [| i]; cbn [length List.seq combine map nth_error option_map].
    + now rewrite Nat.add_0_r.
    + rewrite IH. now rewrite Nat.add_succ_r.
Qed.

Lemma mapi_nth_error {A B} (f : A -> nat -> B) (l : list A) (i : nat) :
  nth_error (mapi f l) i = option_map (fun x => f x i) (nth_error l i).
Proof. unfold mapi. now rewrite mapi_from_nth_error. Qed.

Lemma mapi_length {A B} (f : A -> nat -> B) (l : list A) : length (mapi f l) = length l.
Proof.
  unfold mapi. rewrite length_map, length_combine, length_seq. apply Nat.min_id.
Qed.

Lemma mapi_nth {A B} (f : A -> nat -> B) (l : list A) (i : nat) (x : A) (d : B) :
  nth_error l i = Some x -> nth i (mapi f l) d = f x i.
Proof.
  intro Hx. apply nth_error_nth. rewrite mapi_nth_error, Hx. reflexivity.
Qed.

(** ** Sums *)

Lemma of_nat_nonzero (n : nat) : (0 < n)%nat -> ~ inject_Z (Z.of_nat n) == 0.
Proof.
  intros Hn E. unfold Qeq in E. cbn in E. lia.
Qed.

Lemma inject_Z_succ (n : nat) :
  inject_Z (Z.of_nat (S n)) == inject_Z (Z.of_nat n) + 1.
Proof. rewrite Nat2Z.inj_succ. unfold Z.succ. rewrite inject_Z_plus. reflexivity. Qed.

Lemma fold_Qplus_const (c : Q) (l : list Q) :
  Forall (fun q => q == c) l ->
  fold_left Qplus l 0 == inject_Z (Z.of_nat (length l)) * c.
Proof.
  induction 1 as [| q l Hq _ IH].
  - cbn [fold_left length]. change (inject_Z (Z.of_nat 0)) with 0%Q. ring.
  - cbn [fold_left length]. rewrite fold_Qplus_shift, IH, inject_Z_succ, Hq. ring.
Qed.

Lemma fold_Qplus_pos (l : list Q) :
  Forall (fun x => 0 <= x)%Q l -> Exists (fun x => 0 < x)%Q l ->
  (0 < fold_left Qplus l 0)%Q.
Proof.
  intros Hall Hex. induction Hex as [x l Hx | x l _ IH]; inversion Hall; subst;
    cbn [fold_left]; rewrite fold_Qplus_shift.
  - pose proof (fold_Qplus_nonneg H2). lra.
  - specialize (IH H2). lra.
Qed.

(** ** Equal allocation *)

Lemma adjustedInvestment_Fin (a : t) (T L : Q) :
  InvestmentConfig.totalInvestment (investmentConfig a) = Fin T ->
  InvestmentConfig.leverage (investmentConfig a) = Fin L ->
  adjustedInvestment a = Fin (T * L).
Proof. unfold adjustedInvestment. intros -> ->. reflexivity. Qed.

(** The capital committed at each level by sizes [c / price]. *)
Lemma capital_terms (c : Q) (levels : list GridLevel.t) :
  Forall positive_price levels ->
  exists terms,
    map (fun p => fst p * GridLevel.price (snd p))
        (combine (map (fun level => Fin c / GridLevel.price level) levels) levels)
    = map Fin terms
    /\ Forall (fun q => q == c) terms
    /\ length terms = length levels.
Proof.
  induction 1 as [| level levels (p & Hp & Hpos) _ (terms & Hmap & Hall & Hlen)].
  - exists []. repeat split. constructor.
  - exists ((c / p * p)%Q :: terms). cbn [map combine fst snd length].
    rewrite Hmap, Hp, div_Fin_nonzero by lra.
    split; [ reflexivity | ]. split; [ | now rewrite Hlen ].
    constructor; [ | exact Hall ]. field. lra.
Qed.





(** Over the rationals of [JsNumber], where no operation rounds, the sizes
    of the equal allocation of a finite investment over [n >= 1] levels of
    finite positive price commit [T * L] to the last digit. *)
Lemma equal_allocation_capital_over_rationals
    (a : t) (levels : list GridLevel.t) (T L : Q) :
  levels <> [] ->
  InvestmentConfig.totalInvestment (investmentConfig a) = Fin T ->
  InvestmentConfig.leverage (investmentConfig a) = Fin L ->
  Forall positive_price levels ->
  let sizes := calculateEqualAllocation a levels in
  is_value (allocatedCapital (buyOrderSizes sizes) levels) (T * L).
Proof.
  intros Hne HT HL Hpos sizes.
  set (perLevel := (T * L / inject_Z (Z.of_nat (length levels)))%Q).
  assert (Hn : ~ inject_Z (Z.of_nat (length levels)) == 0).
  { apply of_nat_nonzero. destruct levels; [ contradiction | cbn; lia ]. }
  assert (Hsizes : buyOrderSizes sizes
                   = map (fun level => Fin perLevel / GridLevel.price level) levels).
  { subst sizes perLevel. unfold calculateEqualAllocation. cbn [buyOrderSizes].
    rewrite (adjustedInvestment_Fin a HT HL). unfold of_nat, of_Z.
    now rewrite div_Fin_nonzero. }
  rewrite Hsizes. unfold allocatedCapital, sum.
  destruct (capital_terms perLevel Hpos) as (terms & -> & Hall & Hlen).
  rewrite fold_add_Fin. cbn [is_value].
  rewrite (fold_Qplus_const Hall), Hlen. subst perLevel. field. exact Hn.
Qed.

(** ** Weighted allocation *)

Lemma denominator_pos (n : nat) :
  (2 <= n)%nat -> (0 < inject_Z (Z.of_nat n) + - 1)%Q.
Proof.
  intro Hn. assert (H : (inject_Z 2 <= inject_Z (Z.of_nat n))%Q)
    by (rewrite <- Zle_Qle; lia).
  change (inject_Z 2) with 2%Q in H. lra.
Qed.

Lemma index_le_denominator (n i : nat) :
  (i <= n - 1)%nat -> (2 <= n)%nat ->
  (inject_Z (Z.of_nat i) <= inject_Z (Z.of_nat n) + - 1)%Q.
Proof.
  intros Hi Hn.
  assert (H : (inject_Z (Z.of_nat i + 1) <= inject_Z (Z.of_nat n))%Q)
    by (rewrite <- Zle_Qle; lia).
  rewrite inject_Z_plus in H. change (inject_Z 1) with 1%Q in H. lra.
Qed.

Lemma index_nonneg (i : nat) : (0 <= inject_Z (Z.of_nat i))%Q.
Proof. change 0%Q with (inject_Z 0). rewrite <- Zle_Qle. lia. Qed.

Lemma weight_Fin (n i : nat) : (2 <= n)%nat -> weight n i = Fin (weight_value n i).
Proof.
  intro Hn. unfold weight, weight_value, of_nat, of_Z.
  change (Fin (inject_Z (Z.of_nat n)) - Fin 1)
    with (Fin (inject_Z (Z.of_nat n) + - 1)).
  rewrite div_Fin_nonzero; [ reflexivity | ].
  pose proof (denominator_pos Hn). lra.
Qed.

(** A weight is [1 - 2 * |r - 1/2|] for the normalized index [r]. *)
Lemma triangle_nonneg (r : Q) : (0 <= r <= 1)%Q -> (0 <= 1 + - (Qabs (r + - (1 # 2)) * 2))%Q.
Proof. intros [H0 H1]. apply Qabs_case; intro; lra. Qed.

Lemma triangle_pos (r : Q) : (0 < r < 1)%Q -> (0 < 1 + - (Qabs (r + - (1 # 2)) * 2))%Q.
Proof. intros [H0 H1]. apply Qabs_case; intro; lra. Qed.

Lemma triangle_edge (r : Q) : r == 0 \/ r == 1 -> 1 + - (Qabs (r + - (1 # 2)) * 2) == 0.
Proof. intros [-> | ->]; reflexivity. Qed.

Lemma weight_value_first (n : nat) : (2 <= n)%nat -> weight_value n 0 == 0.
Proof.
  intro Hn. unfold weight_value. apply triangle_edge. left.
  change (inject_Z (Z.of_nat 0)) with 0%Q. field.
  pose proof (denominator_pos Hn). lra.
Qed.

Lemma weight_value_last (n : nat) : (2 <= n)%nat -> weight_value n (n - 1) == 0.
Proof.
  intro Hn. unfold weight_value. apply triangle_edge. right.
  assert (E : inject_Z (Z.of_nat (n - 1)) == inject_Z (Z.of_nat n) + - 1).
  { replace (Z.of_nat (n - 1)) with (Z.of_nat n + - 1)%Z by lia.
    rewrite inject_Z_plus. reflexivity. }
  rewrite E. field. pose proof (denominator_pos Hn). lra.
Qed.

Lemma weight_value_nonneg (n i : nat) :
  (2 <= n)%nat -> (i <= n - 1)%nat -> (0 <= weight_value n i)%Q.
Proof.
  intros Hn Hi. unfold weight_value. apply triangle_nonneg.
  pose proof (denominator_pos Hn) as Hd.
  pose proof (index_le_denominator Hi Hn) as Hle.
  pose proof (index_nonneg i) as H0.
  split.
  - apply Qle_shift_div_l; [ exact Hd | lra ].
  - apply Qle_shift_div_r; [ exact Hd | lra ].
Qed.

Lemma weight_value_second (n : nat) : (3 <= n)%nat -> (0 < weight_value n 1)%Q.
Proof.
  intro Hn. unfold weight_value. apply triangle_pos.
  assert (Hd : (2 <= inject_Z (Z.of_nat n) + - 1)%Q).
  { assert (H : (inject_Z 3 <= inject_Z (Z.of_nat n))%Q) by (rewrite <- Zle_Qle; lia).
    change (inject_Z 3) with 3%Q in H. lra. }
  change (inject_Z (Z.of_nat 1)) with 1%Q.
  split.
  - apply Qlt_shift_div_l; lra.
  - apply Qlt_shift_div_r; lra.
Qed.

Lemma weights_Fin (n : nat) :
  (2 <= n)%nat ->
  map (weight n) (List.seq 0 n) = map Fin (map (weight_value n) (List.seq 0 n)).
Proof.
  intro Hn. rewrite map_map. apply map_ext. intro i. now apply weight_Fin.
Qed.

Lemma weightSum_pos (n : nat) :
  (3 <= n)%nat ->
  exists W, sum (map (weight n) (List.seq 0 n)) = Fin W /\ (0 < W)%Q.
Proof.
  intro Hn. rewrite weights_Fin by lia. unfold sum. rewrite fold_add_Fin.
  eexists. split; [ reflexivity | ].
  apply fold_Qplus_pos.
  - apply Forall_forall. intros q Hq. apply in_map_iff in Hq.
    destruct Hq as (i & <- & Hi). apply in_seq in Hi.
    apply weight_value_nonneg; lia.
  - apply Exists_exists. exists (weight_value n 1). split.
    + apply in_map. apply in_seq. lia.
    + now apply weight_value_second.
Qed.

(** The normalized weight that the size of level [i] is computed from. *)
Lemma normalized_weight (n i : nat) (weightSum : number) :
  (i < n)%nat ->
  at_index (map (fun w => w / weightSum) (map (weight n) (List.seq 0 n))) i
  = weight n i / weightSum.
Proof.
  intro Hi. unfold at_index.
  rewrite (nth_indep _ NaN (weight n 0 / weightSum))
    by (now rewrite !length_map, length_seq).
  rewrite (map_nth (fun w => w / weightSum)), (map_nth (weight n)).
  now rewrite seq_nth.
Qed.

(** An edge level, of weight zero, is given no capital when the weights
    sum to a positive value. *)
Lemma edge_size (a : t) (levels : list GridLevel.t) (T L : Q) (i : nat) :
  (3 <= length levels)%nat ->
  InvestmentConfig.totalInvestment (investmentConfig a) = Fin T ->
  InvestmentConfig.leverage (investmentConfig a) = Fin L ->
  Forall nonzero_price levels ->
  (i < length levels)%nat ->
  weight_value (length levels) i == 0 ->
  is_value (nth i (buyOrderSizes (calculateWeightedAllocation a levels)) NaN) 0.
Proof.
  intros Hn HT HL Hprices Hi Hw.
  destruct (nth_error levels i) as [level |] eqn:Elevel;
    [ | apply nth_error_None in Elevel; lia ].
  unfold calculateWeightedAllocation. cbn [buyOrderSizes].
  rewrite (@mapi_nth _ _ _ _ _ _ NaN Elevel).
  rewrite (normalized_weight _ Hi), (adjustedInvestment_Fin a HT HL).
  destruct (weightSum_pos Hn) as (W & -> & HW).
  rewrite weight_Fin by lia.
  rewrite Forall_forall in Hprices.
  destruct (Hprices level (nth_error_In _ _ Elevel)) as (p & -> & Hp).
  rewrite div_Fin_nonzero by lra. cbn [mul].
  rewrite div_Fin_nonzero by exact Hp. cbn [is_value].
  rewrite Hw. field. split; [ lra | exact Hp ].
Qed.

(** C9 as stated fails for two levels: both weights are zero, so is their
    sum, and normalization yields [0 / 0]: both order sizes are [NaN], not
    zero. *)
Lemma weighted_allocation_two_levels :
  let a := allocator WEIGHTED None 1000 1 in
  let levels := [GridSpec.level_at 90; GridSpec.level_at 110] in
  is_value (weight 2 0) 0
  /\ is_value (weight 2 1) 0
  /\ buyOrderSizes (calculateOrderSizes a levels) = [NaN; NaN]
  /\ sellOrderSizes (calculateOrderSizes a levels) = [NaN; NaN].
Proof. repeat split. Qed.

(** C9, from three levels on.  Under weighted allocation of a finite
    investment over [n >= 3] levels with finite non-zero prices, the
    triangular weight of the first and of the last level is zero, and the
    buy and sell size of both edge levels is zero. *)
Theorem weighted_allocation_edges
    (a : t) (levels : list GridLevel.t) (T L : Q) :
  (3 <= length levels)%nat ->
  InvestmentConfig.totalInvestment (investmentConfig a) = Fin T ->
  InvestmentConfig.leverage (investmentConfig a) = Fin L ->
  Forall nonzero_price levels ->
  let n := length levels in
  let sizes := calculateWeightedAllocation a levels in
  is_value (weight n 0) 0
  /\ is_value (weight n (n - 1)) 0
  /\ is_value (nth 0 (buyOrderSizes sizes) NaN) 0
  /\ is_value (nth (n - 1) (buyOrderSizes sizes) NaN) 0
  /\ sellOrderSizes sizes = buyOrderSizes sizes.
Proof.
  intros Hn HT HL Hprices n sizes. subst n sizes.
  repeat split.
  - rewrite weight_Fin by lia. apply weight_value_first. lia.
  - rewrite weight_Fin by lia. apply weight_value_last. lia.
  - apply edge_size with (T := T) (L := L); try assumption; [ lia | apply weight_value_first; lia ].
  - apply edge_size with (T := T) (L := L); try assumption; [ lia | apply weight_value_last; lia ].
Qed.

Lemma weighted_allocation_edges_witness :
  let a := allocator WEIGHTED None 1000 1 in
  let levels := map GridSpec.level_at [90; 95; 100; 105; 110]%Q in
  let sizes := calculateWeightedAllocation a levels in
  is_value (weight 5 0) 0
  /\ is_value (weight 5 4) 0
  /\ is_value (nth 0 (buyOrderSizes sizes) NaN) 0
  /\ is_value (nth 4 (buyOrderSizes sizes) NaN) 0
  /\ sellOrderSizes sizes = buyOrderSizes sizes.
Proof.
  cbv zeta.
  apply (weighted_allocation_edges
           (allocator WEIGHTED None 1000 1)
           (levels := map GridSpec.level_at [90; 95; 100; 105; 110]%Q)
           (T := 1000) (L := 1)).
  - cbn. lia.
  - reflexivity.
  - reflexivity.
  - repeat (constructor; [ eexists; split; [ reflexivity | discriminate ] | ]). constructor.
Defined.

(** ** Custom allocation *)

Lemma sum_finite (l : list number) :
  Forall finite l -> sum l = Fin (fold_left Qplus (values l) 0).
Proof.
  intro Hl. rewrite <- (map_Fin_values Hl) at 1. apply fold_add_Fin.
Qed.

Lemma normalized_entry (pattern : list number) (patternSum v : number) (i : nat) :
  nth_error pattern i = Some v ->
  at_index (map (fun val => val / patternSum) pattern) i = v / patternSum.
Proof.
  intro Hv. unfold at_index. apply nth_error_nth. now rewrite nth_error_map, Hv.
Qed.

Lemma zero_by_zero (q s : Q) : q == 0 -> s == 0 -> Fin q / Fin s = NaN.
Proof.
  intros Hq Hs. apply Qcompare_Eq_zero in Hq, Hs. cbn. now rewrite Hs, Hq.
Qed.

Lemma values_zero (l : list number) :
  Forall (fun v => is_value v 0) l ->
  Forall finite l /\ fold_left Qplus (values l) 0 == 0.
Proof.
  intro Hl. split.
  - eapply Forall_impl; [ | exact Hl ]. intros [q| | |]; cbn; auto.
  - rewrite (@fold_Qplus_const 0); [ ring | ].
    induction Hl as [| v l Hv _ IH]; cbn [values map]; constructor; [ | exact IH ].
    destruct v; cbn in Hv; try contradiction. exact Hv.
Qed.

Lemma nth_error_combine {A B} (l : list A) (l' : list B) (i : nat) :
  nth_error (combine l l') i
  = match nth_error l i, nth_error l' i with
    | Some x, Some y => Some (x, y)
    | _, _ => None
    end.
Proof.
  revert l' i. induction l as [| x l IH]; intros [| y l'] [| i]; cbn; try reflexivity.
  - now destruct (nth_error l i).
  - apply IH.
Qed.

Lemma map_combine_const {A B C} (f : A * B -> C) (c : C) (l : list A) (l' : list B) :
  length l = length l' ->
  (forall p, In p (combine l l') -> f p = c) ->
  map f (combine l l') = map (fun _ => c) l'.
Proof.
  revert l'. induction l as [| x l IH]; intros [| y l'] Hlen Hf; try discriminate;
    [ reflexivity | ].
  cbn [combine map]. f_equal.
  - apply Hf. now left.
  - apply IH; [ now injection Hlen | ]. intros p Hp. apply Hf. now right.
Qed.

(** The sizes of the custom allocation, entry by entry. *)
Lemma custom_sizes (capital : number) (pattern : list number) (levels : list GridLevel.t) :
  length pattern = length levels ->
  mapi (fun level i =>
          capital * at_index (map (fun val => val / sum pattern) pattern) i
          / GridLevel.price level)
       levels
  = map (fun p => capital * (fst p / sum pattern) / GridLevel.price (snd p))
        (combine pattern levels).
Proof.
  intro Hlen. apply nth_error_ext. intro i.
  rewrite mapi_nth_error, nth_error_map, nth_error_combine.
  destruct (nth_error levels i) as [level |] eqn:Elevel.
  - destruct (nth_error pattern i) as [v |] eqn:Ev.
    + cbn. now rewrite (normalized_entry _ _ _ Ev).
    + apply nth_error_None in Ev.
      assert (nth_error levels i <> None) by congruence.
      apply nth_error_Some in H. lia.
  - now destruct (nth_error pattern i).
Qed.

Lemma nonnegative_entries (pattern : list number) :
  Forall nonnegative_entry pattern ->
  Forall finite pattern /\ Forall (fun q => 0 <= q)%Q (values pattern).
Proof.
  induction 1 as [| v l (q & -> & Hq) _ [IH1 IH2]]; cbn [values map]; split;
    constructor; auto. exact I.
Qed.

Lemma positive_entry_value (pattern : list number) :
  Exists positive_entry pattern -> Exists (fun q => 0 < q)%Q (values pattern).
Proof.
  induction 1 as [v l (q & -> & Hq) | v l _ IH]; cbn [values map].
  - now constructor.
  - now apply Exists_cons_tl.
Qed.

(** C10.  For a custom pattern of the length of the grid,
    [calculateOrderSizes] divides every entry by the sum of the pattern,
    without a guard: the buy size and the sell size of a level are
    [totalInvestment * leverage * (entry / patternSum) / price].  When no
    entry is negative and one is positive, the investment is finite and
    the prices are finite and not zero, every order size is a finite
    number.  When every entry is zero the quotient is [0 / 0]: every
    order size is [NaN], whatever the investment and the prices. *)
Theorem custom_allocation_division
    (a : t) (levels : list GridLevel.t) (pattern : list number) :
  OrderConfig.allocationMethod (orderConfig a) = CUSTOM ->
  OrderConfig.customAllocationPattern (orderConfig a) = Some pattern ->
  length pattern = length levels ->
  let sizes := calculateOrderSizes a levels in
  let capital :=
    InvestmentConfig.totalInvestment (investmentConfig a)
    * InvestmentConfig.leverage (investmentConfig a) in
  let patternSum := sum pattern in
  sellOrderSizes sizes = buyOrderSizes sizes
  /\ buyOrderSizes sizes
     = map (fun p => capital * (fst p / patternSum) / GridLevel.price (snd p))
           (combine pattern levels)
  /\ (forall T L : Q,
        InvestmentConfig.totalInvestment (investmentConfig a) = Fin T ->
        InvestmentConfig.leverage (investmentConfig a) = Fin L ->
        Forall nonnegative_entry pattern ->
        Exists positive_entry pattern ->
        Forall nonzero_price levels ->
        Forall finite (buyOrderSizes sizes))
  /\ (Forall (fun v => is_value v 0) pattern ->
      buyOrderSizes sizes = map (fun _ => NaN) levels).
Proof.
  intros Hmethod Hpattern Hlen sizes capital patternSum.
  assert (Hsizes : buyOrderSizes sizes
                   = map (fun p => capital * (fst p / patternSum) / GridLevel.price (snd p))
                         (combine pattern levels)).
  { subst sizes. unfold calculateOrderSizes. rewrite Hmethod.
    unfold calculateCustomAllocation. rewrite Hpattern, Hlen, Nat.eqb_refl.
    cbn [negb buyOrderSizes]. now apply custom_sizes. }
  split.
  { subst sizes. unfold calculateOrderSizes. rewrite Hmethod.
    unfold calculateCustomAllocation. now rewrite Hpattern, Hlen, Nat.eqb_refl. }
  split; [ exact Hsizes | ]. split.
  - intros T L HT HL Hnonneg Hsome Hprices. rewrite Hsizes.
    destruct (nonnegative_entries Hnonneg) as [Hfin Hvalues].
    pose proof (fold_Qplus_pos Hvalues (positive_entry_value Hsome)) as Hsum.
    subst capital patternSum. rewrite HT, HL, (sum_finite Hfin). cbn [mul].
    apply Forall_forall. intros size Hin. apply in_map_iff in Hin.
    destruct Hin as ([v level] & <- & Hin). cbn [fst snd].
    rewrite Forall_forall in Hfin, Hprices.
    pose proof (Hfin v (in_combine_l _ _ _ _ Hin)) as Hv.
    destruct v as [q| | |]; try contradiction.
    destruct (Hprices level (in_combine_r _ _ _ _ Hin)) as (p & -> & Hp).
    rewrite div_Fin_nonzero by lra. cbn [mul].
    rewrite div_Fin_nonzero by exact Hp. exact I.
  - intro Hzero. rewrite Hsizes.
    destruct (values_zero Hzero) as [Hfin Hsum].
    subst patternSum. rewrite (sum_finite Hfin).
    apply map_combine_const; [ exact Hlen | ].
    intros [v level] Hin. cbn [fst snd].
    rewrite Forall_forall in Hzero.
    pose proof (Hzero v (in_combine_l _ _ _ _ Hin)) as Hv.
    destruct v as [q| | |]; try contradiction. cbn [is_value] in Hv.
    rewrite (zero_by_zero Hv Hsum).
    destruct capital; reflexivity.
Qed.

(** The all-zero pattern of five entries passes the length check of
    [validateConfig] for a grid of five levels and reaches the division:
    every order size is [NaN]. *)
Lemma custom_allocation_division_witness :
  let pattern := [Fin 0; Fin 0; Fin 0; Fin 0; Fin 0] in
  let a := allocator CUSTOM (Some pattern) 1000 1 in
  let levels := map GridSpec.level_at [90; 95; 100; 105; 110]%Q in
  buyOrderSizes (calculateOrderSizes a levels) = map (fun _ => NaN) levels.
Proof.
  cbv zeta.
  destruct (@custom_allocation_division
              (allocator CUSTOM (Some [Fin 0; Fin 0; Fin 0; Fin 0; Fin 0]) 1000 1)
              (map GridSpec.level_at [90; 95; 100; 105; 110]%Q)
              [Fin 0; Fin 0; Fin 0; Fin 0; Fin 0]
              eq_refl eq_refl eq_refl) as (_ & _ & _ & H).
  apply H. repeat constructor.
Defined.

Example custom_allocation_one_two_one :
  let a := allocator CUSTOM (Some [Fin 1; Fin 2; Fin 1]) 1000 1 in
  let levels := map GridSpec.level_at [100; 100; 100]%Q in
  Forall2 is_value (buyOrderSizes (calculateOrderSizes a levels)) [5 # 2; 5; 5 # 2]%Q.
Proof. repeat constructor; reflexivity. Qed.

(** A pattern whose entries sum to 4 does not make every size a number.
    The configuration passes [validateConfig]; the linear grid derived
    from the price 100 at a volatility of one half starts at the price 0,
    where the entry 0 gives [1000 * (0 / 4) / 0], which is [0 / 0]. *)
Lemma custom_allocation_nan_with_nonzero_sum :
  let pattern := ZeroPriceSpec.uneven_pattern in
  let levels := ZeroPriceSpec.half_volatility_levels in
  Config.validateConfig ZeroPriceSpec.half_volatility_config = Ok tt
  /\ length pattern = length levels
  /\ is_value (sum pattern) 4
  /\ Forall2 is_value (map GridLevel.price levels) [0; 50; 100; 150; 200]%Q
  /\ nth_error
       (buyOrderSizes (calculateOrderSizes ZeroPriceSpec.half_volatility_allocator levels))
       0
     = Some NaN.
Proof.
  cbv zeta. split; [ reflexivity | ]. split; [ reflexivity | ].
  split; [ reflexivity | ].
  split; [ repeat constructor; reflexivity | reflexivity ].
Qed.

End Allocation.

(* ===================================================================== *)
(** * Execution engine: cancelling all orders *)
(* ===================================================================== *)

Section CancelAllOrders.
Import Effects ExecutionEngine EngineSpec.
Context {X : Type} {EC : ExchangeConnector X}.

(** The loop of [cancelAllOrders] leaves the engine as it is; either it
    cancels every order, or it stops at the first call that throws. *)
Lemma cancel_loop (orders : list GridOrder.t) (e : t) (w : World X) :
  match for_of orders cancel_one e w with
  | (Ok _, e', w') => e' = e /\ cancelled orders (exchange w) (exchange w')
  | (Throw err, e', w') =>
      e' = e /\ stopped_at_failure orders (exchange w) (exchange w') err
  end.
Proof.
  revert w. induction orders as [| o orders IH]; intro w; cbn [for_of].
  - cbn. split; [ reflexivity | constructor ].
  - unfold bind at 1. unfold cancel_one at 1.
    destruct (exchange_id o) as [id |] eqn:Eid.
    + unfold bind at 1, call, logger.
      destruct (cancelOrder id (exchange w)) as [[[] | err] x1] eqn:Ecall.
      * match goal with |- context [for_of orders cancel_one e ?w1] =>
          specialize (IH w1); destruct (for_of orders cancel_one e w1) as [[[u | err] e'] w']
        end; cbn [exchange] in IH; destruct IH as [-> IH]; (split; [ reflexivity | ]).
        -- eapply cancelled_cons; eassumption.
        -- destruct IH as (done & failing & remaining & id' & x2 & -> & Hdone & Hid & Hfail).
           exists (o :: done), failing, remaining, id', x2. repeat split; try assumption.
           eapply cancelled_cons; eassumption.
      * split; [ reflexivity | ].
        exists [], o, orders, id, (exchange w). repeat split; try assumption.
        constructor.
    + unfold ret.
      specialize (IH w); destruct (for_of orders cancel_one e w) as [[[u | err] e'] w'];
        destruct IH as [-> IH]; (split; [ reflexivity | ]).
      * now apply cancelled_skip.
      * destruct IH as (done & failing & remaining & id' & x2 & -> & Hdone & Hid & Hfail).
        exists (o :: done), failing, remaining, id', x2. repeat split; try assumption.
        now apply cancelled_skip.
Qed.

(** [cancelAllOrders] on its own. *)
Lemma cancelAllOrders_spec (e : t) (w : World X) :
  let orders := TradingState.activeOrders (tradingState e) in
  match cancelAllOrders e w with
  | (Ok _, e', w') =>
      e' = with_tradingState (set_activeOrders []) e
      /\ cancelled orders (exchange w) (exchange w')
  | (Throw err, e', w') =>
      e' = e
      /\ stopped_at_failure orders (exchange w) (exchange w') err
      /\ cancel_error_logged w'
  end.
Proof.
  cbv zeta. unfold cancelAllOrders, try_catch. unfold bind at 1. unfold get at 1.
  unfold bind at 1.
  pose proof (cancel_loop (TradingState.activeOrders (tradingState e)) e w) as L.
  destruct (for_of _ cancel_one e w) as [[[u | err] e1] w1]; destruct L as [-> L].
  - cbn. split; [ reflexivity | exact L ].
  - cbn. split; [ reflexivity | ]. split; [ exact L | ].
    unfold cancel_error_logged. cbn. apply in_or_app. right. left. reflexivity.
Qed.

(** C1, as the source has it.  [cancelAllOrders] cancels the active
    orders that carry an exchange identifier one after the other.  When
    every call succeeds it returns and the active-order list is empty.
    When a call throws, the orders after it are not attempted, the error
    is logged and thrown again, and the active-order list is left as it
    was.  [TradingBot.stop] on a running bot catches that error: it always
    returns, with the timer cleared and the bot no longer running, the
    engine being left as [cancelAllOrders] left it. *)
Theorem cancelAllOrders_outcome (e : t) (w : World X)
    (ts : TradingState.t) (timer : option nat) :
  let orders := TradingState.activeOrders (tradingState e) in
  match cancelAllOrders e w with
  | (Ok _, e', w') =>
      TradingState.activeOrders (tradingState e') = []
      /\ cancelled orders (exchange w) (exchange w')
  | (Throw err, e', w') =>
      e' = e
      /\ stopped_at_failure orders (exchange w) (exchange w') err
      /\ cancel_error_logged w'
  end
  /\ let bot := TradingBot.mk (Some e) ts true timer in
     outcome TradingBot.stop bot w = Ok tt
     /\ TradingBot.isRunning (state_after TradingBot.stop bot w) = false
     /\ TradingBot.intervalId (state_after TradingBot.stop bot w) = None
     /\ exists w1,
          exchange w1 = exchange w
          /\ TradingBot.executionEngine (state_after TradingBot.stop bot w)
             = Some (state_after cancelAllOrders e w1).
Proof.
  cbv zeta. split.
  - pose proof (cancelAllOrders_spec e w) as S. cbv zeta in S.
    destruct (cancelAllOrders e w) as [[[u | err] e'] w']; [ | exact S ].
    destruct S as [-> S]. split; [ reflexivity | exact S ].
  - unfold outcome, state_after, TradingBot.stop.
    cbv [bind get logger modify ret try_catch TradingBot.on_engine
           TradingBot.isRunning TradingBot.intervalId TradingBot.executionEngine
           TradingBot.tradingState TradingBot.clear_interval TradingBot.set_isRunning
           negb].
    set (w1 := mkWorld (exchange w) _).
    destruct timer as [n |];
      destruct (cancelAllOrders e w1) as [[[u | err] e'] w'] eqn:Run;
      cbn [fst snd]; repeat split; exists w1; (split; [ reflexivity | ]);
      rewrite Run; reflexivity.
Qed.

End CancelAllOrders.

Section CancelAllOrdersExamples.
Import Effects ExecutionEngine EngineSpec.

(** C1 as stated fails.  The engine holds two active orders and the
    exchange rejects the cancellation of the first: [cancelAllOrders]
    throws, the second order is never sent to the exchange, and both
    orders are still active afterwards, also after [TradingBot.stop], which
    returns normally. *)
Lemma cancelAllOrders_stops_at_first_failure :
  let run := @cancelAllOrders _ recording_exchange sample_engine empty_world in
  let stopped := @TradingBot.stop _ recording_exchange sample_bot empty_world in
  TradingState.activeOrders (tradingState sample_engine) = [first_order; second_order]
  /\ fst (fst run) = Throw "order not found"
  /\ TradingState.activeOrders (tradingState (snd (fst run))) = [first_order; second_order]
  /\ exchange (snd run) = ["ex-1"%string]
  /\ fst (fst stopped) = Ok tt
  /\ TradingBot.isRunning (snd (fst stopped)) = false
  /\ option_map (fun e => TradingState.activeOrders (tradingState e))
       (TradingBot.executionEngine (snd (fst stopped)))
     = Some [first_order; second_order].
Proof. repeat split. Qed.

End CancelAllOrdersExamples.

(* ===================================================================== *)
(** * Execution engine: realized P&L *)
(* ===================================================================== *)

Section Keeps.
Import Effects EngineSpec.
Context {X S : Type}.
Variable I : S -> Prop.

Lemma keeps_ret {A} (Q : A -> Prop) (a : A) : Q a -> keeps I Q (ret (X := X) a).
Proof. intros Ha s w Hs. cbn. auto. Qed.

Lemma keeps_throw {A} (Q : A -> Prop) (err : string) : keeps I Q (throw (X := X) err).
Proof. intros s w Hs. exact Hs. Qed.

Lemma keeps_bind {A B} (P : A -> Prop) (Q : B -> Prop)
    (m : M X S A) (k : A -> M X S B) :
  keeps I P m -> (forall a, P a -> keeps I Q (k a)) -> keeps I Q (bind m k).
Proof.
  intros Hm Hk s w Hs. unfold bind. specialize (Hm s w Hs).
  destruct (m s w) as [[[a | err] s'] w']; [ | exact Hm ].
  destruct Hm as [Hs' Ha]. exact (Hk a Ha s' w' Hs').
Qed.

Lemma keeps_try_catch {A} (Q : A -> Prop) (body : M X S A) (handler : string -> M X S A) :
  keeps I Q body -> (forall err, keeps I Q (handler err)) ->
  keeps I Q (try_catch body handler).
Proof.
  intros Hb Hh s w Hs. unfold try_catch. specialize (Hb s w Hs).
  destruct (body s w) as [[[a | err] s'] w']; [ exact Hb | ].
  exact (Hh err s' w' Hb).
Qed.

Lemma keeps_weaken {A} (P Q : A -> Prop) (m : M X S A) :
  (forall a, P a -> Q a) -> keeps I P m -> keeps I Q m.
Proof.
  intros HPQ Hm s w Hs. specialize (Hm s w Hs).
  destruct (m s w) as [[[a | err] s'] w']; [ | exact Hm ].
  destruct Hm; auto.
Qed.

Lemma keeps_get : keeps I I (get (X := X)).
Proof. intros s w Hs. cbn. auto. Qed.

Lemma keeps_modify (f : S -> S) :
  (forall s, I s -> I (f s)) -> keeps I anything (modify (X := X) f).
Proof. intros Hf s w Hs. cbn. split; [ auto | exact Logic.I ]. Qed.

Lemma keeps_logger (l : LogLevel) (msg : string) : keeps I anything (logger (X := X) l msg).
Proof. intros s w Hs. cbn. split; [ exact Hs | exact Logic.I ]. Qed.

Lemma keeps_call {A} (f : X -> result A * X) : keeps I anything (call f).
Proof.
  intros s w Hs. unfold call. destruct (f (exchange w)) as [[a | err] x'];
    [ split; [ exact Hs | exact Logic.I ] | exact Hs ].
Qed.

Lemma keeps_for_of {A} (xs : list A) (body : A -> M X S unit) :
  (forall x, In x xs -> keeps I anything (body x)) ->
  keeps I anything (for_of xs body).
Proof.
  induction xs as [| x xs IH]; intro Hbody; cbn [for_of].
  - now apply keeps_ret.
  - eapply keeps_bind; [ apply Hbody; left; reflexivity | ].
    intros _ _. apply IH. intros y Hy. apply Hbody. right. exact Hy.
Qed.

Lemma keeps_for_collect {A B} (P : B -> Prop) (xs : list A) (body : A -> M X S (list B)) :
  (forall x, In x xs -> keeps I (Forall P) (body x)) ->
  keeps I (Forall P) (for_collect xs body).
Proof.
  induction xs as [| x xs IH]; intro Hbody; cbn [for_collect].
  - apply keeps_ret. constructor.
  - eapply keeps_bind; [ apply Hbody; left; reflexivity | ].
    intros ys Hys. eapply keeps_bind.
    + apply IH. intros y Hy. apply Hbody. right. exact Hy.
    + intros rest Hrest. apply keeps_ret. apply Forall_app. auto.
Qed.

End Keeps.

Section RealizedPnL.
Import Effects ExecutionEngine EngineSpec.

(** ** The pairing rule *)

Lemma last_of_In {A} (l : list A) (x : A) : last_of l = Some x -> In x l.
Proof. unfold last_of. apply nth_error_In. Qed.

(** An order past the filter of [oppositeOrders] has the price of the
    filled order: the difference of the two prices, times any finite size,
    is zero. *)
Lemma paired_orders_cancel (ledger : list GridOrder.t) (filledOrder opposite : GridOrder.t) :
  finite_order filledOrder ->
  Forall finite_order ledger ->
  last_of (oppositeOrders ledger filledOrder) = Some opposite ->
  is_value ((GridOrder.price filledOrder - GridOrder.price opposite)
            * GridOrder.size filledOrder) 0
  /\ is_value ((GridOrder.price opposite - GridOrder.price filledOrder)
               * GridOrder.size filledOrder) 0.
Proof.
  intros [Hfp Hfs] Hledger Hlast.
  apply last_of_In in Hlast. unfold oppositeOrders in Hlast.
  apply filter_In in Hlast. destruct Hlast as [Hin Hcond].
  apply andb_prop in Hcond. destruct Hcond as [Hprice _].
  rewrite Forall_forall in Hledger. destruct (Hledger _ Hin) as [Hop _].
  destruct (GridOrder.price filledOrder) as [pf| | |]; try contradiction.
  destruct (GridOrder.size filledOrder) as [sf| | |]; try contradiction.
  destruct (GridOrder.price opposite) as [po| | |]; try contradiction.
  apply strict_eq_Fin in Hprice. cbn. rewrite Hprice. split; ring.
Qed.

Lemma add_zero (x y : number) : is_value x 0 -> is_value y 0 -> is_value (x + y) 0.
Proof.
  destruct x as [a| | |], y as [b| | |]; cbn; try contradiction.
  intros -> ->. reflexivity.
Qed.

Lemma realized_step_zero (ledger : list GridOrder.t) (acc : number) (filledOrder : GridOrder.t) :
  finite_order filledOrder ->
  Forall finite_order ledger ->
  is_value acc 0 ->
  is_value (realized_step ledger acc filledOrder) 0.
Proof.
  intros Hf Hledger Hacc. unfold realized_step.
  destruct (last_of (oppositeOrders ledger filledOrder)) as [opposite |] eqn:Elast;
    [ | exact Hacc ].
  destruct (paired_orders_cancel Hf Hledger Elast) as [Hsell Hbuy].
  destruct (GridOrder.side filledOrder), (GridOrder.side opposite);
    try exact Hacc; now apply add_zero.
Qed.

Lemma newRealizedPnL_zero (ledger filledOrders : list GridOrder.t) :
  Forall finite_order filledOrders ->
  Forall finite_order ledger ->
  forall acc, is_value acc 0 ->
  is_value (fold_left (realized_step ledger) filledOrders acc) 0.
Proof.
  intros Hf Hledger. induction Hf as [| f fs Hf _ IH]; intros acc Hacc; cbn [fold_left].
  - exact Hacc.
  - apply IH. now apply realized_step_zero.
Qed.

Lemma trade_profit_zero (ledger : list GridOrder.t) (order : GridOrder.t) :
  finite_order order ->
  Forall finite_order ledger ->
  is_value (trade_profit ledger order) 0.
Proof.
  intros Hf Hledger. unfold trade_profit.
  destruct (last_of (oppositeOrders ledger order)) as [opposite |] eqn:Elast;
    [ | reflexivity ].
  destruct (paired_orders_cancel Hf Hledger Elast) as [Hsell Hbuy].
  destruct (GridOrder.side order); assumption.
Qed.

(** ** Assignments that keep the invariant *)

Lemma calculateRealizedPnL_keeps (filledOrders : list GridOrder.t) (e : t) :
  Forall finite_order filledOrders ->
  no_realized_profit e -> no_realized_profit (calculateRealizedPnL filledOrders e).
Proof.
  intros Hf (Hpnl & Htrades & Hlevels & Hactive & Hfilled).
  unfold calculateRealizedPnL, no_realized_profit, finite_state. cbn.
  repeat split; try assumption.
  apply add_zero; [ exact Hpnl | ].
  apply newRealizedPnL_zero; [ assumption | assumption | reflexivity ].
Qed.

Lemma updatePerformanceMetrics_keeps (e : t) :
  no_realized_profit e -> no_realized_profit (updatePerformanceMetrics e).
Proof. intros (Hpnl & Htrades & Hlevels & Hactive & Hfilled). repeat split; assumption. Qed.

Lemma set_currentPrice_keeps (p : number) (e : t) :
  no_realized_profit e -> no_realized_profit (with_tradingState (set_currentPrice p) e).
Proof. intros (Hpnl & Htrades & Hlevels & Hactive & Hfilled). repeat split; assumption. Qed.

Lemma push_price_keeps (p : number) (e : t) :
  no_realized_profit e -> no_realized_profit (push_price p e).
Proof. intros (Hpnl & Htrades & Hlevels & Hactive & Hfilled). repeat split; assumption. Qed.

Lemma set_activeOrders_keeps (f : TradingState.t -> list GridOrder.t) (e : t) :
  Forall finite_order (f (tradingState e)) ->
  no_realized_profit e ->
  no_realized_profit (with_tradingState (fun s => set_activeOrders (f s) s) e).
Proof. intros Hl (Hpnl & Htrades & Hlevels & Hactive & Hfilled). repeat split; assumption. Qed.

Lemma set_filledOrders_keeps (f : TradingState.t -> list GridOrder.t) (e : t) :
  Forall finite_order (f (tradingState e)) ->
  no_realized_profit e ->
  no_realized_profit (with_tradingState (fun s => set_filledOrders (f s) s) e).
Proof. intros Hl (Hpnl & Htrades & Hlevels & Hactive & Hfilled). repeat split; assumption. Qed.

Lemma set_gridLevels_keeps (f : TradingState.t -> list GridLevel.t) (e : t) :
  Forall finite_level (f (tradingState e)) ->
  no_realized_profit e ->
  no_realized_profit (with_tradingState (fun s => set_gridLevels (f s) s) e).
Proof. intros Hl (Hpnl & Htrades & Hlevels & Hactive & Hfilled). repeat split; assumption. Qed.

Lemma push_trade_keeps (trade : HistoricalTrade.t) (e : t) :
  zero_profit trade -> no_realized_profit e -> no_realized_profit (push_trade trade e).
Proof.
  intros Ht (Hpnl & Htrades & Hlevels & Hactive & Hfilled).
  repeat split; try assumption. cbn. apply Forall_app. split; [ assumption | ].
  constructor; [ exact Ht | constructor ].
Qed.

Lemma update_at_Forall {A} (P : A -> Prop) (i : nat) (v : A) (l : list A) :
  P v -> Forall P l -> Forall P (update_at i v l).
Proof.
  intros Hv Hl. revert i. induction Hl as [| x l Hx Hl IH]; intro i; cbn [update_at].
  - destruct i; constructor.
  - destruct i; constructor; auto.
Qed.

Lemma find_level_In (id : string) (levels : list GridLevel.t) :
  forall start i level, find_level id start levels = Some (i, level) -> In level levels.
Proof.
  induction levels as [| l levels IH]; intros start i level; cbn [find_level];
    [ discriminate | ].
  destruct (_ || _).
  - intro E. injection E as _ <-. left. reflexivity.
  - intro E. right. exact (IH _ _ _ E).
Qed.

End RealizedPnL.

Section EngineInvariant.
Import Effects ExecutionEngine EngineSpec.
Context {X : Type} {EC : ExchangeConnector X}.

Local Notation "'keeps_invariant'" := (keeps (X := X) no_realized_profit).

Lemma placeOrder_keeps (order : GridOrder.t) :
  finite_order order -> keeps_invariant finite_order (placeOrder order).
Proof.
  intro Ho. unfold placeOrder. apply keeps_try_catch.
  - eapply keeps_bind; [ apply keeps_call | intros exchangeOrderId _ ].
    eapply keeps_bind; [ apply keeps_logger | intros _ _ ].
    apply keeps_ret. exact Ho.
  - intro err. eapply keeps_bind; [ apply keeps_logger | intros _ _ ].
    apply keeps_throw.
Qed.

Lemma place_if_pending_keeps (o : option GridOrder.t) :
  finite_attached o -> keeps_invariant (Forall finite_order) (place_if_pending o).
Proof.
  intro Ho. unfold place_if_pending, pending_order.
  destruct o as [order |]; [ | apply keeps_ret; constructor ].
  destruct (OrderStatus_eqb _ _); [ | apply keeps_ret; constructor ].
  eapply keeps_bind; [ apply placeOrder_keeps; exact Ho | intros placed Hplaced ].
  apply keeps_ret. constructor; [ exact Hplaced | constructor ].
Qed.

Lemma place_level_keeps (level : GridLevel.t) :
  finite_level level -> keeps_invariant (Forall finite_order) (place_level level).
Proof.
  intros (_ & Hbuy & Hsell). unfold place_level.
  destruct (negb _); [ apply keeps_ret; constructor | ].
  apply keeps_try_catch.
  - eapply keeps_bind; [ apply place_if_pending_keeps; exact Hbuy | intros placedBuy HplacedBuy ].
    apply keeps_try_catch.
    + eapply keeps_bind; [ apply place_if_pending_keeps; exact Hsell | intros placedSell Hps ].
      apply keeps_ret. apply Forall_app. auto.
    + intro err. eapply keeps_bind; [ apply keeps_logger | intros _ _ ].
      apply keeps_ret. exact HplacedBuy.
  - intro err. eapply keeps_bind; [ apply keeps_logger | intros _ _ ].
    apply keeps_ret. constructor.
Qed.

Lemma filter_Forall {A} (P : A -> Prop) (f : A -> bool) (l : list A) :
  Forall P l -> Forall P (filter f l).
Proof.
  intro Hl. apply Forall_forall. intros x Hx. apply filter_In in Hx.
  rewrite Forall_forall in Hl. apply Hl, Hx.
Qed.

Lemma placeGridOrders_keeps : keeps_invariant anything placeGridOrders.
Proof.
  unfold placeGridOrders.
  eapply keeps_bind; [ apply keeps_get | intros e He ].
  eapply keeps_bind.
  - apply keeps_for_collect. intros level Hlevel. apply place_level_keeps.
    destruct He as (_ & _ & Hlevels & _). rewrite Forall_forall in Hlevels. auto.
  - intros placedOrders Hplaced.
    eapply keeps_bind; [ | intros _ _; apply keeps_logger ].
    apply keeps_modify. intros s Hs.
    apply (set_activeOrders_keeps
             (fun st => filter (fun order => negb (some_id placedOrders order))
                               (TradingState.activeOrders st) ++ placedOrders));
      [ | exact Hs ].
    apply Forall_app. split; [ | exact Hplaced ].
    apply filter_Forall. apply Hs.
Qed.

Lemma initialize_keeps : keeps_invariant anything initialize.
Proof.
  unfold initialize. apply keeps_try_catch.
  - eapply keeps_bind; [ apply keeps_logger | intros _ _ ].
    eapply keeps_bind; [ apply keeps_call | intros currentPrice _ ].
    eapply keeps_bind; [ apply keeps_modify; apply set_currentPrice_keeps | intros _ _ ].
    eapply keeps_bind; [ apply keeps_modify; apply push_price_keeps | intros _ _ ].
    eapply keeps_bind; [ apply placeGridOrders_keeps | intros _ _ ].
    eapply keeps_bind; [ apply keeps_modify; apply updatePerformanceMetrics_keeps | intros _ _ ].
    apply keeps_logger.
  - intro err. eapply keeps_bind; [ apply keeps_logger | intros _ _ ].
    apply keeps_throw.
Qed.

Lemma check_fill_keeps (order : GridOrder.t) :
  finite_order order -> keeps_invariant (Forall finite_order) (check_fill order).
Proof.
  intro Ho. unfold check_fill.
  destruct (exchange_id order) as [exchangeOrderId |]; [ | apply keeps_ret; constructor ].
  apply keeps_try_catch.
  - eapply keeps_bind; [ apply keeps_call | intros orderStatus _ ].
    destruct (OrderStatus_eqb orderStatus filled); [ | apply keeps_ret; constructor ].
    eapply keeps_bind; [ apply keeps_logger | intros _ _ ].
    apply keeps_ret. constructor; [ exact Ho | constructor ].
  - intro err. eapply keeps_bind; [ apply keeps_logger | intros _ _ ].
    apply keeps_ret. constructor.
Qed.

Lemma checkOrderFills_keeps : keeps_invariant (Forall finite_order) checkOrderFills.
Proof.
  unfold checkOrderFills.
  eapply keeps_bind; [ apply keeps_get | intros e He ].
  apply keeps_for_collect. intros order Horder. apply check_fill_keeps.
  destruct He as (_ & _ & _ & Hactive & _). rewrite Forall_forall in Hactive. auto.
Qed.

Lemma recordTrade_keeps (order : GridOrder.t) (gridLevelIndex : nat) :
  finite_order order -> keeps_invariant anything (recordTrade order gridLevelIndex).
Proof.
  intro Ho. unfold recordTrade.
  eapply keeps_bind; [ apply keeps_get | intros e He ].
  eapply keeps_bind; [ apply keeps_call | intros timestamp _ ].
  apply keeps_modify. intros s Hs. apply push_trade_keeps; [ | exact Hs ].
  apply trade_profit_zero; [ exact Ho | apply He ].
Qed.

Lemma replace_filled_keeps (filledOrder : GridOrder.t) :
  finite_order filledOrder ->
  keeps_invariant (Forall finite_order) (replace_filled filledOrder).
Proof.
  intro Hf. unfold replace_filled.
  eapply keeps_bind; [ apply keeps_get | intros e He ].
  destruct (find_level _ 0 _) as [[gridLevelIndex gridLevel] |] eqn:Efind;
    [ | apply keeps_ret; constructor ].
  assert (Hlevel : finite_level gridLevel).
  { apply find_level_In in Efind. destruct He as (_ & _ & Hlevels & _).
    rewrite Forall_forall in Hlevels. auto. }
  apply keeps_try_catch.
  - cbv zeta. eapply keeps_bind.
    + apply placeOrder_keeps. split; [ apply Hlevel | apply Hf ].
    + intros placedOrder Hplaced.
      eapply keeps_bind.
      * apply keeps_modify. intros s Hs.
        apply (set_gridLevels_keeps
                 (fun st => update_at gridLevelIndex _ (TradingState.gridLevels st)));
          [ | exact Hs ].
        apply update_at_Forall; [ | apply Hs ].
        destruct (oppositeSide _);
          (split; [ apply Hlevel | split; cbn; first [ exact Hplaced | exact Logic.I ] ]).
      * intros _ _. eapply keeps_bind; [ apply recordTrade_keeps; exact Hf | intros _ _ ].
        apply keeps_ret. constructor; [ exact Hplaced | constructor ].
  - intro err. eapply keeps_bind; [ apply keeps_logger | intros _ _ ].
    apply keeps_ret. constructor.
Qed.

(** [processFilledOrders] keeps the invariant, whatever finite orders it
    is given. *)
Lemma processFilledOrders_keeps (filledOrders : list GridOrder.t) :
  Forall finite_order filledOrders ->
  keeps_invariant anything (processFilledOrders filledOrders).
Proof.
  intro Hf. unfold processFilledOrders.
  eapply keeps_bind.
  { apply keeps_modify. intros s Hs.
    apply (set_activeOrders_keeps
             (fun st => filter (fun order => negb (some_id filledOrders order))
                               (TradingState.activeOrders st)));
      [ | exact Hs ].
    apply filter_Forall, Hs. }
  intros _ _. eapply keeps_bind.
  { apply keeps_modify. intros s Hs.
    apply (set_filledOrders_keeps
             (fun st => TradingState.filledOrders st ++ filledOrders));
      [ | exact Hs ].
    apply Forall_app. split; [ apply Hs | exact Hf ]. }
  intros _ _. eapply keeps_bind.
  { apply keeps_modify. intros s Hs. now apply calculateRealizedPnL_keeps. }
  intros _ _. eapply keeps_bind.
  { apply keeps_for_collect. intros f Hin. apply replace_filled_keeps.
    rewrite Forall_forall in Hf. auto. }
  intros newOrders Hnew. eapply keeps_bind; [ | intros _ _; apply keeps_logger ].
  apply keeps_modify. intros s Hs.
  apply (set_activeOrders_keeps (fun st => TradingState.activeOrders st ++ newOrders));
    [ | exact Hs ].
  apply Forall_app. split; [ apply Hs | exact Hnew ].
Qed.

Lemma updateMarketData_keeps : keeps_invariant anything updateMarketData.
Proof.
  unfold updateMarketData. apply keeps_try_catch.
  - eapply keeps_bind; [ apply keeps_call | intros currentPrice _ ].
    eapply keeps_bind; [ apply keeps_modify; apply set_currentPrice_keeps | intros _ _ ].
    eapply keeps_bind; [ apply keeps_modify; apply push_price_keeps | intros _ _ ].
    eapply keeps_bind; [ apply checkOrderFills_keeps | intros filledOrders Hfilled ].
    eapply keeps_bind.
    + destruct (Nat.ltb 0 (length filledOrders)).
      * now apply processFilledOrders_keeps.
      * now apply keeps_ret.
    + intros _ _.
      eapply keeps_bind; [ apply keeps_modify; apply updatePerformanceMetrics_keeps | intros _ _ ].
      apply keeps_logger.
  - intro err. apply keeps_logger.
Qed.

Lemma cancelAllOrders_keeps : keeps_invariant anything cancelAllOrders.
Proof.
  intros e w He. pose proof (cancelAllOrders_spec e w) as S. cbv zeta in S.
  destruct (cancelAllOrders e w) as [[[u | err] e'] w'].
  - destruct S as [-> _]. split; [ | exact Logic.I ].
    apply (set_activeOrders_keeps (fun _ => [])); [ constructor | exact He ].
  - destruct S as [-> _]. exact He.
Qed.

Lemma keeps_state_after {A} (Q : A -> Prop) (m : M X t A) (e : t) (w : World X) :
  keeps_invariant Q m -> no_realized_profit e -> no_realized_profit (state_after m e w).
Proof.
  intros Hm He. specialize (Hm e w He). unfold state_after.
  destruct (m e w) as [[[a | err] e'] w']; cbn; [ apply Hm | exact Hm ].
Qed.

Lemma reachable_invariant (e : t) : reachable e -> no_realized_profit e.
Proof.
  induction 1 as [initialState Hpnl Hfinite | e w _ IH | e w _ IH | e w _ IH
                  | e w filledOrders Hf _ IH].
  - repeat split; try assumption; try apply Hfinite. constructor.
  - exact (keeps_state_after w initialize_keeps IH).
  - exact (keeps_state_after w updateMarketData_keeps IH).
  - exact (keeps_state_after w cancelAllOrders_keeps IH).
  - exact (keeps_state_after w (processFilledOrders_keeps Hf) IH).
Qed.

(** C2.  In every engine state reached from an engine created on a
    trading state with no realized P&L and finite prices and sizes, by
    [initialize], [updateMarketData], [cancelAllOrders] and
    [processFilledOrders] on orders of finite price and size, in any
    order and against any exchange, the realized P&L is zero and every
    recorded trade has a profit of zero: a filled order is only paired
    with a filled order of the same price, and [(p - p) * size] is zero
    for a finite size. *)
Theorem realized_pnl_is_zero (e : t) :
  reachable e ->
  is_value (TradingState.realizedPnL (tradingState e)) 0
  /\ Forall (fun trade => is_value (HistoricalTrade.profit trade) 0) (historicalTrades e).
Proof.
  intro He. destruct (reachable_invariant He) as (Hpnl & Htrades & _). auto.
Qed.

End EngineInvariant.

Section EngineExamples.
Import Effects ExecutionEngine EngineSpec.

(** One cycle on the sample engine: the sell order at 100 is reported
    filled, it is paired with the buy order filled at 100 before, and the
    trade is recorded with a profit of zero. *)
Example sample_cycle :
  let e := state_after (@updateMarketData _ recording_exchange) sample_engine empty_world in
  map HistoricalTrade.profit (historicalTrades e) = [Fin 0]
  /\ map HistoricalTrade.side (historicalTrades e) = [sell]
  /\ TradingState.realizedPnL (tradingState e) = Fin 0
  /\ map GridOrder.side (TradingState.activeOrders (tradingState e)) = [buy].
Proof. repeat split. Qed.

Lemma realized_pnl_is_zero_witness :
  let e := state_after (@updateMarketData _ recording_exchange) sample_engine empty_world in
  is_value (TradingState.realizedPnL (tradingState e)) 0
  /\ Forall (fun trade => is_value (HistoricalTrade.profit trade) 0) (historicalTrades e).
Proof.
  cbv zeta. apply (@realized_pnl_is_zero _ recording_exchange).
  apply reach_updateMarketData. apply reach_constructor.
  - reflexivity.
  - repeat split; repeat constructor.
Defined.

(** Without finite sizes the realized P&L does not stay zero.  The bot
    configured with a custom pattern of zeros, which [validateConfig]
    accepts, gives every order the size [0 / 0]; the engine is created
    with no realized P&L, and once an order and its replacement at the
    same price are both filled the P&L is [(p - p) * NaN]. *)
Lemma realized_pnl_nan_after_zero_pattern :
  Config.validateConfig BotSpec.zero_pattern_config = Ok tt
  /\ TradingState.realizedPnL
       (BotSpec.initial_state GridSpec.no_math BotSpec.zero_pattern_config (Fin 100) None)
     = Fin 0
  /\ TradingState.realizedPnL (tradingState BotSpec.after_two_updates) = NaN
  /\ map HistoricalTrade.profit (historicalTrades BotSpec.after_two_updates)
     = [Fin 0; Fin 0; Fin 0; Fin 0; NaN; NaN; NaN; NaN].
Proof. repeat split; vm_compute; reflexivity. Qed.

(** The same bot with the equal allocation: the sizes are finite and the
    realized P&L is still zero after the same calls. *)
Example realized_pnl_zero_after_equal_allocation :
  let e :=
    fst (BotSpec.then_run (@updateMarketData _ recording_exchange)
           (BotSpec.then_run (@updateMarketData _ recording_exchange)
              (BotSpec.then_run (@initialize _ recording_exchange)
                 (constructor
                    (BotSpec.initial_state GridSpec.no_math GridSpec.five_levels_config (Fin 100)
                       None),
                  empty_world)))) in
  is_value (TradingState.realizedPnL (tradingState e)) 0
  /\ length (historicalTrades e) = 8%nat
  /\ Forall (fun trade => is_value (HistoricalTrade.profit trade) 0) (historicalTrades e).
Proof.
  cbv zeta. split; [ vm_compute; reflexivity | ].
  split; [ vm_compute; reflexivity | ].
  vm_compute. repeat constructor.
Qed.

End EngineExamples.

Section StopLossScenario.
Import RiskManager.

(** The scenario of the specification: a basic stop-loss of 5 percent at a
    price of 100 puts the stop at 95; it is triggered at 94 and not at
    96. *)
Example basic_stop_loss_scenario :
  let cfg :=
    RiskManagementConfig.mk
      (BasicStopLossConfig.mk true (Fin 5) HARD)
      (DynamicStopLossConfig.mk false (Fin 3) (Fin (1 # 2)) (Fin 10))
      (TrailingStopLossConfig.mk false (Fin 2) (Fin 1) false) in
  let r := constructor cfg (Fin 100) in
  (exists stop, stopLossPrice r = Some stop /\ is_value stop 95)
  /\ isStopLossTriggered r (Fin 94) = true
  /\ isStopLossTriggered r (Fin 96) = false.
Proof.
  cbv zeta. split; [ eexists; split; reflexivity | split; reflexivity ].
Qed.

End StopLossScenario.

Section VolatilityGrid.
Import GridGenerator VolatilitySpec.

(** Levels of equal price do occur: with an odd number of levels the
    volatility-based grid puts both its first and its middle level on the
    midpoint of the range, whatever finite values [Math.exp] returns. *)
Lemma volatility_grid_repeats_midpoint (M : MathLib) :
  (forall x, finite (Math_exp M x)) ->
  is_value (volatility_price M five_volatility_levels 0) 100
  /\ is_value (volatility_price M five_volatility_levels 2) 100.
Proof.
  intro Hexp. unfold volatility_price, five_volatility_levels. cbn.
  split.
  - match goal with |- context [Math_exp M ?x] =>
      pose proof (Hexp x) as F; destruct (Math_exp M x) as [v| | |]; try contradiction
    end.
    cbn. change (inject_Z 0) with 0%Q. change (inject_Z 5) with 5%Q. field.
  - match goal with |- context [Math_exp M ?x] =>
      pose proof (Hexp x) as F; destruct (Math_exp M x) as [v| | |]; try contradiction
    end.
    cbn. change (inject_Z 2) with 2%Q. change (inject_Z 5) with 5%Q. field.
Qed.

End VolatilityGrid.

(* ===================================================================== *)
(** * The shape of the generated grids *)
(* ===================================================================== *)

Section GridShape.
Import GridGenerator GridSpec GridShapeSpec.

Lemma grid_denominator_pos (n : Z) : (2 <= n)%Z -> (0 < inject_Z n + - 1)%Q.
Proof.
  intro Hn. assert (H : (inject_Z 2 <= inject_Z n)%Q) by (now rewrite <- Zle_Qle).
  change (inject_Z 2) with 2%Q in H. lra.
Qed.

Lemma indices_length (g : t) :
  length (indices g) = Z.to_nat (GridConfig.numberOfGrids (config g)).
Proof. unfold indices. apply length_seq. Qed.





(** ** Arithmetic grids *)








(** ** A linear grid followed by the closest-level pass *)

Lemma linear_grid_levels (g : t) (l u : Q) :
  GridConfig.lowerBound (config g) = Fin l ->
  GridConfig.upperBound (config g) = Fin u ->
  (2 <= GridConfig.numberOfGrids (config g))%Z ->
  generateLinearGrid g
  = map (fun i => new_level g
                    (Fin (l + linear_step l u (GridConfig.numberOfGrids (config g))
                              * inject_Z (Z.of_nat i))))
        (indices g).
Proof.
  intros Hl Hu Hn. unfold generateLinearGrid. apply map_ext. intro i.
  rewrite Hl, Hu. unfold of_nat, of_Z.
  change (Fin u - Fin l) with (Fin (u + - l)).
  change (Fin (inject_Z (GridConfig.numberOfGrids (config g))) - Fin 1)
    with (Fin (inject_Z (GridConfig.numberOfGrids (config g)) + - 1)).
  rewrite div_Fin_nonzero; [ reflexivity | ].
  pose proof (grid_denominator_pos Hn). lra.
Qed.

Lemma inject_nat_lt (a b : nat) :
  (a < b)%nat -> (inject_Z (Z.of_nat a) < inject_Z (Z.of_nat b))%Q.
Proof. intro H. rewrite <- Zlt_Qlt. lia. Qed.

(** Levels at [l + s * i] for increasing counters and a positive step
    have pairwise distinct, finite prices. *)
Lemma stepped_levels_distinct (g : t) (l s : Q) (len : nat) :
  (0 < s)%Q ->
  forall start,
    distinct_prices
      (map (fun i => new_level g (Fin (l + s * inject_Z (Z.of_nat i))))
           (List.seq start len)).
Proof.
  intro Hs. unfold distinct_prices.
  induction len as [| len IH]; intro start; cbn [List.seq map]; constructor.
  - apply Forall_forall. intros level Hlevel. apply in_map_iff in Hlevel.
    destruct Hlevel as (j & <- & Hj). apply in_seq in Hj.
    cbn [new_level GridLevel.price].
    destruct (Fin _ === Fin _) eqn:E; [ | reflexivity ].
    apply strict_eq_Fin in E.
    assert (Hlt : (inject_Z (Z.of_nat start) < inject_Z (Z.of_nat j))%Q)
      by (apply inject_nat_lt; lia).
    assert (Hm : (s * inject_Z (Z.of_nat start) < s * inject_Z (Z.of_nat j))%Q)
      by (apply Qmult_lt_l; assumption).
    lra.
  - apply IH.
Qed.

Lemma stepped_levels_finite (g : t) (f : nat -> Q) (counters : list nat) :
  Forall finite_price (map (fun i => new_level g (Fin (f i))) counters).
Proof.
  induction counters as [| i counters IH]; constructor; [ exact I | exact IH ].
Qed.

Lemma inactive_count_all_active (l : list GridLevel.t) :
  filter (fun level => negb (GridLevel.isActive level))
         (map (GridLevel.with_isActive true) l) = [].
Proof. induction l as [| x l IH]; [ reflexivity | exact IH ]. Qed.

(** The closest-level pass on levels of finite, pairwise distinct
    prices. *)
Lemma closest_pass (g : t) (levels : list GridLevel.t) (p : Q) :
  levels <> [] ->
  Forall finite_price levels ->
  distinct_prices levels ->
  exists levels' closest,
    snd (updateGridLevels g levels (Fin p)) = Ok levels'
    /\ In closest levels
    /\ inactive_count levels' = 1%nat
    /\ map GridLevel.price levels' = map GridLevel.price levels
    /\ Forall (fun level =>
                 (distance (Fin p) closest <=? distance (Fin p) level) = true) levels.
Proof.
  intros Hne Hfin Hdist.
  destruct levels as [| first rest]; [ contradiction | ].
  inversion Hfin as [| ? ? Hfirst Hrest]; subst.
  destruct (closest_loop_spec p Hrest first Hfirst) as (Hin & Hf & Hle & Hall).
  cbv zeta in Hin, Hf, Hle, Hall.
  set (found := closest_loop (Fin p) first (distance (Fin p) first) rest) in *.
  destruct (in_split _ _ Hin) as (before & after & Hsplit).
  eexists. exists found. split; [ reflexivity | ].
  split; [ exact Hin | ].
  assert (Hmap : map (fun level =>
                        GridLevel.with_isActive
                          (GridLevel.price level !== GridLevel.price found) level)
                     (first :: rest)
                 = map (GridLevel.with_isActive true) before
                   ++ GridLevel.with_isActive false found
                   :: map (GridLevel.with_isActive true) after).
  { rewrite Hsplit in Hdist |- *.
    destruct (distinct_prices_split _ _ _ Hdist) as [Hb Ha].
    rewrite map_app. cbn [map].
    rewrite (@map_flag_active _ _ Hb), (@map_flag_active _ _ Ha).
    now rewrite (strict_ne_refl_finite _ Hf). }
  fold (distance (Fin p) first). fold found.
  split; [ | split ].
  - rewrite Hmap. unfold inactive_count. rewrite filter_app. cbn [filter].
    rewrite !inactive_count_all_active. reflexivity.
  - rewrite map_map. apply map_ext. reflexivity.
  - constructor; assumption.
Qed.

(** X3.  On the linear grid of a configuration with explicit finite bounds
    [lower < upper] and at least two levels, the closest-level pass at any
    finite price leaves exactly one level inactive, a level nearest to
    that price, and changes no price. *)
Theorem linear_grid_then_closest_pass
    (M : MathLib) (cfg : GridConfig.t) (l u p newPrice : Q) (hv : option number) :
  GridConfig.autoRange cfg = false ->
  GridConfig.distributionMethod cfg = LINEAR ->
  GridConfig.lowerBound cfg = Fin l ->
  GridConfig.upperBound cfg = Fin u ->
  (l < u)%Q ->
  (2 <= GridConfig.numberOfGrids cfg)%Z ->
  let g := constructor cfg (Fin p) hv in
  let levels := generateGridLevels M g in
  exists levels' closest,
    snd (updateGridLevels g levels (Fin newPrice)) = Ok levels'
    /\ In closest levels
    /\ inactive_count levels' = 1%nat
    /\ map GridLevel.price levels' = map GridLevel.price levels
    /\ Forall (fun level =>
                 (distance (Fin newPrice) closest <=? distance (Fin newPrice) level)
                 = true) levels.
Proof.
  intros Hauto Hmethod Hl Hu Hlu Hn g levels.
  assert (Hg : config g = cfg) by (subst g; unfold constructor; now rewrite Hauto).
  assert (Hlevels : levels
                    = map (fun i => new_level g
                             (Fin (l + linear_step l u (GridConfig.numberOfGrids cfg)
                                       * inject_Z (Z.of_nat i))))
                          (indices g)).
  { subst levels. unfold generateGridLevels. rewrite Hg, Hmethod.
    rewrite (linear_grid_levels g (l := l) (u := u)); rewrite Hg; auto. }
  pose proof (grid_denominator_pos Hn) as Hd.
  apply closest_pass.
  - rewrite Hlevels. unfold indices. rewrite Hg.
    destruct (Z.to_nat (GridConfig.numberOfGrids cfg)) eqn:E; [ lia | discriminate ].
  - rewrite Hlevels.
    apply (stepped_levels_finite g
             (fun i => (l + linear_step l u (GridConfig.numberOfGrids cfg)
                            * inject_Z (Z.of_nat i))%Q)).
  - rewrite Hlevels. apply stepped_levels_distinct.
    unfold linear_step. apply Qlt_shift_div_l; lra.
Qed.

Lemma linear_grid_then_closest_pass_witness :
  let g := constructor five_levels (Fin 100) None in
  let levels := generateGridLevels no_math g in
  exists levels' closest,
    snd (updateGridLevels g levels (Fin 101)) = Ok levels'
    /\ In closest levels
    /\ inactive_count levels' = 1%nat
    /\ map GridLevel.price levels' = map GridLevel.price levels
    /\ Forall (fun level =>
                 (distance (Fin 101) closest <=? distance (Fin 101) level) = true) levels.
Proof.
  cbv zeta.
  apply (linear_grid_then_closest_pass no_math five_levels (l := 90) (u := 110)
           100 101 None); try reflexivity.
  cbn. lia.
Defined.

(** ** The automatic range *)



(** With a volatility of [0.6] the automatic range around 100 goes from
    [-20] to [220]: the lower bound is negative. *)
Example auto_range_negative_lower_bound :
  let g := constructor auto_range (Fin 100) (Some (Fin (3 # 5))) in
  is_value (fst (bounds g)) (-20) /\ is_value (snd (bounds g)) 220.
Proof. split; reflexivity. Qed.

End GridShape.

(* ===================================================================== *)
(** * What rounding does to the allocations and to the grids *)
(* ===================================================================== *)

Section Rounding.
Import PrimFloat.
Local Open Scope float_scope.


(** The entries [1e16, 1, -1e16, 0, 0] add up to 1, but [reduce] adds
    them from the left and [1e16 + 1] rounds to [1e16]: the sum it returns
    is 0 and the sizes are infinite or [NaN]. *)
Example custom_allocation_cancelling_pattern :
  let sizes :=
    Binary64.calculateCustomAllocation 1000 1 Binary64.cancelling_pattern
      Binary64.five_prices in
  eqb (Binary64.sum Binary64.cancelling_pattern) 0 = true
  /\ map is_infinity sizes = [true; true; true; false; false]
  /\ map is_nan sizes = [false; false; false; true; true].
Proof. repeat split. Qed.

(** The last of twelve linear levels between 10 and 110 is above 110, and
    the last arithmetic level is above 110 for twelve levels between 10
    and 110 and below it for seven levels between 90 and 110. *)
Example last_level_misses_upper_bound :
  ltb 110 (nth 11 (Binary64.generateLinearGrid 12 110 10) 0) = true
  /\ ltb 110 (nth 11 (Binary64.generateArithmeticGrid 12 110 10) 0) = true
  /\ ltb (nth 6 (Binary64.generateArithmeticGrid 7 110 90) 0) 110 = true.
Proof. repeat split. Qed.

End Rounding.

(* ===================================================================== *)
(** * Orders of a fresh grid *)
(* ===================================================================== *)

Section FreshGridOrders.
Import GridGenerator OrderAllocator GridSpec OrdersSpec.
Context {U : Type} {IDS : IdSource U}.

Lemma new_levels_fresh (g : GridGenerator.t) (f : nat -> number) (counters : list nat) :
  Forall (fresh_level g) (map (fun i => new_level g (f i)) counters).
Proof.
  induction counters as [| i counters IH]; constructor; [ eexists; reflexivity | exact IH ].
Qed.

Lemma arithmetic_loop_fresh (g : GridGenerator.t) (d : number) (counters : list nat) :
  forall cur, Forall (fresh_level g) (arithmetic_loop g d cur counters).
Proof.
  induction counters as [| i counters IH]; intro cur; cbn [arithmetic_loop];
    constructor; [ eexists; reflexivity | apply IH ].
Qed.

Lemma insert_level_Forall (P : GridLevel.t -> Prop) (x : GridLevel.t) (l : list GridLevel.t) :
  P x -> Forall P l -> Forall P (insert_level x l).
Proof.
  intros Hx Hl. induction Hl as [| y l Hy Hl IH]; cbn [insert_level].
  - constructor; [ exact Hx | constructor ].
  - destruct (_ <? _); repeat constructor; assumption.
Qed.

Lemma sort_by_price_Forall (P : GridLevel.t -> Prop) (l : list GridLevel.t) :
  Forall P l -> Forall P (sort_by_price l).
Proof.
  unfold sort_by_price.
  assert (G : forall acc, Forall P acc -> Forall P l ->
                          Forall P (fold_left (fun a x => insert_level x a) l acc)).
  { induction l as [| x l IH]; intros acc Hacc Hl; cbn [fold_left]; [ exact Hacc | ].
    inversion Hl; subst. apply IH; [ apply insert_level_Forall | ]; assumption. }
  intro Hl. apply G; [ constructor | exact Hl ].
Qed.

(** Every level of a generated grid is built by [new_level]. *)
Lemma generated_levels_fresh (M : MathLib) (g : GridGenerator.t) :
  Forall (fresh_level g) (generateGridLevels M g).
Proof.
  unfold generateGridLevels.
  assert (L : Forall (fresh_level g) (generateLinearGrid g))
    by apply new_levels_fresh.
  destruct (GridConfig.distributionMethod (GridGenerator.config g)); try exact L.
  - apply arithmetic_loop_fresh.
  - apply new_levels_fresh.
  - unfold generateVolatilityBasedGrid.
    destruct (volatility_missing _); [ exact L | ].
    apply sort_by_price_Forall, new_levels_fresh.
Qed.

Lemma compare_finite (x y : number) :
  finite x -> finite y ->
  (x <? y) = true \/ (x >? y) = true \/ (x === y) = true.
Proof.
  destruct x as [a| | |], y as [b| | |]; try contradiction. intros _ _.
  unfold lt, gt, strict_eq. rewrite compare_Fin.
  destruct (a ?= b); auto.
Qed.

Lemma lt_gt_exclusive (x y : number) : (x <? y) = true -> (x >? y) = false.
Proof. unfold lt, gt. destruct (compare x y) as [[]|]; congruence. Qed.

Lemma strict_eq_not_lt_gt (x y : number) :
  (x === y) = true -> (x <? y) = false /\ (x >? y) = false.
Proof. unfold lt, gt, strict_eq. destruct (compare x y) as [[]|]; split; congruence. Qed.

(** The orders [order_level] gives a level built by [new_level]. *)
Lemma order_level_fresh (a : OrderAllocator.t) (g : GridGenerator.t)
    (buys sells : list number) (level : GridLevel.t) (index : nat) (u : U) :
  finite (currentPrice g) ->
  finite_price level ->
  fresh_level g level ->
  let level' := fst (order_level a (currentPrice g) buys sells level index u) in
  one_sided (currentPrice g) level'
  /\ GridLevel.price level' = GridLevel.price level
  /\ GridLevel.isActive level' = GridLevel.isActive level.
Proof.
  intros Hcp Hfin (price & ->) level'. subst level'. unfold finite_price in Hfin.
  cbn [new_level GridLevel.price] in Hfin.
  unfold order_level, new_level, one_sided, strict_ne.
  cbn [GridLevel.isActive GridLevel.price GridLevel.buyOrder GridLevel.sellOrder].
  destruct (compare_finite _ _ Hfin Hcp) as [Hlt | [Hgt | Heq]].
  - assert (Hne : (price === currentPrice g) = false).
    { destruct (price === currentPrice g) eqn:E; [ | reflexivity ].
      apply strict_eq_not_lt_gt in E. destruct E. congruence. }
    rewrite Hne, Hlt, (lt_gt_exclusive _ _ Hlt). cbn [negb].
    destruct (uuidv4 u) as [id u']. cbn. repeat split; assumption.
  - assert (Hne : (price === currentPrice g) = false).
    { destruct (price === currentPrice g) eqn:E; [ | reflexivity ].
      apply strict_eq_not_lt_gt in E. destruct E. congruence. }
    assert (Hlt : (price <? currentPrice g) = false).
    { destruct (price <? currentPrice g) eqn:E; [ | reflexivity ].
      apply lt_gt_exclusive in E. congruence. }
    rewrite Hne, Hlt, Hgt. cbn [negb].
    destruct (uuidv4 u) as [id u']. cbn. repeat split; assumption.
  - rewrite Heq. cbn. repeat split; assumption.
Qed.

Lemma order_levels_fresh (a : OrderAllocator.t) (g : GridGenerator.t)
    (buys sells : list number) (levels : list GridLevel.t) :
  finite (currentPrice g) ->
  Forall finite_price levels ->
  Forall (fresh_level g) levels ->
  forall index u,
    let levels' := fst (order_levels a (currentPrice g) buys sells levels index u) in
    Forall (one_sided (currentPrice g)) levels'
    /\ map GridLevel.price levels' = map GridLevel.price levels
    /\ map GridLevel.isActive levels' = map GridLevel.isActive levels.
Proof.
  intros Hcp Hfin Hfresh. induction Hfin as [| level levels Hl Hfin IH]; intros index u.
  - cbn. repeat split. constructor.
  - inversion Hfresh as [| ? ? Hf Hfresh']; subst. cbn [order_levels].
    pose proof (order_level_fresh a buys sells index u Hcp Hl Hf) as Hone.
    cbv zeta in Hone.
    destruct (order_level a (currentPrice g) buys sells level index u) as [level' u1].
    specialize (IH Hfresh' (S index) u1). cbv zeta in IH.
    destruct (order_levels a (currentPrice g) buys sells levels (S index) u1)
      as [levels' u2].
    cbn [fst map] in *. destruct Hone as (H1 & H2 & H3), IH as (I1 & I2 & I3).
    split; [ constructor; assumption | ]. split; congruence.
Qed.

(** X5.  On a grid generated at a finite current price whose levels have
    finite prices, [generateGridOrders] at that price keeps the prices and
    the active flags and gives every level at most one order: none to a
    level at the current price, one pending buy order at the level's price
    to a level below, one pending sell order at the level's price to a
    level above. *)
Theorem fresh_grid_orders
    (M : MathLib) (g : GridGenerator.t) (a : OrderAllocator.t) (u : U) :
  finite (currentPrice g) ->
  Forall finite_price (generateGridLevels M g) ->
  let levels := generateGridLevels M g in
  let levels' := fst (generateGridOrders a levels (currentPrice g) u) in
  Forall (one_sided (currentPrice g)) levels'
  /\ map GridLevel.price levels' = map GridLevel.price levels
  /\ map GridLevel.isActive levels' = map GridLevel.isActive levels.
Proof.
  intros Hcp Hfin levels levels'. subst levels levels'. unfold generateGridOrders.
  apply order_levels_fresh; [ exact Hcp | exact Hfin | apply generated_levels_fresh ].
Qed.

End FreshGridOrders.

Section FreshGridOrdersExamples.
Import GridGenerator OrderAllocator GridSpec OrdersSpec AllocationSpec.

Lemma fresh_grid_orders_witness :
  let g := constructor five_levels (Fin 100) None in
  let a := allocator EQUAL None 1000 1 in
  let levels := generateGridLevels no_math g in
  let levels' := fst (@generateGridOrders _ counting_ids a levels (Fin 100) 0%nat) in
  Forall (one_sided (Fin 100)) levels'
  /\ map GridLevel.price levels' = map GridLevel.price levels
  /\ map GridLevel.isActive levels' = map GridLevel.isActive levels.
Proof.
  cbv zeta.
  apply (@fresh_grid_orders _ counting_ids no_math
           (constructor five_levels (Fin 100) None)).
  - exact I.
  - repeat constructor.
Defined.

(** The five levels of the scenario at a price of 100: buy orders at 90
    and 95, nothing at 100, sell orders at 105 and 110. *)
Example five_levels_orders :
  let g := constructor five_levels (Fin 100) None in
  let a := allocator EQUAL None 1000 1 in
  let levels' :=
    fst (@generateGridOrders _ counting_ids a (generateGridLevels no_math g) (Fin 100) 0%nat) in
  map (fun level => option_map GridOrder.id (GridLevel.buyOrder level)) levels'
  = [Some "id-0"; Some "id-1"; None; None; None]%string
  /\ map (fun level => option_map GridOrder.id (GridLevel.sellOrder level)) levels'
     = [None; None; None; Some "id-2"; Some "id-3"]%string.
Proof. split; reflexivity. Qed.

End FreshGridOrdersExamples.

(* ===================================================================== *)
(** * The signs of the weighted and of the custom sizes *)
(* ===================================================================== *)

Section WeightedSizes.
Import OrderAllocator AllocationSpec.

Lemma weight_value_interior (n i : nat) :
  (0 < i < n - 1)%nat -> (0 < weight_value n i)%Q.
Proof.
  intro Hi. unfold weight_value. apply triangle_pos.
  assert (Hn : (2 <= n)%nat) by lia.
  pose proof (denominator_pos Hn) as Hd.
  assert (H0 : (0 < inject_Z (Z.of_nat i))%Q)
    by (change 0%Q with (inject_Z 0); rewrite <- Zlt_Qlt; lia).
  assert (H1 : (inject_Z (Z.of_nat i) < inject_Z (Z.of_nat n) + - 1)%Q).
  { assert (H : (inject_Z (Z.of_nat i + 1) < inject_Z (Z.of_nat n))%Q)
      by (rewrite <- Zlt_Qlt; lia).
    rewrite inject_Z_plus in H. change (inject_Z 1) with 1%Q in H. lra. }
  split.
  - apply Qlt_shift_div_l; lra.
  - apply Qlt_shift_div_r; lra.
Qed.

(** X6.  Under weighted allocation over [n >= 3] levels the weights sum
    to a positive number and the size of level [i] is
    [totalInvestment * leverage * (weight_i / weightSum) / price_i], the
    quotient the code computes.  For a finite investment with
    [0 < T * L] and levels of finite positive price, no size is negative
    and the size of every level between the first and the last is
    strictly positive. *)
Theorem weighted_allocation_interior
    (a : t) (levels : list GridLevel.t) (T L : Q) :
  OrderConfig.allocationMethod (orderConfig a) = WEIGHTED ->
  (3 <= length levels)%nat ->
  InvestmentConfig.totalInvestment (investmentConfig a) = Fin T ->
  InvestmentConfig.leverage (investmentConfig a) = Fin L ->
  (0 < T * L)%Q ->
  Forall positive_price levels ->
  let n := length levels in
  let sizes := calculateOrderSizes a levels in
  let weightSum := sum (map (weight n) (List.seq 0 n)) in
  sellOrderSizes sizes = buyOrderSizes sizes
  /\ length (buyOrderSizes sizes) = n
  /\ (Fin 0 <? weightSum) = true
  /\ forall i level,
       nth_error levels i = Some level ->
       at_index (buyOrderSizes sizes) i
       = Fin T * Fin L * (weight n i / weightSum) / GridLevel.price level
       /\ (Fin 0 <=? at_index (buyOrderSizes sizes) i) = true
       /\ ((0 < i < n - 1)%nat -> (Fin 0 <? at_index (buyOrderSizes sizes) i) = true).
Proof.
  intros Hmethod Hn HT HL Hcap Hpos n sizes weightSum.
  subst sizes. unfold calculateOrderSizes. rewrite Hmethod.
  unfold calculateWeightedAllocation. cbn [buyOrderSizes sellOrderSizes]. fold n.
  fold weightSum.
  split; [ reflexivity | ]. split; [ apply mapi_length | ].
  destruct (weightSum_pos Hn) as (W & HW & HWpos). fold n in HW. fold weightSum in HW.
  split; [ rewrite HW; now apply lt_Fin | ].
  intros i level Hlevel.
  assert (Hi : (i < n)%nat) by (apply nth_error_Some; congruence).
  match goal with
  | |- ?size = _ /\ _ =>
      assert (Hsize : size = Fin T * Fin L * (weight n i / weightSum)
                             / GridLevel.price level)
  end.
  { unfold at_index at 1. rewrite (@mapi_nth _ _ _ _ _ _ NaN Hlevel).
    rewrite (normalized_weight _ Hi).
    unfold adjustedInvestment. now rewrite HT, HL. }
  rewrite Hsize. split; [ reflexivity | ].
  rewrite Forall_forall in Hpos.
  destruct (Hpos level (nth_error_In _ _ Hlevel)) as (p & -> & Hp).
  rewrite HW, weight_Fin by lia. cbn [mul].
  rewrite div_Fin_nonzero by lra. cbn [mul]. rewrite div_Fin_nonzero by lra.
  assert (Hw : (0 <= weight_value n i)%Q) by (apply weight_value_nonneg; lia).
  assert (Hq : (0 <= weight_value n i / W)%Q) by (apply Qle_shift_div_l; lra).
  split.
  - apply le_Fin. apply Qle_shift_div_l; [ exact Hp | ].
    rewrite Qmult_0_l. apply Qmult_le_0_compat; lra.
  - intro Hinner. apply lt_Fin. apply Qlt_shift_div_l; [ exact Hp | ].
    rewrite Qmult_0_l. apply Qmult_lt_0_compat; [ exact Hcap | ].
    apply Qlt_shift_div_l; [ exact HWpos | ].
    pose proof (@weight_value_interior n i Hinner). lra.
Qed.

Lemma weighted_allocation_interior_witness :
  let a := allocator WEIGHTED None 1000 1 in
  let levels := map GridSpec.level_at [90; 95; 100; 105; 110]%Q in
  let sizes := calculateOrderSizes a levels in
  length (buyOrderSizes sizes) = 5%nat
  /\ (Fin 0 <? at_index (buyOrderSizes sizes) 2) = true.
Proof.
  cbv zeta.
  destruct (@weighted_allocation_interior
              (allocator WEIGHTED None 1000 1)
              (map GridSpec.level_at [90; 95; 100; 105; 110]%Q) 1000 1)
    as (_ & Hlen & _ & H).
  - reflexivity.
  - cbn. lia.
  - reflexivity.
  - reflexivity.
  - reflexivity.
  - repeat (constructor; [ eexists; split; reflexivity | ]). constructor.
  - split; [ exact Hlen | ].
    apply (H 2%nat (GridSpec.level_at 100)); [ reflexivity | cbn; lia ].
Defined.

(** X7.  Under custom allocation with a pattern of the length of the
    grid whose entries are finite and not negative, one of them positive,
    of a finite investment with [0 < T * L] over levels of finite positive
    price: the size of a level is
    [totalInvestment * leverage * (entry / patternSum) / price], no order
    size is negative, a level whose entry is zero gets the size zero and a
    level whose entry is positive a positive size. *)
Theorem custom_allocation_signs
    (a : t) (levels : list GridLevel.t) (pattern : list number) (T L : Q) :
  OrderConfig.allocationMethod (orderConfig a) = CUSTOM ->
  OrderConfig.customAllocationPattern (orderConfig a) = Some pattern ->
  length pattern = length levels ->
  InvestmentConfig.totalInvestment (investmentConfig a) = Fin T ->
  InvestmentConfig.leverage (investmentConfig a) = Fin L ->
  (0 < T * L)%Q ->
  Forall nonnegative_entry pattern ->
  Exists positive_entry pattern ->
  Forall positive_price levels ->
  let sizes := calculateOrderSizes a levels in
  sellOrderSizes sizes = buyOrderSizes sizes
  /\ forall i entry level,
       nth_error pattern i = Some entry ->
       nth_error levels i = Some level ->
       at_index (buyOrderSizes sizes) i
       = Fin T * Fin L * (entry / sum pattern) / GridLevel.price level
       /\ (Fin 0 <=? at_index (buyOrderSizes sizes) i) = true
       /\ (is_value entry 0 -> is_value (at_index (buyOrderSizes sizes) i) 0)
       /\ (positive_entry entry -> (Fin 0 <? at_index (buyOrderSizes sizes) i) = true).
Proof.
  intros Hmethod Hpattern Hlen HT HL Hcap Hnonneg Hsome Hprices sizes.
  assert (Hsizes : calculateOrderSizes a levels
                   = {| buyOrderSizes :=
                          map (fun p => Fin (T * L) * (fst p / sum pattern)
                                        / GridLevel.price (snd p))
                              (combine pattern levels);
                        sellOrderSizes :=
                          map (fun p => Fin (T * L) * (fst p / sum pattern)
                                        / GridLevel.price (snd p))
                              (combine pattern levels) |}).
  { unfold calculateOrderSizes. rewrite Hmethod.
    unfold calculateCustomAllocation. rewrite Hpattern, Hlen, Nat.eqb_refl.
    cbn [negb]. rewrite (custom_sizes _ _ _ Hlen).
    now rewrite (adjustedInvestment_Fin a HT HL). }
  subst sizes. rewrite Hsizes. cbn [buyOrderSizes sellOrderSizes].
  split; [ reflexivity | ].
  intros i entry level Hentry Hlevel.
  assert (Hcode : at_index
                    (map (fun p => Fin (T * L) * (fst p / sum pattern)
                                   / GridLevel.price (snd p))
                         (combine pattern levels)) i
                  = Fin T * Fin L * (entry / sum pattern) / GridLevel.price level).
  { unfold at_index. apply nth_error_nth.
    now rewrite nth_error_map, nth_error_combine, Hentry, Hlevel. }
  split; [ exact Hcode | ]. clear Hcode.
  destruct (nonnegative_entries Hnonneg) as [Hfin Hvalues].
  pose proof (fold_Qplus_pos Hvalues (positive_entry_value Hsome)) as Hsum.
  rewrite (sum_finite Hfin).
  set (W := fold_left Qplus (values pattern) 0) in *.
  rewrite Forall_forall in Hnonneg, Hprices.
  destruct (Hnonneg entry (nth_error_In _ _ Hentry)) as (q & -> & Hq).
  destruct (Hprices level (nth_error_In _ _ Hlevel)) as (p & Hp & Hp0).
  assert (Hsize : at_index
                    (map (fun p => Fin (T * L) * (fst p / Fin W) / GridLevel.price (snd p))
                         (combine pattern levels)) i
                  = Fin (T * L * (q / W) / p)).
  { unfold at_index. apply nth_error_nth.
    rewrite nth_error_map, nth_error_combine, Hentry, Hlevel. cbn [option_map fst snd].
    rewrite Hp, div_Fin_nonzero by lra. cbn [mul]. now rewrite div_Fin_nonzero by lra. }
  rewrite Hsize.
  assert (Hw : (0 <= q / W)%Q) by (apply Qle_shift_div_l; lra).
  split; [ | split ].
  - apply le_Fin. apply Qle_shift_div_l; [ exact Hp0 | ].
    rewrite Qmult_0_l. apply Qmult_le_0_compat; lra.
  - cbn [is_value]. intro Hzero. rewrite Hzero. field. split; lra.
  - intros (q' & E & Hq'). injection E as <-. apply lt_Fin.
    apply Qlt_shift_div_l; [ exact Hp0 | ].
    rewrite Qmult_0_l. apply Qmult_lt_0_compat; [ exact Hcap | ].
    apply Qlt_shift_div_l; lra.
Qed.

Lemma custom_allocation_signs_witness :
  let pattern := [Fin 1; Fin 0; Fin 2; Fin 0; Fin 1] in
  let a := allocator CUSTOM (Some pattern) 1000 1 in
  let levels := map GridSpec.level_at [90; 95; 100; 105; 110]%Q in
  let sizes := calculateOrderSizes a levels in
  is_value (at_index (buyOrderSizes sizes) 1) 0
  /\ (Fin 0 <? at_index (buyOrderSizes sizes) 2) = true.
Proof.
  cbv zeta.
  destruct (@custom_allocation_signs
              (allocator CUSTOM (Some [Fin 1; Fin 0; Fin 2; Fin 0; Fin 1]) 1000 1)
              (map GridSpec.level_at [90; 95; 100; 105; 110]%Q)
              [Fin 1; Fin 0; Fin 2; Fin 0; Fin 1] 1000 1)
    as (_ & H).
  - reflexivity.
  - reflexivity.
  - reflexivity.
  - reflexivity.
  - reflexivity.
  - reflexivity.
  - repeat (constructor; [ eexists; split; [ reflexivity | discriminate ] | ]). constructor.
  - constructor. eexists. split; reflexivity.
  - repeat (constructor; [ eexists; split; reflexivity | ]). constructor.
  - split.
    + destruct (H 1%nat (Fin 0) (GridSpec.level_at 95) eq_refl eq_refl)
        as (_ & _ & Hzero & _).
      apply Hzero. reflexivity.
    + destruct (H 2%nat (Fin 2) (GridSpec.level_at 100) eq_refl eq_refl)
        as (_ & _ & _ & Hpos).
      apply Hpos. eexists. split; reflexivity.
Defined.

End WeightedSizes.

(* ===================================================================== *)
(** * The trading state the engine is created on *)
(* ===================================================================== *)

Section BotState.
Import GridGenerator OrderAllocator GridSpec OrdersSpec AllocationSpec EngineSpec BotSpec.
Context {U : Type} {IDS : IdSource U}.

Lemma order_level_finite (a : OrderAllocator.t) (cp : number) (buys sells : list number)
    (level : GridLevel.t) (index : nat) (u : U) :
  finite_price level ->
  GridLevel.buyOrder level = None ->
  GridLevel.sellOrder level = None ->
  finite (nth index buys NaN) ->
  finite (nth index sells NaN) ->
  finite_level (fst (order_level a cp buys sells level index u)).
Proof.
  intros Hp Hb Hs Hbuy Hsell. unfold order_level, finite_level, finite_price in *.
  destruct (negb (GridLevel.isActive level)).
  { cbn [fst]. rewrite Hb, Hs. repeat split; assumption. }
  destruct (GridLevel.price level <? cp); [ destruct (uuidv4 u) as [id u1] | ];
    (destruct (GridLevel.price level >? cp); [ destruct (uuidv4 _) as [id' u2] | ]);
    cbn [fst GridLevel.price GridLevel.buyOrder GridLevel.sellOrder finite_attached];
    rewrite ?Hb, ?Hs; cbn [finite_attached]; unfold finite_order, grid_order;
    cbn [GridOrder.price GridOrder.size]; repeat split; assumption.
Qed.

Lemma order_levels_finite (a : OrderAllocator.t) (cp : number) (buys sells : list number)
    (levels : list GridLevel.t) :
  Forall finite_price levels ->
  Forall (fun level => GridLevel.buyOrder level = None
                       /\ GridLevel.sellOrder level = None) levels ->
  forall index u,
    (forall i, (index <= i < index + length levels)%nat ->
               finite (nth i buys NaN) /\ finite (nth i sells NaN)) ->
    Forall finite_level (fst (order_levels a cp buys sells levels index u)).
Proof.
  intros Hfin Hnone. induction Hfin as [| level levels Hl Hfin IH]; intros index u Hsizes.
  - constructor.
  - inversion Hnone as [| ? ? [Hb Hs] Hnone']; subst. cbn [order_levels].
    destruct (Hsizes index) as [Hbuy Hsell]; [ cbn [length]; lia | ].
    pose proof (@order_level_finite a cp buys sells level index u Hl Hb Hs Hbuy Hsell)
      as Hone.
    destruct (order_level a cp buys sells level index u) as [level' u1].
    assert (Hrest : forall i, (S index <= i < S index + length levels)%nat ->
                      finite (nth i buys NaN) /\ finite (nth i sells NaN))
      by (intros i Hi; apply Hsizes; cbn [length]; lia).
    specialize (IH Hnone' (S index) u1 Hrest).
    destruct (order_levels a cp buys sells levels (S index) u1) as [levels' u2].
    cbn [fst] in *. now constructor.
Qed.

(** The sizes of the equal allocation of a finite investment over levels
    of finite non-zero price are finite. *)
Lemma equal_sizes_finite (a : OrderAllocator.t) (levels : list GridLevel.t) (T L : Q) :
  InvestmentConfig.totalInvestment (investmentConfig a) = Fin T ->
  InvestmentConfig.leverage (investmentConfig a) = Fin L ->
  Forall nonzero_price levels ->
  forall i, (i < length levels)%nat ->
    finite (nth i (buyOrderSizes (calculateEqualAllocation a levels)) NaN).
Proof.
  intros HT HL Hprices i Hi.
  unfold calculateEqualAllocation. cbn [buyOrderSizes].
  rewrite (adjustedInvestment_Fin a HT HL). unfold of_nat, of_Z.
  rewrite div_Fin_nonzero by (apply of_nat_nonzero; lia).
  destruct (nth_error levels i) as [level |] eqn:Elevel;
    [ | apply nth_error_None in Elevel; lia ].
  erewrite nth_error_nth by (rewrite nth_error_map, Elevel; reflexivity).
  rewrite Forall_forall in Hprices.
  destruct (Hprices level (nth_error_In _ _ Elevel)) as (p & -> & Hp).
  now rewrite div_Fin_nonzero.
Qed.

Lemma fresh_level_bare (g : GridGenerator.t) (levels : list GridLevel.t) :
  Forall (fresh_level g) levels ->
  Forall (fun level => GridLevel.buyOrder level = None
                       /\ GridLevel.sellOrder level = None) levels.
Proof.
  apply Forall_impl. intros level (price & ->). split; reflexivity.
Qed.

Lemma nonzero_price_finite (levels : list GridLevel.t) :
  Forall nonzero_price levels -> Forall finite_price levels.
Proof.
  apply Forall_impl. intros level (p & Hp & _). unfold finite_price. now rewrite Hp.
Qed.

Lemma generateGridOrders_finite (M : MathLib) (g : GridGenerator.t)
    (a : OrderAllocator.t) (cp : number) (T L : Q) (u : U) :
  OrderConfig.allocationMethod (orderConfig a) = EQUAL ->
  InvestmentConfig.totalInvestment (investmentConfig a) = Fin T ->
  InvestmentConfig.leverage (investmentConfig a) = Fin L ->
  Forall nonzero_price (generateGridLevels M g) ->
  Forall finite_level (fst (generateGridOrders a (generateGridLevels M g) cp u)).
Proof.
  intros Hmethod HT HL Hprices. unfold generateGridOrders, calculateOrderSizes.
  rewrite Hmethod.
  apply order_levels_finite.
  - now apply nonzero_price_finite.
  - apply (fresh_level_bare (g := g)). apply generated_levels_fresh.
  - intros i Hi. cbn [Nat.add] in Hi.
    assert (F : finite (nth i (buyOrderSizes
                                 (calculateEqualAllocation a (generateGridLevels M g))) NaN))
      by (apply (equal_sizes_finite a HT HL Hprices); lia).
    split; exact F.
Qed.

End BotState.

Section BotStateTheorem.
Import GridGenerator OrderAllocator GridSpec OrdersSpec AllocationSpec EngineSpec BotSpec.

(** X30.  With the equal allocation of a finite investment, when the
    levels generated for the price and the volatility the exchange
    reports have finite non-zero prices, the trading state on which
    [TradingBot.initialize] creates the engine has no realized P&L, no
    active or filled order, and only finite prices and sizes: the engine
    created on it is one of those whose realized P&L stays zero, against
    any exchange. *)
Theorem bot_state_is_finite (M : MathLib) (cfg : TradingBotConfig.t)
    (currentPrice : number) (historicalVolatility : option number) (T L : Q) :
  OrderConfig.allocationMethod (TradingBotConfig.order cfg) = EQUAL ->
  InvestmentConfig.totalInvestment (TradingBotConfig.investment cfg) = Fin T ->
  InvestmentConfig.leverage (TradingBotConfig.investment cfg) = Fin L ->
  Forall nonzero_price
    (generateGridLevels M
       (constructor (TradingBotConfig.grid cfg) currentPrice historicalVolatility)) ->
  let s := initial_state M cfg currentPrice historicalVolatility in
  TradingState.realizedPnL s = Fin 0
  /\ TradingState.activeOrders s = []
  /\ TradingState.filledOrders s = []
  /\ finite_state s
  /\ forall (X : Type) (EC : Effects.ExchangeConnector X),
       @reachable X EC (ExecutionEngine.constructor s).
Proof.
  intros Hmethod HT HL Hprices s.
  assert (Hfinite : finite_state s).
  { subst s. unfold initial_state, finite_state.
    cbn [TradingState.gridLevels TradingState.activeOrders TradingState.filledOrders].
    split; [ | split; constructor ].
    apply (@generateGridOrders_finite nat counting_ids M _
             (OrderAllocator.mk (TradingBotConfig.order cfg)
                (TradingBotConfig.investment cfg))
             currentPrice T L 0%nat); assumption. }
  split; [ reflexivity | ]. split; [ reflexivity | ]. split; [ reflexivity | ].
  split; [ exact Hfinite | ].
  intros X EC. apply reach_constructor; [ | exact Hfinite ].
  subst s. unfold initial_state. cbn [TradingState.realizedPnL is_value]. reflexivity.
Qed.

Lemma bot_state_is_finite_witness :
  let s := initial_state no_math five_levels_config (Fin 100) None in
  TradingState.realizedPnL s = Fin 0
  /\ TradingState.activeOrders s = []
  /\ TradingState.filledOrders s = []
  /\ finite_state s
  /\ forall (X : Type) (EC : Effects.ExchangeConnector X),
       @reachable X EC (ExecutionEngine.constructor s).
Proof.
  cbv zeta.
  apply (@bot_state_is_finite no_math five_levels_config (Fin 100) None 10000 1).
  - reflexivity.
  - reflexivity.
  - reflexivity.
  - repeat (constructor; [ eexists; split; [ reflexivity | discriminate ] | ]). constructor.
Defined.

End BotStateTheorem.

(* ===================================================================== *)
(** * Executing the stop loss *)
(* ===================================================================== *)

Section SortFacts.
Import JsArray.
Context {A : Type}.
Variable cmp : A -> A -> number.

Lemma insert_by_perm (x : A) (l : list A) : Permutation (insert_by cmp x l) (x :: l).
Proof.
  induction l as [| y l IH]; cbn [insert_by]; [ reflexivity | ].
  destruct (cmp x y <? Fin 0); [ reflexivity | ].
  rewrite IH. apply perm_swap.
Qed.

Lemma sort_by_perm (l : list A) : Permutation (sort_by cmp l) l.
Proof.
  unfold sort_by.
  assert (G : forall acc, Permutation (fold_left (fun a x => insert_by cmp x a) l acc)
                                      (l ++ acc)).
  { induction l as [| x l IH]; intro acc; cbn [fold_left app]; [ reflexivity | ].
    rewrite IH, insert_by_perm. symmetry. apply Permutation_middle. }
  rewrite G. now rewrite app_nil_r.
Qed.

(** When, on elements satisfying [P], [cmp x y < 0] says that [key y] is
    below [key x], for a key with rational values, the sort puts the keys
    of such elements in descending order. *)
Variable P : A -> Prop.
Variable key : A -> Q.
Hypothesis cmp_key :
  forall x y, P x -> P y -> ((cmp x y <? Fin 0) = true <-> (key y < key x)%Q).

Lemma insert_by_sorted (x : A) (l : list A) :
  P x -> Forall P l ->
  StronglySorted (fun a b => key b <= key a)%Q l ->
  StronglySorted (fun a b => key b <= key a)%Q (insert_by cmp x l).
Proof.
  intros Px Pl. induction 1 as [| y l Hl IH Hy]; cbn [insert_by].
  - constructor; constructor.
  - inversion Pl as [| ? ? Py Pl']; subst.
    destruct (cmp x y <? Fin 0) eqn:E.
    + apply (cmp_key Px Py) in E. constructor; [ constructor; assumption | ].
      constructor; [ lra | ].
      eapply Forall_impl; [ | exact Hy ]. cbn. intros b Hb. lra.
    + constructor; [ exact (IH Pl') | ].
      assert (Hxy : (key x <= key y)%Q).
      { destruct (Qlt_le_dec (key y) (key x)) as [L | L]; [ | exact L ].
        apply (cmp_key Px Py) in L. congruence. }
      rewrite insert_by_perm. constructor; assumption.
Qed.

Lemma insert_by_Forall (Q0 : A -> Prop) (x : A) (l : list A) :
  Q0 x -> Forall Q0 l -> Forall Q0 (insert_by cmp x l).
Proof. intros Hx Hl. rewrite insert_by_perm. now constructor. Qed.

Lemma sort_by_sorted (l : list A) :
  Forall P l ->
  StronglySorted (fun a b => key b <= key a)%Q (sort_by cmp l).
Proof.
  unfold sort_by.
  assert (G : forall acc, Forall P l -> Forall P acc ->
                          StronglySorted (fun a b => key b <= key a)%Q acc ->
                          StronglySorted (fun a b => key b <= key a)%Q
                            (fold_left (fun a x => insert_by cmp x a) l acc)).
  { induction l as [| x l IH]; intros acc Hl Pacc Hacc; cbn [fold_left]; [ exact Hacc | ].
    inversion Hl; subst.
    apply IH; [ assumption | now apply insert_by_Forall | now apply insert_by_sorted ]. }
  intro Hl. apply G; [ exact Hl | constructor | constructor ].
Qed.

Lemma sorted_split (k : nat) (l : list A) :
  StronglySorted (fun a b => key b <= key a)%Q l ->
  Forall (fun front => Forall (fun back => key back <= key front)%Q (skipn k l))
         (firstn k l).
Proof.
  intro Hl. revert k. induction Hl as [| x l Hl IH Hx]; intro k.
  - destruct k; constructor.
  - destruct k as [| k]; cbn [firstn skipn]; constructor.
    + apply Forall_forall. intros b Hb. rewrite Forall_forall in Hx.
      apply Hx. rewrite <- (firstn_skipn k l). apply in_or_app. now right.
    + apply IH.
Qed.

End SortFacts.

Section StopLossExecution.
Import JsArray RiskManager StopLossSpec GridSpec ConservationSpec.

Lemma closing_some_levels (f : GridLevel.t -> bool) (levels : list GridLevel.t) :
  Forall2 kept_or_closed levels
          (map (fun level => if f level then close_level level else level) levels).
Proof.
  induction levels as [| level levels IH]; cbn [map]; constructor; [ | exact IH ].
  destruct (f level); [ right | left ]; reflexivity.
Qed.

(** X8.  Whatever the method, [executeStopLoss] returns the levels it was
    given, each either untouched or closed (price kept, orders removed,
    inactive): it never moves, re-prices or activates a level; and it only
    returns orders that were active.  The hard method closes every level
    and returns every active order. *)
Theorem executeStopLoss_only_closes (r : t) (ts : TradingState.t) :
  let res := executeStopLoss r ts in
  Forall2 kept_or_closed (TradingState.gridLevels ts) (updatedGridLevels res)
  /\ incl (closedOrders res) (TradingState.activeOrders ts)
  /\ (BasicStopLossConfig.method (RiskManagementConfig.basicStopLoss (config r)) = HARD ->
      updatedGridLevels res = map close_level (TradingState.gridLevels ts)
      /\ closedOrders res = TradingState.activeOrders ts).
Proof.
  cbv zeta. unfold executeStopLoss.
  destruct (BasicStopLossConfig.method _); cbn [updatedGridLevels closedOrders
    executeHardStopLoss executeSoftStopLoss].
  - split; [ | split; [ apply incl_refl | auto ] ].
    induction (TradingState.gridLevels ts) as [| level levels IH]; constructor;
      [ right; reflexivity | exact IH ].
  - split; [ | split; [ apply incl_filter | discriminate ] ].
    apply (closing_some_levels
             (fun level => set_has (levelIdsToClose ts) (GridLevel.price level))).
Qed.

Lemma same_value_zero_refl (x : number) : same_value_zero x x = true.
Proof.
  destruct x as [a| | |]; try reflexivity. cbn. apply strict_eq_Fin. reflexivity.
Qed.

Lemma set_has_own_price (levels : list GridLevel.t) (level : GridLevel.t) :
  In level levels -> set_has (map GridLevel.price levels) (GridLevel.price level) = true.
Proof.
  intro Hin. unfold set_has. apply existsb_exists.
  exists (GridLevel.price level). split; [ now apply in_map | apply same_value_zero_refl ].
Qed.

Lemma filter_all {A} (f : A -> bool) (l : list A) :
  Forall (fun x => f x = true) l -> filter f l = l.
Proof.
  induction 1 as [| x l Hx _ IH]; [ reflexivity | ]. cbn. now rewrite Hx, IH.
Qed.

Lemma filter_perm_length {A} (f : A -> bool) (l l' : list A) :
  Permutation l l' -> length (filter f l) = length (filter f l').
Proof.
  induction 1 as [| x l l' _ IH | x y l | l l' l'' _ IH1 _ IH2]; cbn.
  - reflexivity.
  - destruct (f x); cbn; congruence.
  - destruct (f x), (f y); reflexivity.
  - congruence.
Qed.

Lemma ceil_half_le (n : nat) : (ceil_half n <= n)%nat.
Proof.
  unfold ceil_half. destruct n as [| n]; [ reflexivity | ].
  apply Nat.Div0.div_le_upper_bound. lia.
Qed.

Lemma away_Fin (c p : Q) (level : GridLevel.t) :
  GridLevel.price level = Fin p -> away (Fin c) level = Fin (Qabs (p + - c)).
Proof. unfold away. intros ->. reflexivity. Qed.

Lemma finite_price_value (level : GridLevel.t) :
  finite_price level -> GridLevel.price level = Fin (price_value level).
Proof.
  unfold finite_price, price_value. destruct (GridLevel.price level); try contradiction.
  reflexivity.
Qed.

Lemma furthest_first_key (c : Q) (x y : GridLevel.t) :
  finite_price x -> finite_price y ->
  (furthest_first (Fin c) x y <? Fin 0) = true
  <-> (Qabs (price_value y + - c) < Qabs (price_value x + - c))%Q.
Proof.
  intros Hx Hy. unfold furthest_first.
  rewrite (@away_Fin c _ x (@finite_price_value x Hx)).
  rewrite (@away_Fin c _ y (@finite_price_value y Hy)).
  change (Fin (Qabs (price_value y + - c)) - Fin (Qabs (price_value x + - c)))
    with (Fin (Qabs (price_value y + - c) + - Qabs (price_value x + - c))).
  rewrite lt_Fin. split; intro; lra.
Qed.

(** X9.  The soft stop loss closes the levels whose price is among those
    of the furthest half: at least [ceil(n / 2)] of the [n] levels are
    closed, and, prices and current price being finite, no level left
    untouched is further from the current price than a closed one. *)
Theorem soft_stop_closes_furthest_half (ts : TradingState.t) (c : Q) :
  TradingState.currentPrice ts = Fin c ->
  Forall finite_price (TradingState.gridLevels ts) ->
  let levels := TradingState.gridLevels ts in
  let closed level := set_has (levelIdsToClose ts) (GridLevel.price level) in
  updatedGridLevels (executeSoftStopLoss ts)
  = map (fun level => if closed level then close_level level else level) levels
  /\ (ceil_half (length levels) <= length (filter closed levels))%nat
  /\ (forall kept far,
        In kept levels -> In far levels ->
        closed kept = false -> closed far = true ->
        (away (Fin c) kept <=? away (Fin c) far) = true).
Proof.
  intros Hc Hfin levels closed. subst closed. split; [ reflexivity | ].
  unfold levelIdsToClose. rewrite Hc. fold levels.
  set (sorted := sort_by (furthest_first (Fin c)) levels).
  assert (Hperm : Permutation sorted levels) by apply sort_by_perm.
  assert (Hlen : length sorted = length levels) by now apply Permutation_length.
  set (k := ceil_half (length sorted)).
  assert (Hfront : forall level, In level (firstn k sorted) ->
            set_has (map GridLevel.price (firstn k sorted)) (GridLevel.price level) = true)
    by (intros; now apply set_has_own_price).
  split.
  - rewrite (filter_perm_length _ (Permutation_sym Hperm)).
    set (closed := fun level : GridLevel.t => set_has _ _).
    assert (E : filter closed sorted
                = filter closed (firstn k sorted) ++ filter closed (skipn k sorted))
      by (now rewrite <- filter_app, firstn_skipn).
    rewrite E, length_app.
    rewrite (filter_all closed) by (apply Forall_forall; exact Hfront).
    rewrite length_firstn.
    pose proof (ceil_half_le (length sorted)) as Hk. fold k in Hk.
    rewrite <- Hlen. fold k. lia.
  - intros kept far Hkept Hfar Hk Hf.
    assert (Hsorted_fin : Forall finite_price sorted)
      by (now rewrite Hperm).
    assert (Hsorted : StronglySorted
                        (fun a b => Qabs (price_value b + - c) <= Qabs (price_value a + - c))%Q
                        sorted).
    { apply (@sort_by_sorted _ (furthest_first (Fin c)) finite_price
               (fun level => Qabs (price_value level + - c))).
      - intros x y Hx Hy. now apply furthest_first_key.
      - exact Hfin. }
    pose proof (@sorted_split _ (fun level => Qabs (price_value level + - c)) k sorted Hsorted)
      as Hsplit.
    (* the closed level has the price of a level of the front *)
    unfold set_has in Hf. apply existsb_exists in Hf.
    destruct Hf as (price & Hprice & Hsame). apply in_map_iff in Hprice.
    destruct Hprice as (front & <- & Hfront_in).
    (* the kept level is in the back *)
    assert (Hback : In kept (skipn k sorted)).
    { assert (Hin : In kept sorted) by (now apply (Permutation_in _ (Permutation_sym Hperm))).
      rewrite <- (firstn_skipn k sorted) in Hin. apply in_app_or in Hin.
      destruct Hin as [Hin | Hin]; [ | exact Hin ].
      rewrite (Hfront _ Hin) in Hk. discriminate. }
    rewrite Forall_forall in Hsplit. specialize (Hsplit front Hfront_in).
    rewrite Forall_forall in Hsplit. specialize (Hsplit kept Hback). cbv beta in Hsplit.
    rewrite Forall_forall in Hfin, Hsorted_fin.
    assert (Hfront_fin : finite_price front)
      by (apply Hsorted_fin; rewrite <- (firstn_skipn k sorted);
          apply in_or_app; now left).
    pose proof (@finite_price_value kept (Hfin _ Hkept)) as Ek.
    pose proof (@finite_price_value far (Hfin _ Hfar)) as Ef.
    pose proof (@finite_price_value front Hfront_fin) as Efr.
    rewrite (@away_Fin c _ kept Ek), (@away_Fin c _ far Ef). apply le_Fin.
    rewrite Ef, Efr in Hsame. cbn in Hsame. apply strict_eq_Fin in Hsame.
    rewrite Hsame. exact Hsplit.
Qed.

End StopLossExecution.

Section StopLossExecutionExamples.
Import JsArray RiskManager StopLossSpec GridSpec.

Lemma executeStopLoss_only_closes_witness :
  updatedGridLevels
    (executeStopLoss (constructor (basic_only 5 HARD) (Fin 100)) soft_state)
  = map close_level (TradingState.gridLevels soft_state)
  /\ closedOrders (executeStopLoss (constructor (basic_only 5 HARD) (Fin 100)) soft_state)
     = TradingState.activeOrders soft_state.
Proof.
  exact (proj2 (proj2 (executeStopLoss_only_closes
                         (constructor (basic_only 5 HARD) (Fin 100)) soft_state))
               eq_refl).
Defined.

Lemma soft_stop_closes_furthest_half_witness :
  TradingState.currentPrice soft_state = Fin 100
  /\ Forall finite_price (TradingState.gridLevels soft_state)
  /\ (3 <= length (filter (fun level =>
                             set_has (levelIdsToClose soft_state) (GridLevel.price level))
                          (TradingState.gridLevels soft_state)))%nat.
Proof.
  assert (F : Forall finite_price (TradingState.gridLevels soft_state))
    by (repeat constructor).
  split; [ reflexivity | split; [ exact F | ] ].
  exact (proj1 (proj2 (@soft_stop_closes_furthest_half soft_state 100 eq_refl F))).
Defined.

(** The soft stop loss on five levels around 100 closes the two outer
    levels on either side that are furthest, and one of the two at
    distance 5: three levels, the one at the current price being kept. *)
Example soft_stop_on_five_levels :
  map GridLevel.isActive (updatedGridLevels (executeSoftStopLoss soft_state))
  = [false; false; true; true; false].
Proof. reflexivity. Qed.

End StopLossExecutionExamples.

Section Reversal.
Import JsArray RiskManager StopLossSpec.

Lemma gt_lt_flip (x y : number) : (x >? y) = (y <? x).
Proof. destruct x as [a| | |], y as [b| | |]; try reflexivity.
  unfold gt, lt. rewrite !compare_Fin. rewrite <- (Qcompare_antisym a b).
  destruct (a ?= b); reflexivity.
Qed.

Lemma sub_lt_zero (c a : number) : (c - a <? Fin 0) = true -> (c <? a) = true.
Proof.
  destruct c as [x| | |], a as [y| | |]; try (cbn; congruence); try reflexivity.
  change (Fin x - Fin y) with (Fin (x + - y)). rewrite !lt_Fin. intro; lra.
Qed.

Lemma sub_gt_zero (c a : number) : (c - a >? Fin 0) = true -> (a <? c) = true.
Proof.
  destruct c as [x| | |], a as [y| | |]; try (cbn; congruence); try reflexivity.
  change (Fin x - Fin y) with (Fin (x + - y)). rewrite gt_Fin, lt_Fin. intro; lra.
Qed.

Lemma last_three {A} (l : list A) :
  (3 <= length l)%nat -> exists front a b c, l = front ++ [a; b; c].
Proof.
  intro Hl. exists (firstn (length l - 3) l).
  pose proof (firstn_skipn (length l - 3) l) as E.
  pose proof (length_skipn (length l - 3) l) as Hs.
  destruct (skipn (length l - 3) l) as [| a [| b [| c [| d rest]]]]; cbn in Hs; try lia.
  exists a, b, c. now symmetry.
Qed.

Lemma slice_last_three {A} (front : list A) (a b c : A) :
  slice_last 3 (front ++ [a; b; c]) = [a; b; c].
Proof.
  unfold slice_last. rewrite length_app. cbn [length].
  replace (length front + 3 - 3)%nat with (length front + 0)%nat by lia.
  rewrite skipn_app, Nat.add_0_r, skipn_all.
  replace (length front - length front)%nat with 0%nat by lia. reflexivity.
Qed.

Lemma sample_last (front : list number) (a b c : number) :
  sample (front ++ [a; b; c]) (length (front ++ [a; b; c]) - 1) = c
  /\ sample (front ++ [a; b; c]) (length (front ++ [a; b; c]) - 2) = b.
Proof.
  unfold sample. rewrite length_app. cbn [length]. split.
  - rewrite app_nth2 by lia.
    replace (length front + 3 - 1 - length front)%nat with 2%nat by lia. reflexivity.
  - rewrite app_nth2 by lia.
    replace (length front + 3 - 2 - length front)%nat with 1%nat by lia. reflexivity.
Qed.

(** X10.  A reversal is only detected on a history of at least ten
    samples whose last sample lies strictly between the two before it, on
    the other side of the second-to-last than the third-to-last: after
    [a; b; c], either [b < c < a] or [a < c < b].  On a history whose
    last three samples rise or fall together no reversal is detected. *)
Theorem detectReversal_needs_turn (priceHistory : list number) :
  detectReversal priceHistory = true ->
  exists front a b c,
    priceHistory = front ++ [a; b; c]
    /\ (7 <= length front)%nat
    /\ ((b <? c) = true /\ (c <? a) = true
        \/ (c <? b) = true /\ (a <? c) = true).
Proof.
  unfold detectReversal. destruct (Nat.ltb (length priceHistory) 10) eqn:Hlen;
    [ discriminate | ].
  apply Nat.ltb_ge in Hlen.
  destruct (@last_three _ priceHistory) as (front & a & b & c & ->); [ lia | ].
  cbv zeta. rewrite slice_last_three.
  destruct (sample_last front a b c) as [-> ->].
  change (sample [a; b; c] (length [a; b; c] - 1)) with c.
  change (sample [a; b; c] 0) with a.
  intro H. apply andb_prop in H. destruct H as [_ H].
  exists front, a, b, c. split; [ reflexivity | ].
  split; [ rewrite length_app in Hlen; cbn [length] in Hlen; lia | ].
  apply orb_prop in H. destruct H as [H | H]; apply andb_prop in H; destruct H as [H1 H2].
  - left. split; [ now rewrite <- gt_lt_flip | now apply sub_lt_zero ].
  - right. split; [ exact H1 | now apply sub_gt_zero ].
Qed.

Lemma detectReversal_needs_turn_witness :
  detectReversal reversal_history = true
  /\ exists front a b c,
       reversal_history = front ++ [a; b; c]
       /\ (7 <= length front)%nat
       /\ ((b <? c) = true /\ (c <? a) = true
           \/ (c <? b) = true /\ (a <? c) = true).
Proof.
  split; [ reflexivity | exact (detectReversal_needs_turn reversal_history eq_refl) ].
Defined.

End Reversal.

Section StopPrice.
Import RiskManager RiskSpec StopLossSpec.







Lemma gt_irrefl (x : number) : (x >? x) = false.
Proof.
  destruct x as [a| | |]; try reflexivity.
  destruct (Fin a >? Fin a) eqn:E; [ | reflexivity ]. apply gt_Fin in E. lra.
Qed.

Lemma le_below_stop (x trailing stop : number) :
  finite stop -> (trailing >? stop) = false -> (x <=? trailing) = true ->
  (x <=? stop) = true.
Proof.
  destruct stop as [s| | |]; try contradiction. intros _.
  destruct trailing as [t| | |], x as [a| | |]; try (cbn; congruence).
  intros H1 H2. apply le_Fin in H2. apply le_Fin.
  destruct (Qlt_le_dec s t) as [L | L]; [ | lra ].
  apply gt_Fin in L. congruence.
Qed.

(** X13.  With the trailing stop enabled, once a trailing stop price
    exists after an update, the stop loss price that the update returns
    exists too and the trailing stop price is not above it; so, the stop
    being finite, every price at or below the trailing stop price triggers
    the stop loss. *)
Theorem stop_not_below_trailing (r : t) (ts : TradingState.t) (trailing : number) :
  trailing_enabled r = true ->
  trailingStopPrice (snd (updateStopLoss r ts)) = Some trailing ->
  exists stop,
    fst (updateStopLoss r ts) = Some stop
    /\ stopLossPrice (snd (updateStopLoss r ts)) = Some stop
    /\ (trailing >? stop) = false
    /\ (finite stop ->
        forall price, (price <=? trailing) = true ->
                      isStopLossTriggered (snd (updateStopLoss r ts)) price = true).
Proof.
  unfold trailing_enabled, isStopLossTriggered, updateStopLoss. cbn [fst snd].
  set (r0 := mk (config r) (initialPrice r) (stopLossPrice r) (trailingStopPrice r) _).
  set (r1 := if BasicStopLossConfig.enabled _ then _ else r0).
  set (r2 := if DynamicStopLossConfig.enabled _ then _ else r1).
  assert (C1 : config r1 = config r) by (subst r1; destruct (BasicStopLossConfig.enabled _); reflexivity).
  assert (C2 : config r2 = config r)
    by (subst r2; destruct (DynamicStopLossConfig.enabled _); exact C1).
  intros Ht. rewrite C2, Ht. unfold updateTrailingStopLoss. cbn [trailingStopPrice stopLossPrice].
  set (tr := if _ >=? _ then _ else trailingStopPrice r2).
  intros Htr. rewrite Htr.
  destruct (stopLossPrice r2) as [sl |].
  - destruct (trailing >? sl) eqn:G.
    + exists trailing. repeat split; [ apply gt_irrefl | ].
      intros F price Hprice. eapply le_below_stop; eauto using gt_irrefl.
    + exists sl. repeat split; [ exact G | ].
      intros F price Hprice. eapply le_below_stop; eauto.
  - exists trailing. repeat split; [ apply gt_irrefl | ].
    intros F price Hprice. eapply le_below_stop; eauto using gt_irrefl.
Qed.

Lemma stop_not_below_trailing_witness :
  exists trailing stop,
    trailingStopPrice (snd (updateStopLoss (constructor defaultRisk (Fin 100))
                                           (state_at (Fin 102) (Fin 0))))
    = Some trailing
    /\ fst (updateStopLoss (constructor defaultRisk (Fin 100)) (state_at (Fin 102) (Fin 0)))
       = Some stop
    /\ (trailing >? stop) = false.
Proof.
  eexists.
  destruct (@stop_not_below_trailing (constructor defaultRisk (Fin 100))
              (state_at (Fin 102) (Fin 0)) _ eq_refl eq_refl)
    as (stop & Hs & _ & Hg & _).
  exists stop. split; [ reflexivity | split; assumption ].
Defined.

End StopPrice.

Section Returns.
Import Effects EngineSpec EngineFrameSpec.
Context {X S : Type}.
Variable I : S -> Prop.

Lemma returns_ret {A} (Q : A -> Prop) (a : A) : Q a -> returns I Q (ret (X := X) a).
Proof. intros Ha s w Hs. exists a, s, w. auto. Qed.

Lemma returns_bind {A B} (P : A -> Prop) (Q : B -> Prop)
    (m : M X S A) (k : A -> M X S B) :
  returns I P m -> (forall a, P a -> returns I Q (k a)) -> returns I Q (bind m k).
Proof.
  intros Hm Hk s w Hs. unfold bind.
  destruct (Hm s w Hs) as (a & s' & w' & -> & Hs' & Ha).
  exact (Hk a Ha s' w' Hs').
Qed.

Lemma returns_try_catch {A} (Q : A -> Prop) (body : M X S A) (handler : string -> M X S A) :
  keeps I Q body -> (forall err, returns I Q (handler err)) ->
  returns I Q (try_catch body handler).
Proof.
  intros Hb Hh s w Hs. unfold try_catch. specialize (Hb s w Hs).
  destruct (body s w) as [[[a | err] s'] w'].
  - exists a, s', w'. destruct Hb. auto.
  - exact (Hh err s' w' Hb).
Qed.

Lemma returns_weaken {A} (P Q : A -> Prop) (m : M X S A) :
  (forall a, P a -> Q a) -> returns I P m -> returns I Q m.
Proof.
  intros HPQ Hm s w Hs. destruct (Hm s w Hs) as (a & s' & w' & E & Hs' & Ha).
  exists a, s', w'. auto.
Qed.

Lemma returns_get : returns I I (get (X := X)).
Proof. intros s w Hs. exists s, s, w. auto. Qed.

Lemma returns_modify (f : S -> S) :
  (forall s, I s -> I (f s)) -> returns I anything (modify (X := X) f).
Proof. intros Hf s w Hs. eexists tt, (f s), w. repeat split. auto. Qed.

Lemma returns_logger (l : LogLevel) (msg : string) :
  returns I anything (logger (X := X) l msg).
Proof. intros s w Hs. eexists tt, s, _. repeat split. exact Hs. Qed.

Lemma returns_for_collect {A B} (xs : list A) (body : A -> M X S (list B)) :
  (forall x, returns I anything (body x)) ->
  returns I anything (for_collect xs body).
Proof.
  intro Hbody. induction xs as [| x xs IH]; cbn [for_collect].
  - now apply returns_ret.
  - eapply returns_bind; [ apply Hbody | ]. intros ys _.
    eapply returns_bind; [ exact IH | ]. intros rest _. now apply returns_ret.
Qed.

Lemma bind_ok {A B} (m : M X S A) (k : A -> M X S B) (s s' : S) (w w' : World X) (a : A) :
  m s w = (Ok a, s', w') -> bind m k s w = k a s' w'.
Proof. unfold bind. now intros ->. Qed.

Lemma returns_outcome {A} (Q : A -> Prop) (m : M X S A) (s : S) (w : World X) :
  returns I Q m -> I s ->
  exists a, outcome m s w = Ok a /\ I (state_after m s w) /\ Q a.
Proof.
  intros Hm Hs. destruct (Hm s w Hs) as (a & s' & w' & E & Hs' & Ha).
  exists a. unfold outcome, state_after. rewrite E. auto.
Qed.

End Returns.

Section EngineFrame.
Import Effects ExecutionEngine EngineSpec EngineFrameSpec.
Context {X : Type} `{ExchangeConnector X}.

(** ** Methods that leave the engine as it is *)

Section AnyProperty.
Variable I : t -> Prop.

Lemma placeOrder_any (order : GridOrder.t) : keeps I anything (placeOrder order).
Proof.
  unfold placeOrder. apply keeps_try_catch.
  - eapply keeps_bind; [ apply keeps_call | ]. intros id _.
    eapply keeps_bind; [ apply keeps_logger | ]. intros _ _.
    now apply keeps_ret.
  - intro err. eapply keeps_bind; [ apply keeps_logger | ]. intros _ _.
    apply keeps_throw.
Qed.

Lemma place_if_pending_any (o : option GridOrder.t) :
  keeps I anything (place_if_pending o).
Proof.
  unfold place_if_pending. destruct (pending_order o).
  - eapply keeps_bind; [ apply placeOrder_any | ]. intros placed _. now apply keeps_ret.
  - now apply keeps_ret.
Qed.

Lemma place_level_returns (level : GridLevel.t) :
  returns I anything (place_level level).
Proof.
  unfold place_level. destruct (negb (GridLevel.isActive level)).
  - now apply returns_ret.
  - apply returns_try_catch.
    + eapply keeps_bind; [ apply place_if_pending_any | ]. intros placedBuy _.
      apply keeps_try_catch.
      * eapply keeps_bind; [ apply place_if_pending_any | ]. intros placedSell _.
        now apply keeps_ret.
      * intro err. eapply keeps_bind; [ apply keeps_logger | ]. intros _ _.
        now apply keeps_ret.
    + intro err. eapply returns_bind; [ apply returns_logger | ]. intros _ _.
      now apply returns_ret.
Qed.

Hypothesis set_activeOrders_ok :
  forall (f : TradingState.t -> list GridOrder.t) (e : t),
    I e -> I (with_tradingState (fun s => set_activeOrders (f s) s) e).

Lemma placeGridOrders_returns : returns I anything placeGridOrders.
Proof.
  unfold placeGridOrders.
  eapply returns_bind; [ apply returns_get | ]. intros e _.
  eapply returns_bind; [ apply returns_for_collect; intro; apply place_level_returns | ].
  intros placedOrders _.
  eapply returns_bind; [ apply returns_modify | ].
  - intros s Hs.
    apply (set_activeOrders_ok
             (fun st => filter (fun order => negb (some_id placedOrders order))
                               (TradingState.activeOrders st) ++ placedOrders) Hs).
  - intros _ _. apply returns_logger.
Qed.

End AnyProperty.

(** ** Failures of the price feed *)

(** X14.  [updateMarketData] never throws: whatever fails inside is
    logged and swallowed.  When the price cannot be fetched, the engine is
    left exactly as it was and the only effect, beside that of the call,
    is one line in the error log. *)
Theorem updateMarketData_swallows_errors (e : t) (w : World X) :
  outcome updateMarketData e w = Ok tt
  /\ (forall err x',
        getCurrentPrice (exchange w) = (Throw err, x') ->
        state_after updateMarketData e w = e
        /\ world_after updateMarketData e w
           = mkWorld x' (logged w ++ [{| level := error;
                                         text := "Failed to update market data" |}])).
Proof.
  split.
  - unfold outcome, updateMarketData, try_catch.
    match goal with |- context [bind ?m ?k e w] => destruct (bind m k e w) as [[[[] | err] s'] w'] end;
      reflexivity.
  - intros err x' Hprice.
    unfold state_after, world_after, updateMarketData, try_catch, bind, call.
    rewrite Hprice. split; reflexivity.
Qed.

(** X15.  [initialize] throws exactly when the price cannot be fetched,
    with the error of the exchange, and it leaves the engine as it was
    then.  Otherwise it returns, whatever happens to the orders it tries
    to place; the price fetched is then the current price of the trading
    state and the last entry of the price history. *)
Theorem initialize_outcome (e : t) (w : World X) :
  (forall err x',
      getCurrentPrice (exchange w) = (Throw err, x') ->
      outcome initialize e w = Throw err /\ state_after initialize e w = e)
  /\ (forall p x',
        getCurrentPrice (exchange w) = (Ok p, x') ->
        outcome initialize e w = Ok tt
        /\ TradingState.currentPrice (tradingState (state_after initialize e w)) = p
        /\ priceHistory (state_after initialize e w) = priceHistory e ++ [p]).
Proof.
  split.
  - intros err x' Hprice.
    unfold outcome, state_after, initialize, try_catch, bind, call, logger.
    cbn [exchange]. rewrite Hprice. split; reflexivity.
  - intros p x' Hprice.
    set (I := fun s : t => TradingState.currentPrice (tradingState s) = p
                           /\ priceHistory s = priceHistory e ++ [p]).
    assert (Hrest : returns I anything
                      (placeGridOrders ;;
                       modify (S := t) updatePerformanceMetrics ;;
                       logger info "Execution engine initialized successfully")).
    { eapply returns_bind.
      - apply placeGridOrders_returns. intros f s Hs. exact Hs.
      - intros _ _. eapply returns_bind; [ apply returns_modify | ].
        + intros s Hs. exact Hs.
        + intros _ _. apply returns_logger. }
    set (e1 := push_price p (with_tradingState (set_currentPrice p) e)).
    assert (He1 : I e1) by (split; reflexivity).
    set (w1 := mkWorld x' (logged w ++ [{| level := info;
                                            text := "Initializing execution engine" |}])).
    destruct (Hrest e1 w1 He1) as ([] & s' & w' & E & Hs' & _).
    assert (Hcall : call (S := t) getCurrentPrice e
                      (mkWorld (exchange w)
                         (logged w ++ [{| level := info;
                                          text := "Initializing execution engine" |}]))
                    = (Ok p, e, w1))
      by (unfold call; cbn [exchange logged]; rewrite Hprice; reflexivity).
    assert (Run : initialize e w = (Ok tt, s', w')).
    { unfold initialize, try_catch.
      erewrite bind_ok by reflexivity.
      rewrite (@bind_ok _ _ _ _ _ _ _ _ _ _ _ Hcall).
      erewrite bind_ok by reflexivity.
      erewrite bind_ok by reflexivity.
      fold e1. rewrite E. reflexivity. }
    unfold outcome, state_after. rewrite Run. cbn [fst snd].
    destruct Hs' as [H1 H2]. auto.
Qed.

(** ** What the engine never changes *)

Lemma extends_refl {A} (l : list A) : extends l l.
Proof. exists []. now rewrite app_nil_r. Qed.

Lemma extends_trans {A} (l1 l2 l3 : list A) : extends l1 l2 -> extends l2 l3 -> extends l1 l3.
Proof. intros [p1 ->] [p2 ->]. exists (p1 ++ p2). now rewrite app_assoc. Qed.

Lemma extends_push {A} (l pushed : list A) : extends l (l ++ pushed).
Proof. now exists pushed. Qed.

Lemma grown_refl (e : t) : grown_from e e.
Proof. repeat split; apply extends_refl. Qed.

Lemma grown_trans (e0 e1 e2 : t) : grown_from e0 e1 -> grown_from e1 e2 -> grown_from e0 e2.
Proof.
  intros (P1 & A1 & F1 & T1 & H1) (P2 & A2 & F2 & T2 & H2).
  repeat split; try congruence; eapply extends_trans; eassumption.
Qed.

Lemma grown_step (e0 : t) (f : t -> t) :
  (forall e, grown_from e (f e)) -> forall e, grown_from e0 e -> grown_from e0 (f e).
Proof. intros Hf e He. exact (grown_trans He (Hf e)). Qed.

Lemma update_at_map {A B} (f : A -> B) (i : nat) (v : A) (l : list A) :
  nth_error (map f l) i = Some (f v) -> map f (update_at i v l) = map f l.
Proof.
  revert i. induction l as [| x l IH]; intros i Hi; [ now destruct i | ].
  destruct i as [| i]; cbn in *.
  - injection Hi as <-. reflexivity.
  - f_equal. now apply IH.
Qed.

Lemma find_level_nth (id : string) (levels : list GridLevel.t) :
  forall start i level,
    find_level id start levels = Some (i, level) ->
    (start <= i)%nat /\ nth_error levels (i - start) = Some level.
Proof.
  induction levels as [| l levels IH]; intros start i level; cbn [find_level];
    [ discriminate | ].
  destruct (_ || _).
  - intro E. injection E as <- <-. split; [ lia | ].
    now rewrite Nat.sub_diag.
  - intro E. destruct (IH _ _ _ E) as [Hle Hnth]. split; [ lia | ].
    replace (i - start)%nat with (S (i - S start)) by lia. exact Hnth.
Qed.

Section Frame.
Variable e0 : t.

Local Notation "'keeps_frame'" := (keeps (X := X) (grown_from e0)).

Ltac same_fields := intro; repeat split; first [ apply extends_refl | apply extends_push ].

Lemma placeGridOrders_frame : keeps_frame anything placeGridOrders.
Proof.
  unfold placeGridOrders.
  eapply keeps_bind; [ apply keeps_get | intros e _ ].
  eapply keeps_bind.
  - apply (keeps_for_collect (P := anything)). intros level _.
    intros s w Hs. pose proof (place_level_returns (grown_from e0) level) as R.
    destruct (R s w Hs) as (a & s' & w' & -> & Hs' & _).
    split; [ exact Hs' | ]. apply Forall_forall. intros; exact Logic.I.
  - intros placedOrders _.
    eapply keeps_bind; [ | intros _ _; apply keeps_logger ].
    apply keeps_modify. apply grown_step. same_fields.
Qed.

Lemma initialize_frame : keeps_frame anything initialize.
Proof.
  unfold initialize. apply keeps_try_catch.
  - eapply keeps_bind; [ apply keeps_logger | intros _ _ ].
    eapply keeps_bind; [ apply keeps_call | intros currentPrice _ ].
    eapply keeps_bind; [ apply keeps_modify, grown_step; same_fields | intros _ _ ].
    eapply keeps_bind; [ apply keeps_modify, grown_step; same_fields | intros _ _ ].
    eapply keeps_bind; [ apply placeGridOrders_frame | intros _ _ ].
    eapply keeps_bind; [ apply keeps_modify, grown_step; same_fields | intros _ _ ].
    apply keeps_logger.
  - intro err. eapply keeps_bind; [ apply keeps_logger | intros _ _ ].
    apply keeps_throw.
Qed.

Lemma check_fill_frame (order : GridOrder.t) : keeps_frame anything (check_fill order).
Proof.
  unfold check_fill. destruct (exchange_id order); [ | now apply keeps_ret ].
  apply keeps_try_catch.
  - eapply keeps_bind; [ apply keeps_call | intros orderStatus _ ].
    destruct (OrderStatus_eqb orderStatus filled); [ | now apply keeps_ret ].
    eapply keeps_bind; [ apply keeps_logger | intros _ _ ]. now apply keeps_ret.
  - intro err. eapply keeps_bind; [ apply keeps_logger | intros _ _ ]. now apply keeps_ret.
Qed.

Lemma for_collect_frame {A B} (xs : list A) (body : A -> M X t (list B)) :
  (forall x, keeps_frame anything (body x)) ->
  keeps_frame anything (for_collect xs body).
Proof.
  intro Hbody. induction xs as [| x xs IH]; cbn [for_collect].
  - now apply keeps_ret.
  - eapply keeps_bind; [ apply Hbody | intros ys _ ].
    eapply keeps_bind; [ exact IH | intros rest _ ]. now apply keeps_ret.
Qed.

Lemma recordTrade_frame (order : GridOrder.t) (gridLevelIndex : nat) :
  keeps_frame anything (recordTrade order gridLevelIndex).
Proof.
  unfold recordTrade.
  eapply keeps_bind; [ apply keeps_get | intros e _ ].
  eapply keeps_bind; [ apply keeps_call | intros timestamp _ ].
  apply keeps_modify, grown_step. same_fields.
Qed.

Lemma replace_filled_frame (filledOrder : GridOrder.t) :
  keeps_frame anything (replace_filled filledOrder).
Proof.
  unfold replace_filled.
  eapply keeps_bind; [ apply keeps_get | intros e He ].
  destruct (find_level _ 0 _) as [[gridLevelIndex gridLevel] |] eqn:Efind;
    [ | now apply keeps_ret ].
  apply find_level_nth in Efind. destruct Efind as [_ Hnth].
  rewrite Nat.sub_0_r in Hnth.
  apply keeps_try_catch.
  - cbv zeta. eapply keeps_bind; [ apply placeOrder_any | intros placedOrder _ ].
    eapply keeps_bind.
    + apply keeps_modify. intros s Hs.
      destruct He as (Pe & Ae & _), Hs as (Ps & As & Fs & Ts & Hs).
      repeat split; try assumption; cbn [tradingState with_tradingState set_gridLevels
                                           TradingState.gridLevels].
      * rewrite update_at_map; [ exact Ps | ].
        rewrite Ps, <- Pe, nth_error_map, Hnth.
        destruct (oppositeSide _); reflexivity.
      * rewrite update_at_map; [ exact As | ].
        rewrite As, <- Ae, nth_error_map, Hnth.
        destruct (oppositeSide _); reflexivity.
    + intros _ _. eapply keeps_bind; [ apply recordTrade_frame | intros _ _ ].
      now apply keeps_ret.
  - intro err. eapply keeps_bind; [ apply keeps_logger | intros _ _ ]. now apply keeps_ret.
Qed.

Lemma processFilledOrders_frame (filledOrders : list GridOrder.t) :
  keeps_frame anything (processFilledOrders filledOrders).
Proof.
  unfold processFilledOrders.
  eapply keeps_bind; [ apply keeps_modify, grown_step; same_fields | intros _ _ ].
  eapply keeps_bind; [ apply keeps_modify, grown_step; same_fields | intros _ _ ].
  eapply keeps_bind; [ apply keeps_modify, grown_step; same_fields | intros _ _ ].
  eapply keeps_bind;
    [ apply for_collect_frame; intro; apply replace_filled_frame | intros newOrders _ ].
  eapply keeps_bind; [ apply keeps_modify, grown_step; same_fields | intros _ _ ].
  apply keeps_logger.
Qed.

Lemma updateMarketData_frame : keeps_frame anything updateMarketData.
Proof.
  unfold updateMarketData. apply keeps_try_catch.
  - eapply keeps_bind; [ apply keeps_call | intros currentPrice _ ].
    eapply keeps_bind; [ apply keeps_modify, grown_step; same_fields | intros _ _ ].
    eapply keeps_bind; [ apply keeps_modify, grown_step; same_fields | intros _ _ ].
    eapply keeps_bind.
    { unfold checkOrderFills. eapply keeps_bind; [ apply keeps_get | intros e _ ].
      apply for_collect_frame. intro. apply check_fill_frame. }
    intros filledOrders _. eapply keeps_bind.
    + destruct (Nat.ltb 0 (length filledOrders)).
      * apply processFilledOrders_frame.
      * now apply keeps_ret.
    + intros _ _.
      eapply keeps_bind; [ apply keeps_modify, grown_step; same_fields | intros _ _ ].
      apply keeps_logger.
  - intro err. apply keeps_logger.
Qed.

Lemma cancelAllOrders_frame : keeps_frame anything cancelAllOrders.
Proof.
  unfold cancelAllOrders. apply keeps_try_catch.
  - eapply keeps_bind; [ apply keeps_get | intros e _ ].
    eapply keeps_bind.
    + apply keeps_for_of. intros order _. unfold cancel_one.
      destruct (exchange_id order); [ | now apply keeps_ret ].
      eapply keeps_bind; [ apply keeps_call | intros _ _ ]. apply keeps_logger.
    + intros _ _.
      eapply keeps_bind; [ apply keeps_modify, grown_step; same_fields | intros _ _ ].
      apply keeps_logger.
  - intro err. eapply keeps_bind; [ apply keeps_logger | intros _ _ ].
    apply keeps_throw.
Qed.

End Frame.

Lemma frame_state_after {A} (m : M X t A) (e : t) (w : World X) :
  keeps (grown_from e) anything m -> grown_from e (state_after m e w).
Proof.
  intro Hm. specialize (Hm e w (grown_refl e)). unfold state_after.
  destruct (m e w) as [[[a | err] e'] w']; cbn; [ apply Hm | exact Hm ].
Qed.

(** X16.  Whether they return or throw, and whatever the exchange
    answers, [initialize], [updateMarketData], [processFilledOrders] and
    [cancelAllOrders] leave the grid with the same levels at the same
    prices and with the same [isActive] flags, and they only push on the
    filled orders, on the recorded trades and on the price history:
    nothing is ever removed from these or rewritten. *)
Theorem engine_keeps_grid_and_histories (e e' : t) (w : World X) :
  e' = state_after initialize e w
  \/ e' = state_after updateMarketData e w
  \/ e' = state_after cancelAllOrders e w
  \/ (exists filledOrders, e' = state_after (processFilledOrders filledOrders) e w) ->
  grown_from e e'.
Proof.
  intros [-> | [-> | [-> | [filledOrders ->]]]]; apply frame_state_after.
  - apply initialize_frame.
  - apply updateMarketData_frame.
  - apply cancelAllOrders_frame.
  - apply processFilledOrders_frame.
Qed.

End EngineFrame.

Section EngineFrameExamples.
Import Effects ExecutionEngine EngineSpec EngineFrameSpec.

Lemma updateMarketData_swallows_errors_witness :
  state_after (@updateMarketData _ unreachable_exchange) sample_engine silent_world
  = sample_engine.
Proof.
  exact (proj1 (proj2 (@updateMarketData_swallows_errors _ unreachable_exchange
                         sample_engine silent_world)
                      "timeout"%string tt eq_refl)).
Defined.

Lemma initialize_outcome_witness :
  outcome (@initialize _ unreachable_exchange) sample_engine silent_world
  = Throw "timeout"%string
  /\ outcome (@initialize _ recording_exchange) sample_engine empty_world = Ok tt.
Proof.
  split.
  - exact (proj1 (proj1 (@initialize_outcome _ unreachable_exchange
                           sample_engine silent_world)
                        "timeout"%string tt eq_refl)).
  - exact (proj1 (proj2 (@initialize_outcome _ recording_exchange
                           sample_engine empty_world)
                        (Fin 100) [] eq_refl)).
Defined.

Lemma engine_keeps_grid_and_histories_witness :
  grown_from sample_engine
    (state_after (@updateMarketData _ recording_exchange) sample_engine empty_world).
Proof.
  apply (@engine_keeps_grid_and_histories _ recording_exchange _ _ empty_world).
  right. left. reflexivity.
Defined.

End EngineFrameExamples.

Section EngineMetrics.
Import ExecutionEngine EngineSpec EngineFrameSpec.

Lemma unrealized_step_nonneg (c a : Q) (order : GridOrder.t) :
  on_its_side c order -> (0 <= a)%Q ->
  exists a', unrealized_step (Fin c) (Fin a) order = Fin a' /\ (0 <= a')%Q.
Proof.
  intros Ho Ha. unfold unrealized_step.
  destruct (GridOrder.status order) eqn:Es; cbn [OrderStatus_eqb negb];
    try (exists a; split; [ reflexivity | exact Ha ]).
  destruct (Ho Es) as (price & size & -> & -> & Hsize & Hside).
  destruct (GridOrder.side order).
  - exists (a + (c + - price) * size)%Q. split; [ reflexivity | ].
    assert (0 <= (c + - price) * size)%Q by (apply Qmult_le_0_compat; lra). lra.
  - exists (a + (price + - c) * size)%Q. split; [ reflexivity | ].
    assert (0 <= (price + - c) * size)%Q by (apply Qmult_le_0_compat; lra). lra.
Qed.

(** X17.  The unrealized P&L is computed from the orders that rest in the
    book, not from positions: every pending buy order at or below the
    current price and every pending sell order at or above it, of a size
    that is not negative, counts as a gain.  On such orders (those of a
    freshly generated grid) the unrealized P&L is finite and not
    negative. *)
Theorem unrealized_pnl_of_resting_orders (e : t) (c : Q) :
  TradingState.currentPrice (tradingState e) = Fin c ->
  Forall (on_its_side c) (TradingState.activeOrders (tradingState e)) ->
  exists v,
    TradingState.unrealizedPnL (tradingState (calculateUnrealizedPnL e)) = Fin v
    /\ (0 <= v)%Q.
Proof.
  intros Hc Horders. unfold calculateUnrealizedPnL.
  cbn [tradingState with_tradingState set_unrealizedPnL TradingState.unrealizedPnL].
  rewrite Hc.
  assert (G : forall a, (0 <= a)%Q ->
              exists v, fold_left (unrealized_step (Fin c))
                                  (TradingState.activeOrders (tradingState e)) (Fin a) = Fin v
                        /\ (0 <= v)%Q).
  { induction Horders as [| order orders Ho _ IH]; intros a Ha; cbn [fold_left].
    - exists a. split; [ reflexivity | exact Ha ].
    - destruct (unrealized_step_nonneg Ho Ha) as (a' & -> & Ha'). exact (IH a' Ha'). }
  apply G. lra.
Qed.

Lemma unrealized_pnl_of_resting_orders_witness :
  exists v,
    TradingState.unrealizedPnL
      (tradingState
         (calculateUnrealizedPnL
            (constructor (StopLossSpec.state_with 100 []
                            [pending_at buy 95 2; pending_at sell 110 1]))))
    = Fin v
    /\ (0 <= v)%Q.
Proof.
  apply (@unrealized_pnl_of_resting_orders
           (constructor (StopLossSpec.state_with 100 []
                           [pending_at buy 95 2; pending_at sell 110 1])) 100).
  - reflexivity.
  - constructor; [ | constructor; [ | constructor ] ].
    + intros _. exists 95, 2. repeat split; discriminate.
    + intros _. exists 110, 1. repeat split; discriminate.
Defined.

(** Two resting orders around 100 are counted as a gain of 20 before
    anything is traded. *)
Example resting_orders_count_as_gain :
  TradingState.unrealizedPnL
    (tradingState
       (calculateUnrealizedPnL
          (constructor (StopLossSpec.state_with 100 []
                          [pending_at buy 95 2; pending_at sell 110 1]))))
  = Fin ((0 + (100 + - 95) * 2) + (110 + - 100) * 1).
Proof. reflexivity. Qed.

Lemma of_nat_pos (n : nat) : (0 < n)%nat -> (0 < inject_Z (Z.of_nat n))%Q.
Proof. intro Hn. change 0%Q with (inject_Z 0). rewrite <- Zlt_Qlt. lia. Qed.

Lemma of_nat_le (a b : nat) :
  (a <= b)%nat -> (inject_Z (Z.of_nat a) <= inject_Z (Z.of_nat b))%Q.
Proof. intro Hab. rewrite <- Zle_Qle. lia. Qed.

(** A share [a / n * 100] of [a] among [n >= 1] elements. *)
Lemma percentage_range (a n : nat) :
  (a <= n)%nat -> (0 < n)%nat ->
  exists u, (of_nat a / of_nat n) * Fin 100 = Fin u /\ (0 <= u <= 100)%Q.
Proof.
  intros Han Hn. pose proof (of_nat_pos Hn) as Hpos. pose proof (of_nat_le Han) as Hle.
  assert (H0 : (0 <= inject_Z (Z.of_nat a))%Q)
    by (change 0%Q with (inject_Z 0); rewrite <- Zle_Qle; lia).
  unfold of_nat, of_Z. rewrite div_Fin_nonzero by lra.
  exists (inject_Z (Z.of_nat a) / inject_Z (Z.of_nat n) * 100)%Q.
  split; [ reflexivity | ].
  assert (Hq : (0 <= inject_Z (Z.of_nat a) / inject_Z (Z.of_nat n) <= 1)%Q).
  { split.
    - apply Qle_shift_div_l; lra.
    - apply Qle_shift_div_r; lra. }
  lra.
Qed.

(** X18.  After [updatePerformanceMetrics] the grid utilization is the
    share of active levels, a percentage between 0 and 100, but [NaN] when
    the grid has no level; the success rate is always a percentage between
    0 and 100, the engine guarding the division by the number of trades;
    and the trade count is the number of recorded trades. *)
Theorem performance_metrics_ranges (e : t) :
  let m := latestPerformanceMetrics (updatePerformanceMetrics e) in
  (TradingState.gridLevels (tradingState e) = [] ->
   PerformanceMetrics.gridUtilizationPercentage m = NaN)
  /\ (TradingState.gridLevels (tradingState e) <> [] ->
      exists u, PerformanceMetrics.gridUtilizationPercentage m = Fin u
                /\ (0 <= u <= 100)%Q)
  /\ (exists r, PerformanceMetrics.successRate m = Fin r /\ (0 <= r <= 100)%Q)
  /\ PerformanceMetrics.tradeCount m = of_nat (length (historicalTrades e)).
Proof.
  cbv zeta. unfold updatePerformanceMetrics.
  cbn [latestPerformanceMetrics set_metrics PerformanceMetrics.gridUtilizationPercentage
       PerformanceMetrics.successRate PerformanceMetrics.tradeCount].
  unfold calculateUnrealizedPnL.
  cbn [tradingState with_tradingState historicalTrades set_unrealizedPnL
       TradingState.gridLevels].
  split; [ | split; [ | split ] ].
  - intros ->. reflexivity.
  - intro Hne. apply percentage_range.
    + apply filter_length_le.
    + destruct (TradingState.gridLevels (tradingState e)); [ contradiction | cbn; lia ].
  - destruct (Nat.ltb_spec 0 (length (historicalTrades e))) as [Hn | Hn].
    + apply percentage_range; [ apply filter_length_le | exact Hn ].
    + exists 0%Q. split; [ reflexivity | lra ].
  - reflexivity.
Qed.

Lemma performance_metrics_ranges_witness :
  exists u,
    PerformanceMetrics.gridUtilizationPercentage
      (latestPerformanceMetrics (updatePerformanceMetrics sample_engine)) = Fin u
    /\ (0 <= u <= 100)%Q.
Proof.
  apply (proj1 (proj2 (performance_metrics_ranges sample_engine))). discriminate.
Defined.

(** On an engine without levels the grid utilization is [NaN]. *)
Example grid_utilization_of_empty_grid :
  PerformanceMetrics.gridUtilizationPercentage
    (latestPerformanceMetrics
       (updatePerformanceMetrics (constructor (StopLossSpec.state_with 100 [] []))))
  = NaN.
Proof. reflexivity. Qed.

End EngineMetrics.

Section ValidatedGrid.
Import Config GridGenerator GridSpec GridShapeSpec AllocationSpec.





End ValidatedGrid.

Section VolatilityGridOrder.
Import GridGenerator GridSpec VolatilitySpec ConservationSpec JsArray.

Lemma insert_level_insert_by (x : GridLevel.t) (l : list GridLevel.t) :
  insert_level x l
  = insert_by (fun a b => GridLevel.price a - GridLevel.price b) x l.
Proof.
  induction l as [| y l IH]; [ reflexivity | ]. cbn [insert_level insert_by].
  now rewrite IH.
Qed.

Lemma sort_by_price_sort_by (l : list GridLevel.t) :
  sort_by_price l = sort_by (fun a b => GridLevel.price a - GridLevel.price b) l.
Proof.
  unfold sort_by_price, sort_by. generalize (@nil GridLevel.t).
  induction l as [| x l IH]; intro acc; [ reflexivity | ].
  cbn [fold_left]. rewrite insert_level_insert_by. apply IH.
Qed.

Lemma StronglySorted_weaken {A} (R R' : A -> A -> Prop) (l : list A) :
  (forall a b, R a b -> R' a b) -> StronglySorted R l -> StronglySorted R' l.
Proof.
  intros HR. induction 1 as [| x l _ IH Hx]; constructor; [ exact IH | ].
  eapply Forall_impl; [ | exact Hx ]. intros b. apply HR.
Qed.

Lemma price_order_key (x y : GridLevel.t) :
  finite_price x -> finite_price y ->
  (GridLevel.price x - GridLevel.price y <? Fin 0) = true
  <-> (- price_value y < - price_value x)%Q.
Proof.
  intros Hx Hy.
  rewrite (@finite_price_value x Hx), (@finite_price_value y Hy).
  change (Fin (price_value x) - Fin (price_value y))
    with (Fin (price_value x + - price_value y)).
  rewrite lt_Fin. split; intro; lra.
Qed.

(** The price of every level of the volatility-based grid is finite when
    the bounds and the volatility are, for at least two levels: the
    argument of [Math.exp] lies between [-2] and [0]. *)
Lemma volatility_price_finite (M : MathLib) (g : t) (l u v : Q) (i : nat) :
  exp_finite_on_curve M ->
  GridConfig.lowerBound (config g) = Fin l ->
  GridConfig.upperBound (config g) = Fin u ->
  historicalVolatility g = Some (Fin v) ->
  (2 <= GridConfig.numberOfGrids (config g))%Z ->
  (i < Z.to_nat (GridConfig.numberOfGrids (config g)))%nat ->
  finite (volatility_price M g i).
Proof.
  intros Hexp Hl Hu Hv Hn Hi. unfold volatility_price. rewrite Hl, Hu, Hv.
  cbn [volatility_value]. unfold of_nat, of_Z.
  set (n := GridConfig.numberOfGrids (config g)) in *.
  change (Fin (inject_Z n) - Fin 1) with (Fin (inject_Z n + - 1)).
  pose proof (grid_denominator_pos Hn) as Hd.
  rewrite div_Fin_nonzero by lra.
  set (r := (inject_Z (Z.of_nat i) / (inject_Z n + - 1))%Q).
  assert (Hr : (0 <= r <= 1)%Q).
  { pose proof (index_nonneg i) as Hi0.
    assert (Hi1 : (inject_Z (Z.of_nat i) <= inject_Z n + - 1)%Q).
    { assert (H : (inject_Z (Z.of_nat i + 1) <= inject_Z n)%Q)
        by (rewrite <- Zle_Qle; lia).
      rewrite inject_Z_plus in H. change (inject_Z 1) with 1%Q in H. lra. }
    subst r. split.
    - apply Qle_shift_div_l; lra.
    - apply Qle_shift_div_r; lra. }
  set (x := (r * 4 + - (2))%Q).
  assert (Harg : neg ((Fin r * Fin 4 - Fin 2) * (Fin r * Fin 4 - Fin 2)) / Fin 2
                 = Fin (- (x * x) / 2)).
  { cbn [mul sub add neg]. apply div_Fin_nonzero. lra. }
  rewrite Harg.
  assert (Hrange : (- (2) <= - (x * x) / 2 <= 0)%Q).
  { assert (Hx : (- (2) <= x <= 2)%Q) by (subst x; lra).
    assert (H1 : (0 <= (2 + - x) * (2 + x))%Q) by (apply Qmult_le_0_compat; lra).
    assert (H2 : (0 <= x * x)%Q).
    { destruct (Qlt_le_dec x 0) as [Hneg | Hpos].
      - setoid_replace (x * x)%Q with ((- x) * (- x))%Q by ring.
        apply Qmult_le_0_compat; lra.
      - apply Qmult_le_0_compat; lra. }
    assert (E : ((2 + - x) * (2 + x) == 4 - x * x)%Q) by ring.
    rewrite E in H1. clear E. set (t := (x * x)%Q) in *.
    split.
    - apply Qle_shift_div_l; lra.
    - apply Qle_shift_div_r; lra. }
  pose proof (Hexp _ Hrange) as F.
  destruct (Math_exp M (Fin (- (x * x) / 2))) as [ev| | |]; try contradiction.
  destruct (_ <? _); exact I.
Qed.

(** X20.  With a usable volatility, finite bounds, at least two levels
    and a [Math.exp] whose values are finite between [-2] and [0], where
    the arguments the grid passes to it lie, the volatility-based grid
    holds the levels computed for the counters [0 .. n - 1], rearranged
    in ascending order of price: it has [n] levels of finite price, each
    at most at the price of those after it. *)
Theorem volatility_grid_sorted (M : MathLib) (g : t) (l u v : Q) :
  exp_finite_on_curve M ->
  GridConfig.lowerBound (config g) = Fin l ->
  GridConfig.upperBound (config g) = Fin u ->
  historicalVolatility g = Some (Fin v) ->
  ~ v == 0 ->
  (2 <= GridConfig.numberOfGrids (config g))%Z ->
  let levels := generateVolatilityBasedGrid M g in
  Permutation levels (unsorted_levels M g)
  /\ length levels = Z.to_nat (GridConfig.numberOfGrids (config g))
  /\ Forall finite_price levels
  /\ StronglySorted (fun a b => (price_value a <= price_value b)%Q) levels.
Proof.
  intros Hexp Hl Hu Hv Hv0 Hn levels.
  assert (Hlevels : levels
                    = sort_by (fun a b => GridLevel.price a - GridLevel.price b)
                              (unsorted_levels M g)).
  { subst levels. unfold generateVolatilityBasedGrid. rewrite Hv.
    cbn [volatility_missing truthy].
    destruct (Qeq_bool v 0) eqn:E; [ apply Qeq_bool_iff in E; contradiction | ].
    cbn [negb]. apply sort_by_price_sort_by. }
  assert (Hfin : Forall finite_price (unsorted_levels M g)).
  { unfold unsorted_levels. apply Forall_forall. intros level Hin.
    apply in_map_iff in Hin. destruct Hin as (i & <- & Hi).
    unfold indices in Hi. apply in_seq in Hi.
    apply (@volatility_price_finite M g l u v i); try assumption. lia. }
  assert (Hperm : Permutation levels (unsorted_levels M g))
    by (rewrite Hlevels; apply sort_by_perm).
  split; [ exact Hperm | ]. split; [ | split ].
  - rewrite (Permutation_length Hperm). unfold unsorted_levels.
    now rewrite length_map, indices_length.
  - now rewrite Hperm.
  - rewrite Hlevels.
    apply (StronglySorted_weaken
             (R := fun a b => (- price_value b <= - price_value a)%Q)).
    + intros a b Hab. lra.
    + apply (@sort_by_sorted _ (fun a b => GridLevel.price a - GridLevel.price b)
               finite_price (fun level => (- price_value level)%Q)).
      * intros x y Hx Hy. now apply price_order_key.
      * exact Hfin.
Qed.

Lemma volatility_grid_sorted_witness :
  let g := five_volatility_levels in
  let levels := generateVolatilityBasedGrid rational_math g in
  Permutation levels (unsorted_levels rational_math g)
  /\ length levels = 5%nat
  /\ Forall finite_price levels
  /\ StronglySorted (fun a b => (price_value a <= price_value b)%Q) levels.
Proof.
  cbv zeta.
  apply (@volatility_grid_sorted rational_math five_volatility_levels 90 110 (1 # 10)).
  - intros a _. exact I.
  - reflexivity.
  - reflexivity.
  - reflexivity.
  - discriminate.
  - cbn. lia.
Defined.

End VolatilityGridOrder.

Section StopLossHandling.
Import Effects RiskManager StopLossEvent StopLossEventSpec EngineSpec.
Import ExecutionEngine(set_gridLevels, set_activeOrders, some_id, exchange_id).
Context {X : Type} `{ExchangeConnector X}.

Lemma some_id_self (orders : list GridOrder.t) (order : GridOrder.t) :
  In order orders -> some_id orders order = true.
Proof.
  intro Hin. unfold some_id. apply existsb_exists. exists order.
  split; [ exact Hin | apply String.eqb_refl ].
Qed.

Lemma filter_none {A} (f : A -> bool) (l : list A) :
  (forall x, In x l -> f x = false) -> filter f l = [].
Proof.
  induction l as [| x l IH]; intro Hf; [ reflexivity | ]. cbn.
  rewrite (Hf x) by (now left). apply IH. intros y Hy. apply Hf. now right.
Qed.

(** The cancellations leave the trading state of the bot as it is,
    whether they succeed or not. *)
Lemma cancel_closed_any (I : TradingState.t -> Prop) (orders : list GridOrder.t) :
  keeps (X := X) I anything (for_of orders cancel_closed).
Proof.
  apply keeps_for_of. intros order _. unfold cancel_closed.
  destruct (exchange_id order); [ apply keeps_call | now apply keeps_ret ].
Qed.

(** X21.  [handleStopLossEvent] never throws, and what it assigns to the
    trading state does not depend on the exchange: the levels are those
    that [executeStopLoss] returns and the active orders lose every order
    that has the identifier of a closed order, also when a cancellation
    fails and the orders after it are still open on the exchange.  With
    the hard method no active order is left and every level is closed. *)
Theorem handleStopLossEvent_outcome (riskManager : RiskManager.t)
    (tradingState : TradingState.t) (w : World X) :
  let result := executeStopLoss riskManager tradingState in
  let after := state_after (handleStopLossEvent riskManager) tradingState w in
  outcome (handleStopLossEvent riskManager) tradingState w = Ok tt
  /\ TradingState.gridLevels after = updatedGridLevels result
  /\ TradingState.activeOrders after
     = filter (fun order => negb (some_id (closedOrders result) order))
              (TradingState.activeOrders tradingState)
  /\ (BasicStopLossConfig.method
        (RiskManagementConfig.basicStopLoss (config riskManager)) = HARD ->
      TradingState.activeOrders after = []
      /\ Forall closed_level (TradingState.gridLevels after)).
Proof.
  cbv zeta.
  set (result := executeStopLoss riskManager tradingState).
  set (s1 := set_activeOrders
               (filter (fun order => negb (some_id (closedOrders result) order))
                       (TradingState.activeOrders tradingState))
               (set_gridLevels (updatedGridLevels result) tradingState)).
  assert (Run : exists w',
             handleStopLossEvent riskManager tradingState w = (Ok tt, s1, w')).
  { unfold handleStopLossEvent, try_catch.
    erewrite bind_ok by reflexivity.
    assert (Hrun : exists w1,
               run_executeStopLoss riskManager tradingState tradingState w
               = (Ok result, tradingState, w1)).
    { unfold run_executeStopLoss.
      destruct (BasicStopLossConfig.method _); eexists; reflexivity. }
    destruct Hrun as [w1 Hrun].
    rewrite (@bind_ok _ _ _ _ _ _ _ _ _ _ _ Hrun).
    erewrite bind_ok by reflexivity.
    erewrite bind_ok by reflexivity.
    unfold bind at 1.
    match goal with
    | |- context [for_of _ _ ?st ?w2] =>
        change st with s1;
        pose proof (@cancel_closed_any (fun s' => s' = s1) (closedOrders result) s1 w2 eq_refl)
          as Hloop;
        destruct (for_of (closedOrders result) cancel_closed s1 w2) as [[[[] | err] s'] w']
    end.
    - destruct Hloop as [-> _]. eexists. reflexivity.
    - subst s'. eexists. reflexivity. }
  destruct Run as [w' Run]. unfold outcome, state_after. rewrite Run. cbn [fst snd].
  split; [ reflexivity | ]. split; [ reflexivity | ]. split; [ reflexivity | ].
  intro Hhard. subst s1 result. unfold executeStopLoss. rewrite Hhard.
  cbn [closedOrders updatedGridLevels executeHardStopLoss TradingState.activeOrders
       TradingState.gridLevels set_activeOrders set_gridLevels].
  split.
  - apply filter_none. intros order Hin. now rewrite some_id_self.
  - apply Forall_forall. intros level Hin. apply in_map_iff in Hin.
    destruct Hin as (old & <- & _). repeat split.
Qed.

End StopLossHandling.

Section StopLossHandlingExamples.
Import Effects RiskManager StopLossEvent StopLossEventSpec EngineSpec.

Lemma handleStopLossEvent_outcome_witness :
  TradingState.activeOrders
    (state_after (@handleStopLossEvent _ recording_exchange hard_manager)
                 sample_state empty_world) = []
  /\ Forall closed_level
       (TradingState.gridLevels
          (state_after (@handleStopLossEvent _ recording_exchange hard_manager)
                       sample_state empty_world)).
Proof.
  exact (proj2 (proj2 (proj2 (@handleStopLossEvent_outcome _ recording_exchange
                                hard_manager sample_state empty_world)))
               eq_refl).
Defined.

(** On the sample state the cancellation of the first order is rejected:
    the second order is never cancelled on the exchange, and the state of
    the bot holds no active order all the same. *)
Example stop_loss_drops_orders_it_could_not_cancel :
  exchange (world_after (@handleStopLossEvent _ recording_exchange hard_manager)
                        sample_state empty_world) = ["ex-1"%string]
  /\ TradingState.activeOrders
       (state_after (@handleStopLossEvent _ recording_exchange hard_manager)
                    sample_state empty_world) = [].
Proof. split; reflexivity. Qed.

End StopLossHandlingExamples.

Section MonitorHistories.
Import PerformanceMonitor MonitorSpec EngineFrameSpec.

(** X22.  [updateTrades] appends the new trades and then keeps the last
    [maxHistoryLength] of them: the history never exceeds the maximum, the
    oldest trades are the ones that are dropped and no trade is
    reordered. *)
Theorem updateTrades_keeps_latest (trades : list HistoricalTrade.t) (pm : t) :
  let pm' := updateTrades trades pm in
  length (historicalTrades pm')
  = Nat.min (length (historicalTrades pm) + length trades) (maxHistoryLength pm)
  /\ (exists dropped, historicalTrades pm ++ trades = dropped ++ historicalTrades pm')
  /\ maxHistoryLength pm' = maxHistoryLength pm
  /\ metricsHistory pm' = metricsHistory pm.
Proof.
  cbv zeta. unfold updateTrades.
  cbn [historicalTrades maxHistoryLength metricsHistory].
  set (all := historicalTrades pm ++ trades).
  assert (Hall : length all = (length (historicalTrades pm) + length trades)%nat)
    by (subst all; apply length_app).
  rewrite <- Hall.
  destruct (Nat.ltb_spec (maxHistoryLength pm) (length all)) as [Hlt | Hge].
  - split; [ rewrite length_skipn; lia | ].
    split; [ | split; reflexivity ].
    exists (firstn (length all - maxHistoryLength pm) all).
    now rewrite firstn_skipn.
  - split; [ lia | ]. split; [ | split; reflexivity ]. now exists [].
Qed.

(** X23.  [updateMetrics] pushes the new entry and drops the oldest one
    when the history is then longer than the maximum: a history within
    the maximum stays within it, but a history that is already longer (as
    one loaded from a file may be) keeps its length and is never cut
    back. *)
Theorem updateMetrics_length (now : number) (m : PerformanceMetrics.t) (pm : t) :
  let pm' := updateMetrics now m pm in
  ((length (metricsHistory pm) <= maxHistoryLength pm)%nat ->
   (length (metricsHistory pm') <= maxHistoryLength pm)%nat)
  /\ ((maxHistoryLength pm <= length (metricsHistory pm))%nat ->
      length (metricsHistory pm') = length (metricsHistory pm))
  /\ (exists dropped,
         metricsHistory pm ++ [{| metrics := m; timestamp := now |}]
         = dropped ++ metricsHistory pm'
         /\ (length dropped <= 1)%nat)
  /\ historicalTrades pm' = historicalTrades pm.
Proof.
  cbv zeta. unfold updateMetrics.
  cbn [historicalTrades maxHistoryLength metricsHistory].
  set (pushed := metricsHistory pm ++ [{| metrics := m; timestamp := now |}]).
  assert (Hpushed : length pushed = S (length (metricsHistory pm)))
    by (subst pushed; rewrite length_app; cbn; lia).
  destruct (Nat.ltb_spec (maxHistoryLength pm) (length pushed)) as [Hlt | Hge].
  - destruct pushed as [| oldest rest] eqn:E; [ cbn in Hpushed; lia | ].
    cbn [tl]. cbn [length] in Hpushed, Hlt.
    split; [ lia | ]. split; [ lia | ]. split; [ | reflexivity ].
    exists [oldest]. split; [ reflexivity | cbn; lia ].
  - split; [ lia | ]. split; [ lia | ]. split; [ | reflexivity ].
    exists []. split; [ reflexivity | cbn; lia ].
Qed.

Lemma updateMetrics_length_witness :
  let pm := mk [] [] 0 in
  let m := PerformanceMetrics.mk (Fin 0) (Fin 0) (Fin 0) (Fin 0) (Fin 0) (Fin 0) (Fin 0) in
  (length (metricsHistory (updateMetrics (Fin 1) m pm)) <= 0)%nat.
Proof.
  cbv zeta.
  apply (proj1 (updateMetrics_length (Fin 1)
                  (PerformanceMetrics.mk (Fin 0) (Fin 0) (Fin 0) (Fin 0) (Fin 0)
                                         (Fin 0) (Fin 0))
                  (mk [] [] 0))).
  cbn. lia.
Defined.

End MonitorHistories.

Section MonitorReport.
Import PerformanceMonitor MonitorSpec.

Lemma total_profit_value (trades : list HistoricalTrade.t) :
  Forall finite_profit trades ->
  forall a, exists v,
    fold_left (fun sum trade => sum + HistoricalTrade.profit trade) trades (Fin a) = Fin v
    /\ v == a + Qsum (map profit_value trades).
Proof.
  induction 1 as [| trade trades Ht _ IH]; intro a; cbn [fold_left map Qsum fold_right].
  - exists a. split; [ reflexivity | ring ].
  - unfold finite_profit in Ht. unfold profit_value at 1.
    destruct (HistoricalTrade.profit trade) as [p| | |]; try contradiction.
    destruct (IH (a + p)%Q) as (v & E & Hv). exists v. split; [ exact E | ].
    rewrite Hv. unfold Qsum. ring.
Qed.

Lemma filter_Forall_in {A} (P : A -> Prop) (f : A -> bool) (l : list A) :
  Forall P l -> Forall P (filter f l).
Proof.
  intro Hl. apply Forall_forall. intros x Hx. apply filter_In in Hx.
  rewrite Forall_forall in Hl. apply Hl, Hx.
Qed.

Lemma sign_cases (p : Q) :
  ((Fin p <? Fin 0) = true /\ (Fin p >=? Fin 0) = false /\ (p < 0)%Q)
  \/ ((Fin p <? Fin 0) = false /\ (Fin p >=? Fin 0) = true /\ (0 <= p)%Q).
Proof.
  unfold lt, ge. rewrite compare_Fin. destruct (p ?= 0) eqn:C.
  - apply Qeq_alt in C. right. repeat split. lra.
  - apply Qlt_alt in C. left. repeat split. exact C.
  - apply Qgt_alt in C. right. repeat split. lra.
Qed.

(** Finite profits fall on one side or the other of zero. *)
Lemma profits_split (trades : list HistoricalTrade.t) :
  Forall finite_profit trades ->
  let losses := filter (fun trade => HistoricalTrade.profit trade <? Fin 0) trades in
  let gains := filter (fun trade => HistoricalTrade.profit trade >=? Fin 0) trades in
  (length losses + length gains = length trades)%nat
  /\ (Qsum (map profit_value losses) <= 0)%Q
  /\ (0 <= Qsum (map profit_value gains))%Q
  /\ (losses <> [] -> (Qsum (map profit_value losses) < 0)%Q).
Proof.
  cbv zeta. induction 1 as [| trade trades Ht _ IH]; cbn [filter].
  - cbn. split; [ reflexivity | ]. split; [ lra | ].
    split; [ lra | ]. intro Hne. now contradiction Hne.
  - destruct IH as (Hlen & Hloss & Hgain & Hstrict).
    unfold finite_profit in Ht.
    assert (Hv : HistoricalTrade.profit trade = Fin (profit_value trade)).
    { unfold profit_value. destruct (HistoricalTrade.profit trade); try contradiction.
      reflexivity. }
    rewrite Hv.
    destruct (sign_cases (profit_value trade)) as [(-> & -> & Hp) | (-> & -> & Hp)];
      cbn [map Qsum fold_right length]; unfold Qsum in *.
    + split; [ lia | ]. split; [ lra | ]. split; [ lra | ].
      intros _. lra.
    + split; [ lia | ]. split; [ lra | ]. split; [ lra | ].
      intro Hne. specialize (Hstrict Hne). lra.
Qed.

(** X24.  On trades of finite profit the stop-loss report splits the
    history in two: every trade is counted once, as a stop-loss trade when
    its profit is negative and as a regular trade otherwise; the total
    loss is not positive, and negative as soon as one trade is at a loss,
    the total profit is not negative, and the net P&L, their sum, lies
    between the two.  Without a trade at a loss the effectiveness ratio
    is [0]. *)
Theorem stop_loss_report_partition (pm : t) :
  Forall finite_profit (historicalTrades pm) ->
  let report := generateStopLossReport pm in
  (stopLossTradeCount report + regularTradeCount report
   = length (historicalTrades pm))%nat
  /\ (exists loss gain net,
         stopLossTotalLoss report = Fin loss
         /\ regularTradesTotalProfit report = Fin gain
         /\ netPnL report = Fin net
         /\ (loss <= 0)%Q /\ (0 <= gain)%Q
         /\ (stopLossTradeCount report <> 0%nat -> (loss < 0)%Q)
         /\ (loss <= net <= gain)%Q)
  /\ netPnL report = regularTradesTotalProfit report + stopLossTotalLoss report
  /\ (stopLossTradeCount report = 0%nat -> effectivenessRatio report = Fin 0).
Proof.
  intros Hfin. cbv zeta. unfold generateStopLossReport.
  cbn [stopLossTradeCount regularTradeCount stopLossTotalLoss regularTradesTotalProfit
       netPnL effectivenessRatio].
  destruct (profits_split Hfin) as (Hlen & Hloss & Hgain & Hstrict).
  cbv zeta in Hlen, Hloss, Hgain, Hstrict.
  set (losses := filter (fun trade => HistoricalTrade.profit trade <? Fin 0)
                        (historicalTrades pm)) in *.
  set (gains := filter (fun trade => HistoricalTrade.profit trade >=? Fin 0)
                       (historicalTrades pm)) in *.
  destruct (@total_profit_value losses (filter_Forall_in _ Hfin) 0) as (loss & El & Hl).
  destruct (@total_profit_value gains (filter_Forall_in _ Hfin) 0) as (gain & Eg & Hg).
  unfold total_profit. rewrite El, Eg.
  split; [ exact Hlen | ]. split; [ | split; [ reflexivity | ] ].
  - exists loss, gain, (gain + loss)%Q.
    split; [ reflexivity | ]. split; [ reflexivity | ]. split; [ reflexivity | ].
    split; [ lra | ]. split; [ lra | ]. split; [ | split; lra ].
    intro Hne. assert (losses <> []) by (intro E; rewrite E in Hne; now apply Hne).
    specialize (Hstrict H). lra.
  - intro Hnone. destruct losses; [ | discriminate ].
    cbn in El. injection El as <-. reflexivity.
Qed.

Lemma stop_loss_report_partition_witness :
  let report := generateStopLossReport (monitor_of three_trades 1000) in
  (stopLossTradeCount report + regularTradeCount report = 3)%nat
  /\ netPnL report = regularTradesTotalProfit report + stopLossTotalLoss report.
Proof.
  cbv zeta.
  assert (F : Forall finite_profit (historicalTrades (monitor_of three_trades 1000)))
    by (repeat constructor).
  destruct (@stop_loss_report_partition (monitor_of three_trades 1000) F)
    as (Hcount & _ & Hnet & _).
  split; [ exact Hcount | exact Hnet ].
Defined.

(** A trade whose profit is [NaN] is counted on neither side. *)
Example stop_loss_report_skips_nan :
  let report :=
    generateStopLossReport
      (monitor_of [HistoricalTrade.mk (Fin 0) (Fin 100) (Fin 1) sell 0 NaN] 1000) in
  stopLossTradeCount report = 0%nat /\ regularTradeCount report = 0%nat.
Proof. split; reflexivity. Qed.

End MonitorReport.

Section MonitorFrequency.
Import PerformanceMonitor MonitorSpec JsArray.








(** Three trades recorded over two hours, in any order: one hour between
    trades on average, one trade and a half per hour. *)
Example three_trades_frequency :
  let stats := calculateTradeFrequencyStats (monitor_of three_trades 1000) in
  is_value (averageTimeBetweenTrades stats) 3600000
  /\ is_value (tradesPerHour stats) (3 # 2)
  /\ totalTrades stats = Some 3%nat.
Proof. repeat split. Qed.

End MonitorFrequency.

Section MonitorHeatmap.
Import PerformanceMonitor MonitorSpec JsArray.

(** The value [set] stores for a trade at the key [k]. *)
Local Notation "'bumped' k m x" :=
  (S (fst match JsMap.get k m with Some data => data | None => (0%nat, Fin 0) end),
   snd match JsMap.get k m with Some data => data | None => (0%nat, Fin 0) end + x)
  (at level 10, k at level 9, m at level 9, x at level 9).

Lemma map_count_reset (k : number) (p : number) (m : JsMap.t LevelData) :
  map_count m = 0%nat -> map_count (JsMap.set k (0%nat, p) m) = 0%nat.
Proof.
  unfold map_count. induction m as [| [k' [c' p']] m IH]; cbn [JsMap.set]; intro Hm.
  - reflexivity.
  - cbn [map fold_right fst snd] in Hm.
    destruct (same_value_zero k' k); cbn [map fold_right fst snd].
    + lia.
    + rewrite IH by lia. lia.
Qed.

Lemma map_count_bump (k : number) (x : number) (m : JsMap.t LevelData) :
  map_count (JsMap.set k (bumped k m x) m) = S (map_count m).
Proof.
  unfold map_count, JsMap.get.
  induction m as [| [k' [c' p']] m IH]; cbn [JsMap.set find fst]; [ reflexivity | ].
  destruct (same_value_zero k' k); cbn [map fold_right fst snd].
  - reflexivity.
  - rewrite IH. lia.
Qed.

Lemma set_has_key (k : number) (v : LevelData) (m : JsMap.t LevelData) :
  has_key (JsMap.set k v m) k.
Proof.
  unfold has_key. induction m as [| [k' v'] m IH]; cbn [JsMap.set].
  - exists (k, v). split; [ now left | apply same_value_zero_refl ].
  - destruct (same_value_zero k' k) eqn:E.
    + exists (k', v). split; [ now left | exact E ].
    + destruct IH as (entry & Hin & He). exists entry. split; [ now right | exact He ].
Qed.

Lemma set_keeps_keys (k k0 : number) (v : LevelData) (m : JsMap.t LevelData) :
  has_key m k0 -> has_key (JsMap.set k v m) k0.
Proof.
  unfold has_key.
  induction m as [| [k' v'] m IH]; intros (entry & Hin & He); [ contradiction | ].
  cbn [JsMap.set]. destruct (same_value_zero k' k) eqn:E.
  - destruct Hin as [<- | Hin].
    + exists (k', v). split; [ now left | exact He ].
    + exists entry. split; [ now right | exact He ].
  - destruct Hin as [<- | Hin].
    + exists (k', v'). split; [ now left | exact He ].
    + destruct IH as (entry' & Hin' & He'); [ now exists entry | ].
      exists entry'. split; [ now right | exact He' ].
Qed.

Lemma counted_perm (l l' : list HeatmapEntry) :
  Permutation l l' -> counted l = counted l'.
Proof.
  unfold counted. induction 1; cbn [map fold_right]; lia.
Qed.

Lemma counted_entries (m : JsMap.t LevelData) :
  counted (map heatmap_entry m) = map_count m.
Proof.
  unfold counted, map_count. induction m as [| [k [c p]] m IH]; [ reflexivity | ].
  cbn [map fold_right heatmap_entry tradeCount fst snd]. now rewrite IH.
Qed.

(** The map after the levels: every level has its key, nothing is
    counted. *)
Lemma initial_map (levels : list GridLevel.t) :
  forall m,
    map_count m = 0%nat ->
    let initial := fold_left (fun m level => JsMap.set (GridLevel.price level) (0%nat, Fin 0) m)
                             levels m in
    map_count initial = 0%nat
    /\ (forall k, has_key m k -> has_key initial k)
    /\ (forall level, In level levels -> has_key initial (GridLevel.price level)).
Proof.
  induction levels as [| level levels IH]; intros m Hm; cbn [fold_left].
  - split; [ exact Hm | ]. split; [ auto | intros ? [] ].
  - destruct (IH (JsMap.set (GridLevel.price level) (0%nat, Fin 0) m)) as (Hc & Hk & Hl);
      [ now apply map_count_reset | ].
    split; [ exact Hc | ]. split.
    + intros k Hkey. apply Hk. now apply set_keeps_keys.
    + intros level' [<- | Hin]; [ apply Hk, set_has_key | now apply Hl ].
Qed.

Lemma traded_map (trades : list HistoricalTrade.t) :
  forall m,
    let final :=
      fold_left
        (fun m trade =>
           let price := HistoricalTrade.price trade in
           let currentData :=
             match JsMap.get price m with
             | Some data => data
             | None => (0%nat, Fin 0)
             end in
           JsMap.set price
             (S (fst currentData), snd currentData + HistoricalTrade.profit trade) m)
        trades m in
    map_count final = (map_count m + length trades)%nat
    /\ (forall k, has_key m k -> has_key final k)
    /\ (forall trade, In trade trades -> has_key final (HistoricalTrade.price trade)).
Proof.
  induction trades as [| trade trades IH]; intro m; cbn [fold_left].
  - split; [ cbn; lia | ]. split; [ auto | intros ? [] ].
  - cbv zeta in IH |- *.
    set (m' := JsMap.set (HistoricalTrade.price trade) _ m).
    destruct (IH m') as (Hc & Hk & Ht).
    assert (Hm' : map_count m' = S (map_count m)) by apply map_count_bump.
    split; [ rewrite Hc, Hm'; cbn [length]; lia | ]. split.
    + intros k Hkey. apply Hk. subst m'. now apply set_keeps_keys.
    + intros trade' [<- | Hin]; [ apply Hk; subst m'; apply set_has_key | now apply Ht ].
Qed.

(** X26.  The profitability heatmap counts every trade of the history
    exactly once: the trade counts of its entries add up to the number of
    trades; and it has an entry for the price of every level of the grid
    and of every trade. *)
Theorem heatmap_counts_every_trade (pm : t) (tradingState : TradingState.t) :
  let heatmap := generateProfitabilityHeatmap pm tradingState in
  counted heatmap = length (historicalTrades pm)
  /\ (forall level, In level (TradingState.gridLevels tradingState) ->
                    has_entry heatmap (GridLevel.price level))
  /\ (forall trade, In trade (historicalTrades pm) ->
                    has_entry heatmap (HistoricalTrade.price trade)).
Proof.
  cbv zeta. unfold generateProfitabilityHeatmap.
  assert (Hmap : map_count (profitabilityMap pm tradingState) = length (historicalTrades pm)
                 /\ (forall level, In level (TradingState.gridLevels tradingState) ->
                                   has_key (profitabilityMap pm tradingState)
                                           (GridLevel.price level))
                 /\ (forall trade, In trade (historicalTrades pm) ->
                                   has_key (profitabilityMap pm tradingState)
                                           (HistoricalTrade.price trade))).
  { destruct (@initial_map (TradingState.gridLevels tradingState) [] eq_refl)
      as (Hc0 & _ & Hlevels).
    cbv zeta in Hc0, Hlevels.
    destruct (traded_map (historicalTrades pm)
                (fold_left (fun m level => JsMap.set (GridLevel.price level) (0%nat, Fin 0) m)
                           (TradingState.gridLevels tradingState) []))
      as (Hc & Hk & Htrades).
    cbv zeta in Hc, Hk, Htrades. unfold profitabilityMap. cbv zeta.
    split.
    { etransitivity; [ exact Hc | ].
      exact (f_equal (fun n => (n + length (historicalTrades pm))%nat) Hc0). }
    split; [ intros level Hin; apply Hk, Hlevels, Hin | exact Htrades ]. }
  destruct Hmap as (Hc & Hlevels & Htrades).
  set (entries := map heatmap_entry (profitabilityMap pm tradingState)).
  pose proof (sort_by_perm (fun a b => price a - price b) entries) as Hperm.
  assert (Hentry : forall k,
             has_key (profitabilityMap pm tradingState) k ->
             has_entry (sort_by (fun a b => price a - price b) entries) k).
  { intros k ((k' & data) & Hin & He).
    exists (heatmap_entry (k', data)). split; [ | exact He ].
    apply (Permutation_in _ (Permutation_sym Hperm)). subst entries.
    now apply in_map. }
  split; [ | split ].
  - rewrite (counted_perm Hperm). subst entries. rewrite counted_entries. exact Hc.
  - intros level Hin. apply Hentry, Hlevels, Hin.
  - intros trade Hin. apply Hentry, Htrades, Hin.
Qed.

Lemma heatmap_counts_every_trade_witness :
  has_entry (generateProfitabilityHeatmap (monitor_of three_trades 1000)
                                          StopLossSpec.soft_state)
            (Fin 95).
Proof.
  apply (proj2 (proj2 (heatmap_counts_every_trade (monitor_of three_trades 1000)
                         StopLossSpec.soft_state))
           (trade_at 0 95 (-3))).
  right. left. reflexivity.
Defined.

(** Two of the three trades are at the level of price 100. *)
Example heatmap_of_three_trades :
  map tradeCount
      (generateProfitabilityHeatmap (monitor_of three_trades 1000) StopLossSpec.soft_state)
  = [0; 1; 2; 0; 0]%nat.
Proof. reflexivity. Qed.

End MonitorHeatmap.

Section Placement.
Import Effects ExecutionEngine EngineSpec PlacementSpec.
Context {X : Type} `{ExchangeConnector X}.

Section From.
Variable levels : list GridLevel.t.
Variable old : list GridOrder.t.

Local Notation "'keeps_placement'" := (keeps (X := X) (places_from levels old)).

Lemma OrderStatus_eqb_pending (s : OrderStatus) :
  OrderStatus_eqb s pending = true -> s = pending.
Proof. destruct s; cbn; congruence. Qed.

Lemma placeOrder_copy (order : GridOrder.t) :
  keeps_placement
    (fun placed => exists exchangeOrderId,
         placed = GridOrder.mk (GridOrder.id order) (GridOrder.price order)
                    (GridOrder.size order) (GridOrder.type order) (GridOrder.side order)
                    pending (Some exchangeOrderId))
    (placeOrder order).
Proof.
  unfold placeOrder. apply keeps_try_catch.
  - eapply keeps_bind; [ apply keeps_call | intros exchangeOrderId _ ].
    eapply keeps_bind; [ apply keeps_logger | intros _ _ ].
    apply keeps_ret. now exists exchangeOrderId.
  - intro err. eapply keeps_bind; [ apply keeps_logger | intros _ _ ].
    apply keeps_throw.
Qed.

Lemma place_if_pending_from (level : GridLevel.t) (o : option GridOrder.t) :
  In level levels ->
  GridLevel.isActive level = true ->
  GridLevel.buyOrder level = o \/ GridLevel.sellOrder level = o ->
  keeps_placement (Forall (placed_from levels)) (place_if_pending o).
Proof.
  intros Hin Hactive Ho. unfold place_if_pending, pending_order.
  destruct o as [source |]; [ | apply keeps_ret; constructor ].
  destruct (OrderStatus_eqb (GridOrder.status source) pending) eqn:Es;
    [ | apply keeps_ret; constructor ].
  apply OrderStatus_eqb_pending in Es.
  eapply keeps_bind; [ apply placeOrder_copy | intros placed (id & ->) ].
  apply keeps_ret. constructor; [ | constructor ].
  exists level, source, id. auto.
Qed.

Lemma place_level_from (level : GridLevel.t) :
  In level levels ->
  keeps_placement (Forall (placed_from levels)) (place_level level).
Proof.
  intro Hin. unfold place_level.
  destruct (GridLevel.isActive level) eqn:Hactive; cbn [negb];
    [ | apply keeps_ret; constructor ].
  apply keeps_try_catch.
  - eapply keeps_bind;
      [ apply (@place_if_pending_from level _ Hin Hactive); now left | intros placedBuy Hbuy ].
    apply keeps_try_catch.
    + eapply keeps_bind;
        [ apply (@place_if_pending_from level _ Hin Hactive); now right
        | intros placedSell Hsell ].
      apply keeps_ret. apply Forall_app. auto.
    + intro err. eapply keeps_bind; [ apply keeps_logger | intros _ _ ].
      apply keeps_ret. exact Hbuy.
  - intro err. eapply keeps_bind; [ apply keeps_logger | intros _ _ ].
    apply keeps_ret. constructor.
Qed.

Lemma placeGridOrders_from : keeps_placement anything placeGridOrders.
Proof.
  unfold placeGridOrders.
  eapply keeps_bind; [ apply keeps_get | intros e [He _] ].
  eapply keeps_bind.
  - apply keeps_for_collect. intros level Hlevel. apply place_level_from.
    now rewrite <- He.
  - intros placedOrders Hplaced.
    eapply keeps_bind; [ | intros _ _; apply keeps_logger ].
    apply keeps_modify. intros s [Hs Hold]. split; [ exact Hs | ].
    cbn [tradingState with_tradingState set_activeOrders TradingState.activeOrders].
    apply Forall_app. split.
    + apply Forall_forall. intros order Hin. apply filter_In in Hin.
      rewrite Forall_forall in Hold. apply Hold, Hin.
    + eapply Forall_impl; [ | exact Hplaced ]. intros order Ho. now right.
Qed.

Lemma initialize_from : keeps_placement anything initialize.
Proof.
  unfold initialize. apply keeps_try_catch.
  - eapply keeps_bind; [ apply keeps_logger | intros _ _ ].
    eapply keeps_bind; [ apply keeps_call | intros currentPrice _ ].
    eapply keeps_bind; [ apply keeps_modify; intros s Hs; exact Hs | intros _ _ ].
    eapply keeps_bind; [ apply keeps_modify; intros s Hs; exact Hs | intros _ _ ].
    eapply keeps_bind; [ apply placeGridOrders_from | intros _ _ ].
    eapply keeps_bind; [ apply keeps_modify; intros s Hs; exact Hs | intros _ _ ].
    apply keeps_logger.
  - intro err. eapply keeps_bind; [ apply keeps_logger | intros _ _ ].
    apply keeps_throw.
Qed.

End From.

(** X27.  Whatever the exchange answers, the orders that are active after
    [initialize] are orders that were active before or copies, carrying the
    identifier given by the exchange, of pending orders attached to active
    levels: no order is placed for an inactive level, and none that is not
    pending. *)
Theorem initialize_places_pending_orders_of_active_levels (e : t) (w : World X) :
  Forall (fun order =>
            In order (TradingState.activeOrders (tradingState e))
            \/ placed_from (TradingState.gridLevels (tradingState e)) order)
         (TradingState.activeOrders (tradingState (state_after initialize e w))).
Proof.
  assert (He : places_from (TradingState.gridLevels (tradingState e))
                           (TradingState.activeOrders (tradingState e)) e).
  { split; [ reflexivity | ]. apply Forall_forall. intros order Hin. now left. }
  pose proof (@initialize_from (TradingState.gridLevels (tradingState e))
                (TradingState.activeOrders (tradingState e)) e w He) as Hrun.
  unfold state_after.
  destruct (initialize e w) as [[[a | err] e'] w']; cbn [fst snd]; apply Hrun.
Qed.

End Placement.

Section PlacementExamples.
Import Effects ExecutionEngine EngineSpec PlacementSpec.

(** The pending order of a closed level is not placed. *)
Example closed_level_is_not_placed :
  TradingState.activeOrders
    (tradingState (state_after (@initialize _ recording_exchange) closed_engine empty_world))
  = [].
Proof. reflexivity. Qed.

End PlacementExamples.

Section Replacement.
Import Effects ExecutionEngine EngineSpec ReplacementSpec.
Context {X : Type} `{ExchangeConnector X}.

(** [placeOrder] returns the order with the identifier of the exchange or
    rethrows; it leaves the engine as it is. *)
Lemma placeOrder_cases (order : GridOrder.t) (e : t) (w : World X) :
  (exists exchangeOrderId w',
      placeOrder order e w
      = (Ok (GridOrder.mk (GridOrder.id order) (GridOrder.price order)
               (GridOrder.size order) (GridOrder.type order) (GridOrder.side order)
               pending (Some exchangeOrderId)), e, w'))
  \/ (exists err w', placeOrder order e w = (Throw err, e, w')).
Proof.
  unfold placeOrder, try_catch, bind, call, logger, ret, throw.
  destruct (Effects.placeOrder _ (exchange w)) as [[exchangeOrderId | err] x'].
  - left. eexists _, _. reflexivity.
  - right. eexists _, _. reflexivity.
Qed.

Lemma recordTrade_runs (order : GridOrder.t) (gridLevelIndex : nat) (e : t) (w : World X) :
  exists trade w', recordTrade order gridLevelIndex e w = (Ok tt, push_trade trade e, w').
Proof.
  unfold recordTrade, bind, get, now, call, modify.
  destruct (Date_now (exchange w)) as [timestamp x']. eexists _, _. reflexivity.
Qed.

Variable filledOrders : list GridOrder.t.
Variable e1 : t.

(** One turn of the loop: nothing is pushed when the level is not found
    or the exchange rejects the order; otherwise one order is pushed and
    one trade recorded. *)
Lemma replace_filled_step (filledOrder : GridOrder.t) (e : t) (w : World X)
    (newOrders : list GridOrder.t) :
  In filledOrder filledOrders ->
  replacing filledOrders e1 e newOrders ->
  exists pushed e' w',
    replace_filled filledOrder e w = (Ok pushed, e', w')
    /\ replacing filledOrders e1 e' (newOrders ++ pushed)
    /\ (length pushed <= 1)%nat.
Proof.
  intros Hin (Hprices & Hactive & Hfilled & Htrades & Hnew).
  unfold replace_filled. unfold bind at 1. cbn [get].
  destruct (find_level _ 0 _) as [[gridLevelIndex gridLevel] |] eqn:Efind.
  2:{ exists [], e, w. split; [ reflexivity | ]. rewrite app_nil_r.
      split; [ now repeat split | cbn; lia ]. }
  apply find_level_nth in Efind. destruct Efind as [_ Hnth]. rewrite Nat.sub_0_r in Hnth.
  cbv zeta. unfold try_catch.
  match goal with
  | |- context [placeOrder ?o] => destruct (placeOrder_cases o e w)
      as [(exchangeOrderId & w1 & Eplace) | (err & w1 & Eplace)]
  end.
  - rewrite (@bind_ok _ _ _ _ _ _ _ _ _ _ _ Eplace).
    erewrite bind_ok by reflexivity.
    match goal with
    | |- context [recordTrade ?o ?i] =>
        match goal with
        | |- context [bind (recordTrade o i) ?k ?s ?w0] =>
            destruct (recordTrade_runs o i s w0) as (trade & w2 & Erecord);
            rewrite (@bind_ok _ _ _ _ _ _ _ _ _ _ _ Erecord)
        end
    end.
    eexists _, _, _. split; [ reflexivity | ].
    split; [ | cbn; lia ].
    unfold replacing.
    cbn [tradingState with_tradingState set_gridLevels push_trade historicalTrades
         TradingState.gridLevels TradingState.activeOrders TradingState.filledOrders
         GridOrder.id GridOrder.price GridOrder.size GridOrder.type GridOrder.side].
    split; [ | split; [ exact Hactive | split; [ exact Hfilled | split ] ] ].
    + rewrite update_at_map; [ exact Hprices | ].
      rewrite nth_error_map, Hnth. destruct (oppositeSide _); reflexivity.
    + rewrite !length_app. cbn [length]. lia.
    + apply Forall_app. split; [ exact Hnew | ]. constructor; [ | constructor ].
      exists filledOrder, exchangeOrderId. repeat split; try assumption.
      cbn [GridOrder.price]. rewrite <- Hprices.
      apply (in_map GridLevel.price). eapply nth_error_In. exact Hnth.
  - unfold bind at 1. rewrite Eplace.
    eexists [], e, _. split; [ reflexivity | ]. rewrite app_nil_r.
    split; [ now repeat split | cbn; lia ].
Qed.

Lemma replace_loop (orders : list GridOrder.t) :
  incl orders filledOrders ->
  forall e w newOrders,
    replacing filledOrders e1 e newOrders ->
    exists pushed e' w',
      for_collect orders replace_filled e w = (Ok pushed, e', w')
      /\ replacing filledOrders e1 e' (newOrders ++ pushed)
      /\ (length pushed <= length orders)%nat.
Proof.
  induction orders as [| order orders IH]; intros Hincl e w newOrders He;
    cbn [for_collect].
  - exists [], e, w. split; [ reflexivity | ]. rewrite app_nil_r. split; [ exact He | cbn; lia ].
  - destruct (@replace_filled_step order e w newOrders) as (ys & e' & w' & E & He' & Hys);
      [ apply Hincl; now left | exact He | ].
    destruct (IH (fun o Ho => Hincl o (or_intror Ho)) e' w' (newOrders ++ ys) He')
      as (rest & e'' & w'' & E' & He'' & Hrest).
    exists (ys ++ rest), e'', w''. unfold bind. rewrite E, E'. cbn [ret].
    split; [ reflexivity | ]. rewrite app_assoc. split; [ exact He'' | ].
    rewrite length_app. cbn [length]. lia.
Qed.

End Replacement.

Section ReplacementTheorem.
Import Effects ExecutionEngine EngineSpec ReplacementSpec.
Context {X : Type} `{ExchangeConnector X}.

(** X28.  [processFilledOrders] never throws.  It appends the filled
    orders to [filledOrders], removes from the active orders those that
    have the identifier of a filled order, and appends the orders it has
    placed: at most one for each filled order, on the other side, of the
    same size and type, pending, at the price of a level of the grid; and
    it records exactly one trade for each order it has placed.  A filled
    order whose level is not found or whose replacement the exchange
    rejects is not replaced. *)
Theorem processFilledOrders_replaces (filledOrders : list GridOrder.t) (e : t)
    (w : World X) :
  let e' := state_after (processFilledOrders filledOrders) e w in
  outcome (processFilledOrders filledOrders) e w = Ok tt
  /\ TradingState.filledOrders (tradingState e')
     = TradingState.filledOrders (tradingState e) ++ filledOrders
  /\ exists newOrders,
       TradingState.activeOrders (tradingState e')
       = filter (fun order => negb (some_id filledOrders order))
                (TradingState.activeOrders (tradingState e)) ++ newOrders
       /\ (length newOrders <= length filledOrders)%nat
       /\ length (historicalTrades e') = (length (historicalTrades e) + length newOrders)%nat
       /\ Forall (replacement filledOrders
                    (map GridLevel.price (TradingState.gridLevels (tradingState e))))
                 newOrders.
Proof.
  cbv zeta.
  set (e1 := calculateRealizedPnL filledOrders
               (with_tradingState
                  (fun s => set_filledOrders (TradingState.filledOrders s ++ filledOrders) s)
                  (with_tradingState
                     (fun s => set_activeOrders
                                 (filter (fun order => negb (some_id filledOrders order))
                                         (TradingState.activeOrders s)) s) e))).
  assert (He1 : replacing filledOrders e1 e1 [])
    by (repeat split; [ cbn; lia | constructor ]).
  destruct (@replace_loop _ _ filledOrders e1 filledOrders (incl_refl _) e1 w [] He1)
    as (newOrders & e2 & w2 & Eloop & (Hprices & Hactive & Hfilled & Htrades & Hnew) & Hlen).
  cbn [app] in Hprices, Hactive, Hfilled, Htrades, Hnew.
  assert (Run : exists w',
             processFilledOrders filledOrders e w
             = (Ok tt,
                with_tradingState
                  (fun s => set_activeOrders (TradingState.activeOrders s ++ newOrders) s) e2,
                w')).
  { unfold processFilledOrders.
    erewrite bind_ok by reflexivity.
    erewrite bind_ok by reflexivity.
    erewrite bind_ok by reflexivity.
    fold e1. rewrite (@bind_ok _ _ _ _ _ _ _ _ _ _ _ Eloop).
    erewrite bind_ok by reflexivity.
    eexists. reflexivity. }
  destruct Run as [w' Run]. unfold outcome, state_after. rewrite Run. cbn [fst snd].
  cbn [tradingState with_tradingState set_activeOrders TradingState.filledOrders
       TradingState.activeOrders historicalTrades].
  split; [ reflexivity | ]. split; [ rewrite Hfilled; reflexivity | ].
  exists newOrders. split; [ rewrite Hactive; reflexivity | ].
  split; [ exact Hlen | ]. split; [ rewrite Htrades; reflexivity | exact Hnew ].
Qed.

End ReplacementTheorem.

Section ReplacementExamples.
Import Effects ExecutionEngine EngineSpec EngineFrameSpec.

(** The sell order of the sample level is filled and replaced by a buy
    order at the price of the level. *)
Example sample_replacement :
  let e := state_after (@processFilledOrders _ recording_exchange [first_order])
                       sample_engine empty_world in
  map GridOrder.id (TradingState.activeOrders (tradingState e))
  = ["o2"; "o1-opposite"]%string
  /\ map GridOrder.price (TradingState.activeOrders (tradingState e)) = [Fin 100; Fin 100]
  /\ length (historicalTrades e) = 1%nat.
Proof. repeat split. Qed.

(** When the exchange rejects the replacement the filled order is gone
    from the active orders and nothing takes its place. *)
Example rejected_replacement :
  let e := state_after (@processFilledOrders _ unreachable_exchange [first_order])
                       sample_engine silent_world in
  map GridOrder.id (TradingState.activeOrders (tradingState e)) = ["o2"]%string
  /\ historicalTrades e = [].
Proof. repeat split. Qed.

End ReplacementExamples.

Section NoRule.
Import RiskManager RiskSpec NoRuleSpec.

Lemma updateStopLoss_without_rules (r : t) (ts : TradingState.t) :
  all_disabled (config r) ->
  stopLossPrice r = None ->
  fst (updateStopLoss r ts) = None
  /\ config (snd (updateStopLoss r ts)) = config r
  /\ stopLossPrice (snd (updateStopLoss r ts)) = None.
Proof.
  intros (Hb & Hd & Ht) Hnone. unfold updateStopLoss. cbn [config].
  rewrite Hb. cbn [config]. rewrite Hd. cbn [config]. rewrite Ht.
  cbn [fst snd stopLossPrice config]. auto.
Qed.

(** X29.  A manager created with every stop-loss rule disabled never has
    a stop: after any number of updates [updateStopLoss] still returns
    [null] (which the trading cycle records as a stop-loss level of [0])
    and [isStopLossTriggered] is false at every price. *)
Theorem no_rule_no_stop (cfg : RiskManagementConfig.t) (initialPrice price : number)
    (states : list TradingState.t) (ts : TradingState.t) :
  all_disabled cfg ->
  let r := updates (constructor cfg initialPrice) states in
  stopLossPrice r = None
  /\ fst (updateStopLoss r ts) = None
  /\ isStopLossTriggered r price = false.
Proof.
  intros Hcfg. cbv zeta.
  assert (G : forall r, config r = cfg -> stopLossPrice r = None ->
                        config (updates r states) = cfg
                        /\ stopLossPrice (updates r states) = None).
  { unfold updates. induction states as [| s states' IH]; intros r Hr Hnone;
      cbn [fold_left]; [ auto | ].
    assert (Hall : all_disabled (config r)) by now rewrite Hr.
    destruct (@updateStopLoss_without_rules r s Hall Hnone) as (_ & Hc & Hs).
    apply IH; [ now rewrite Hc | exact Hs ]. }
  destruct (G (constructor cfg initialPrice)) as [Hc Hs].
  - reflexivity.
  - unfold constructor. destruct Hcfg as (-> & _). reflexivity.
  - split; [ exact Hs | ]. split.
    + apply (@updateStopLoss_without_rules
               (updates (constructor cfg initialPrice) states) ts);
        [ now rewrite Hc | exact Hs ].
    + unfold isStopLossTriggered. now rewrite Hs.
Qed.

Lemma no_rule_no_stop_witness :
  isStopLossTriggered
    (updates (constructor no_rules (Fin 100)) [state_at (Fin 50) (Fin 0)]) (Fin 1)
  = false.
Proof.
  apply (@no_rule_no_stop no_rules (Fin 100) (Fin 1) [state_at (Fin 50) (Fin 0)]
           (state_at (Fin 50) (Fin 0))).
  repeat split.
Defined.

End NoRule.
